(** * CYTools [Triangulation]: a shallow embedding of
      [cytools/triangulation.py] and the properties checked against it.

    Conventions.
    - Python integers are [Z]; a point (a row of [self._pts]) and a simplex
      (a row of [self._simplices]) are [list Z].
    - Python sets and frozensets of integers are [gset Z]; the dictionary
      [self._pts_dict] is a [gmap (list Z) Z].  Iterating over a set goes
      through [elements], whose order is as unspecified as Python's.
    - A method of the class is a function in the state-and-exception monad
      [M]: it receives the object, may update its cached attributes and
      either returns a value or raises.
    - Everything the module imports from elsewhere (the ambient polytope,
      cones, numpy's floating point routines, flint, the external
      triangulation programs) is a field of the class [Externals]. *)

From stdpp Require Import strings gmap sets list sorting.
From Stdlib Require Import ZArith Lia.

Local Open Scope Z_scope.

(** ** Python runtime: exceptions and results *)

Inductive exn : Type :=
  | ValueError (msg : string)
  | NotImplementedError (msg : string)
  | RuntimeError (msg : string)
  | TypeError
  | KeyError
  | IndexError
  | AttributeError
  | AssertionError
  | NameError (name : string)
  | OverflowError.

(** The outcome of a call: a value, an exception, or [OutOfFuel] when a
    [while] loop was followed for as many rounds as the caller allowed
    without leaving it. *)
Inductive result (A : Type) : Type :=
  | Ok (a : A)
  | Raise (e : exn)
  | OutOfFuel.
Arguments Ok {A} a.
Arguments Raise {A} e.
Arguments OutOfFuel {A}.

Definition result_bind {A B} (r : result A) (k : A → result B) : result B :=
  match r with Ok a => k a | Raise e => Raise e | OutOfFuel => OutOfFuel end.

Fixpoint result_mapM {A B} (f : A → result B) (l : list A) : result (list B) :=
  match l with
  | [] => Ok []
  | x :: l' =>
      result_bind (f x) (λ y, result_bind (result_mapM f l') (λ ys, Ok (y :: ys)))
  end.

#[global] Instance result_ret : MRet result := λ A a, Ok a.
#[global] Instance result_mbind : MBind result := λ A B k r, result_bind r k.

(** [[x for x in l if f(x)]] where the test may raise. *)
Fixpoint result_filterM {A} (f : A → result bool) (l : list A) : result (list A) :=
  match l with
  | [] => Ok []
  | x :: l' =>
      result_bind (f x) (λ b,
      result_bind (result_filterM f l') (λ ys, Ok (if b then x :: ys else ys)))
  end.

(** A method: object in, value or exception and the (possibly updated)
    object out. *)
Definition M (S A : Type) : Type := S → result A * S.

#[global] Instance M_ret {S} : MRet (M S) := λ A a s, (Ok a, s).
#[global] Instance M_bind {S} : MBind (M S) :=
  λ A B k m s, match m s with
               | (Ok a, s') => k a s'
               | (Raise e, s') => (Raise e, s')
               | (OutOfFuel, s') => (OutOfFuel, s')
               end.

Definition raise {S A} (e : exn) : M S A := λ s, (Raise e, s).
Definition get {S} : M S S := λ s, (Ok s, s).
Definition modify {S} (f : S → S) : M S unit := λ s, (Ok tt, f s).
Definition lift {S A} (r : result A) : M S A := λ s, (r, s).

(** Indexing a Python list or a numpy array of length [n] with the integer
    [i]: negative indices count from the end, anything outside
    [-n, n) raises [IndexError]. *)
Definition norm_index (n : nat) (i : Z) : result nat :=
  if bool_decide (0 ≤ i < Z.of_nat n) then Ok (Z.to_nat i)
  else if bool_decide (- Z.of_nat n ≤ i < 0) then Ok (Z.to_nat (Z.of_nat n + i))
  else Raise IndexError.

Definition py_getitem {A} (l : list A) (i : Z) : result A :=
  result_bind (norm_index (length l) i)
    (λ n, match l !! n with Some x => Ok x | None => Raise IndexError end).

(** The value that an [int64] holds when the exact result of an addition
    is [z]: numpy integers wrap around modulo [2^64] into
    [[-2^63, 2^63)]. *)
Definition int64_wrap (z : Z) : Z := (z + 2 ^ 63) `mod` 2 ^ 64 - 2 ^ 63.

(** [a[i] += v] on a one-dimensional [int64] array ([np.zeros(n,
    dtype=int)]), [v] a Python integer.  The statement reads [a[i]], adds
    and stores the sum.  A Python integer outside the range of [int64]
    cannot be added to an [int64] and raises [OverflowError]; when [v]
    fits, the sum is an [int64] again and wraps around silently. *)
Definition np_iadd (a : list Z) (i : Z) (v : Z) : result (list Z) :=
  result_bind (norm_index (length a) i)
    (λ n, match a !! n with
          | Some x =>
              if bool_decide (- 2 ^ 63 ≤ v < 2 ^ 63)
              then Ok (<[n := int64_wrap (x + v)]> a)
              else Raise OverflowError
          | None => Raise IndexError
          end).

(** [a[i] = v] on a one-dimensional array. *)
Definition np_setitem {A} (a : list A) (i : Z) (v : A) : result (list A) :=
  result_bind (norm_index (length a) i) (λ n, Ok (<[n := v]> a)).

(** [d[k]] on a dictionary. *)
Definition dict_getitem `{Countable K} {V} (d : gmap K V) (k : K) : result V :=
  match d !! k with Some v => Ok v | None => Raise KeyError end.

(** [np.asarray(rows, dtype=int)]: an array needs rows of one length. *)
Definition np_asarray (rows : list (list Z)) : result (list (list Z)) :=
  match rows with
  | [] => Ok []
  | r :: _ =>
      if forallb (λ r', bool_decide (length r' = length r)) rows then Ok rows
      else Raise (ValueError "setting an array element with a sequence")
  end.

(** [a.shape[1]] of an array built by [np_asarray]; the empty array is
    one-dimensional. *)
Definition shape1 (a : list (list Z)) : result Z :=
  match a with
  | [] => Raise IndexError
  | r :: _ => Ok (Z.of_nat (length r))
  end.

(** [row[start:]] *)
Definition slice_from {A} (start : Z) (row : list A) : list A :=
  if bool_decide (start < 0)
  then drop (Z.to_nat (Z.max 0 (Z.of_nat (length row) + start))) row
  else drop (Z.to_nat start) row.

(** [np.dot(p, q)] on integer vectors of one length. *)
Definition dot (p q : list Z) : Z := foldr Z.add 0 (zip_with Z.mul p q).

(** [s.lower()], on ASCII. *)
Definition ascii_lower (c : Ascii.ascii) : Ascii.ascii :=
  let n := Ascii.nat_of_ascii c in
  if bool_decide (65 ≤ n ≤ 90)%nat then Ascii.ascii_of_nat (n + 32) else c.
Fixpoint lower (s : string) : string :=
  match s with
  | EmptyString => EmptyString
  | String c s' => String (ascii_lower c) (lower s')
  end.

(** [l.index(x)]: position of the first occurrence, [ValueError] if none. *)
Fixpoint list_index_from `{EqDecision A} (x : A) (l : list A) (n : Z) : result Z :=
  match l with
  | [] => Raise (ValueError "x not in list")
  | y :: l' => if decide (x = y) then Ok n else list_index_from x l' (n + 1)
  end.
Definition list_index `{EqDecision A} (l : list A) (x : A) : result Z :=
  list_index_from x l 0.

(** [itertools.combinations(l, r)], in the order Python yields them. *)
Fixpoint combinations {A} (l : list A) (r : nat) : list (list A) :=
  match r, l with
  | O, _ => [[]]
  | S _, [] => []
  | S r', x :: l' => map (cons x) (combinations l' r') ++ combinations l' r
  end.

(** [sum(l)] for integers. *)
Definition zsum (l : list Z) : Z := foldr Z.add 0 l.

(** Lexicographic comparison of tuples of integers, as Python orders
    tuples and lists. *)
Fixpoint tuple_leb (a b : list Z) : bool :=
  match a, b with
  | [], _ => true
  | _ :: _, [] => false
  | x :: a', y :: b' => (x <? y) || ((x =? y) && tuple_leb a' b')
  end.
Definition tuple_le (a b : list Z) : Prop := tuple_leb a b = true.
#[global] Instance tuple_le_dec : RelDecision tuple_le.
Proof. intros a b. unfold tuple_le. apply _. Defined.

(** [sorted(s)] for a sequence of integers and for a sequence of tuples. *)
Definition sorted_ints (s : list Z) : list Z := merge_sort Z.le s.
Definition sorted_tuples (l : list (list Z)) : list (list Z) :=
  merge_sort tuple_le l.

(** The canonical form [sorted([sorted(s) for s in simplices])]. *)
Definition canonical_simplices (simplices : list (list Z)) : list (list Z) :=
  sorted_tuples (map sorted_ints simplices).

(** The key [lambda x: (len(x), x)] used to order the generators of the
    Stanley-Reisner ideal. *)
Definition len_then_tuple_le (a b : list Z) : Prop :=
  (length a < length b)%nat ∨ (length a = length b ∧ tuple_le a b).
#[global] Instance len_then_tuple_le_dec : RelDecision len_then_tuple_le.
Proof. intros a b. unfold len_then_tuple_le. apply _. Defined.

(** Python values that get hashed: integers and tuples. *)
Local Unset Elimination Schemes.
Inductive pyobj : Type :=
  | PyInt (z : Z)
  | PyTuple (l : list pyobj).
Local Set Elimination Schemes.

(** ** What the module imports

    The ambient polytope, the cone class, numpy, scipy, flint and the three
    triangulation programs are consumed through narrow interfaces.  Their
    answers are the fields below; every statement proved later holds for
    all of them. *)

Class Externals : Type := {
  (** numpy's [float64] with the operations the module applies to it *)
  F : Type;
  f_abs : F → F;                       (* [abs(x)] *)
  py_round : F → Z;                    (* [int(round(x))] *)
  f_of_Z : Z → F;
  f_add : F → F → F;
  f_sub : F → F → F;
  f_max : F → F → F;
  f_min : F → F → F;
  (** [np.linalg.det(m)] and [np.linalg.matrix_rank(m)] *)
  np_linalg_det : list (list Z) → F;
  np_linalg_matrix_rank : list (list Z) → Z;
  (** the i-th draw of [np.random.normal(0, 0.05)] *)
  np_random_normal : nat → F;
  (** [np.random.shuffle(l)] at the n-th step of a walk started with
      [np.random.seed(seed)] (or with the global state when [seed] is
      [None]); the list is a list of objects, shuffled by position *)
  np_random_shuffle : option Z → nat → ∀ A : Type, list A → list A;
  (** [int(round(ConvexHull(pts).volume * math.factorial(dim)))] *)
  convex_hull_volume_scaled : list (list Z) → Z → Z;
  (** [ConvexHull(lifted_points)]: the simplices of its lower facets, the
      ones whose equation has a negative lifting component *)
  qhull_lower_facets : list (list Z) → list F → result (list (list Z));
  (** the program [cgal-triangulate] on the points and heights: its
      parsed standard output, [RuntimeError] on error output or on
      output that does not parse *)
  cgal_triangulate_program : list (list Z) → list F → result (list (list Z));
  (** the program [topcom-points2finetriang --regular] *)
  topcom_points2finetriang : list (list Z) → result (list (list Z));
  (** the program [topcom-points2flips] on the homogenised points and the
      simplices: its return code and its parsed output lines (no line for
      empty output, an exception when a line does not parse) *)
  topcom_points2flips :
    list (list Z) → list (list Z) → bool → Z * result (list (list (list Z)));
  (** [cytools.utils]: [lll_reduce] and [gcd_list] *)
  lll_reduce : list (list Z) → list (list Z);
  gcd_list : list Z → Z;
  (** [flint.fmpz_mat(m).nullspace()[0]], first column, as a list *)
  flint_nullspace : list (list Z) → list Z;
  (** [cytools.polytope.Polytope] *)
  Polytope : Type;
  poly_eq : Polytope → Polytope → bool;                      (* [p == q] *)
  poly_points : Polytope → list (list Z);                    (* [p.points()] *)
  poly_points_which : Polytope → list Z → list (list Z);     (* [p.points(which=labels)] *)
  poly_dim : Polytope → Z;                                   (* [p.dim()] *)
  poly_dim_ambient : Polytope → Z;                           (* [p._dim_ambient] *)
  poly_is_reflexive : Polytope → bool;                       (* [p.is_reflexive()] *)
  poly_points_to_indices : Polytope → list Z → Z;            (* [p.points_to_indices(pt)] *)
  (** [[f.boundary_points() for f in p.facets()]] *)
  poly_facets_boundary_points : Polytope → list (list (list Z));
  (** [[face.points() for face in p.faces(d)]] *)
  poly_faces_points : Polytope → Z → list (list (list Z));
  (** [p.automorphisms(as_dictionary=True)], each dictionary as its items *)
  poly_automorphisms : Polytope → list (list (Z * Z));
  (** [cytools.cone.Cone] *)
  Cone : Type;
  Cone_of_rays : list (list Z) → Cone;                      (* [Cone(rays)] *)
  Cone_of_hyperplanes : list (list Z) → bool → result Cone;  (* [Cone(hyperplanes=h, check=c)] *)
  cone_intersection : Cone → Cone → Cone;                    (* [c.intersection(d)] *)
  cone_is_solid : Cone → option string → bool;               (* [c.is_solid(backend=b)] *)
  (** the height vector handed out by [heights(integral)]: rescaled by
      [gcd_list] and rounded when [integral], then cast *)
  heights_cast : bool → list F → list F;
  (** [np.zeros(n)] as heights *)
  heights_zeros : nat → bool → list F;
  (** [c.find_interior_point(integral=i, backend=b)] *)
  cone_find_interior_point : Cone → bool → option string → result (list F);
  (** [(np.matmul(c.hyperplanes(), heights) < 1e-6).any()] *)
  cone_near_wall : Cone → list F → bool;
  (** [cytools.toricvariety.ToricVariety], built from the triangulation's
      polytope, points and simplices *)
  ToricVariety : Type;
  ToricVariety_of : Polytope → list (list Z) → list (list Z) → ToricVariety;
  (** the built-in [hash] on integers and nested tuples of integers *)
  py_hash : pyobj → Z;
}.

(** ** The object

    The attributes [__init__] and [clear_cache] assign, under their own
    names. *)

Section Model.
Context `{E : Externals}.

Record Triangulation : Type := mkTriangulation {
  _backend : string;
  _pt_labels : list Z;
  _poly : Polytope;
  _simplices : list (list Z);
  _pts : list (list Z);
  _ambient_dim : Z;
  _dim : Z;
  _is_fulldim : bool;
  _pts_optimal : list (list Z);
  _origin_index : Z;
  _pts_dict : gmap (list Z) Z;
  _pts_triang_to_poly : gmap Z Z;
  _heights : option (list F);
  _automorphism_orbit : gmap (option (list Z) * Z) (list (list (list Z)));
  _gkz_phi : option (list Z);
  _hash : option Z;
  _is_fine : option bool;
  _is_regular : option bool;
  _is_star : option bool;
  _is_valid : option bool;
  _secondary_cone : option Cone * option Cone;
  _sr_ideal : option (list (list Z));
  _toricvariety : option ToricVariety;
  _restricted_simplices : gmap Z (list (gset (gset Z)))
}.

Definition set_simplices (v : list (list Z)) (T : Triangulation) : Triangulation :=
  mkTriangulation (_backend T) (_pt_labels T) (_poly T) v (_pts T) (_ambient_dim T) (_dim T) (_is_fulldim T) (_pts_optimal T) (_origin_index T) (_pts_dict T) (_pts_triang_to_poly T) (_heights T) (_automorphism_orbit T) (_gkz_phi T) (_hash T) (_is_fine T) (_is_regular T) (_is_star T) (_is_valid T) (_secondary_cone T) (_sr_ideal T) (_toricvariety T) (_restricted_simplices T).
Definition set_heights (v : option (list F)) (T : Triangulation) : Triangulation :=
  mkTriangulation (_backend T) (_pt_labels T) (_poly T) (_simplices T) (_pts T) (_ambient_dim T) (_dim T) (_is_fulldim T) (_pts_optimal T) (_origin_index T) (_pts_dict T) (_pts_triang_to_poly T) v (_automorphism_orbit T) (_gkz_phi T) (_hash T) (_is_fine T) (_is_regular T) (_is_star T) (_is_valid T) (_secondary_cone T) (_sr_ideal T) (_toricvariety T) (_restricted_simplices T).
Definition set_automorphism_orbit (v : gmap (option (list Z) * Z) (list (list (list Z)))) (T : Triangulation) : Triangulation :=
  mkTriangulation (_backend T) (_pt_labels T) (_poly T) (_simplices T) (_pts T) (_ambient_dim T) (_dim T) (_is_fulldim T) (_pts_optimal T) (_origin_index T) (_pts_dict T) (_pts_triang_to_poly T) (_heights T) v (_gkz_phi T) (_hash T) (_is_fine T) (_is_regular T) (_is_star T) (_is_valid T) (_secondary_cone T) (_sr_ideal T) (_toricvariety T) (_restricted_simplices T).
Definition set_gkz_phi (v : option (list Z)) (T : Triangulation) : Triangulation :=
  mkTriangulation (_backend T) (_pt_labels T) (_poly T) (_simplices T) (_pts T) (_ambient_dim T) (_dim T) (_is_fulldim T) (_pts_optimal T) (_origin_index T) (_pts_dict T) (_pts_triang_to_poly T) (_heights T) (_automorphism_orbit T) v (_hash T) (_is_fine T) (_is_regular T) (_is_star T) (_is_valid T) (_secondary_cone T) (_sr_ideal T) (_toricvariety T) (_restricted_simplices T).
Definition set_hash (v : option Z) (T : Triangulation) : Triangulation :=
  mkTriangulation (_backend T) (_pt_labels T) (_poly T) (_simplices T) (_pts T) (_ambient_dim T) (_dim T) (_is_fulldim T) (_pts_optimal T) (_origin_index T) (_pts_dict T) (_pts_triang_to_poly T) (_heights T) (_automorphism_orbit T) (_gkz_phi T) v (_is_fine T) (_is_regular T) (_is_star T) (_is_valid T) (_secondary_cone T) (_sr_ideal T) (_toricvariety T) (_restricted_simplices T).
Definition set_is_fine (v : option bool) (T : Triangulation) : Triangulation :=
  mkTriangulation (_backend T) (_pt_labels T) (_poly T) (_simplices T) (_pts T) (_ambient_dim T) (_dim T) (_is_fulldim T) (_pts_optimal T) (_origin_index T) (_pts_dict T) (_pts_triang_to_poly T) (_heights T) (_automorphism_orbit T) (_gkz_phi T) (_hash T) v (_is_regular T) (_is_star T) (_is_valid T) (_secondary_cone T) (_sr_ideal T) (_toricvariety T) (_restricted_simplices T).
Definition set_is_regular (v : option bool) (T : Triangulation) : Triangulation :=
  mkTriangulation (_backend T) (_pt_labels T) (_poly T) (_simplices T) (_pts T) (_ambient_dim T) (_dim T) (_is_fulldim T) (_pts_optimal T) (_origin_index T) (_pts_dict T) (_pts_triang_to_poly T) (_heights T) (_automorphism_orbit T) (_gkz_phi T) (_hash T) (_is_fine T) v (_is_star T) (_is_valid T) (_secondary_cone T) (_sr_ideal T) (_toricvariety T) (_restricted_simplices T).
Definition set_is_star (v : option bool) (T : Triangulation) : Triangulation :=
  mkTriangulation (_backend T) (_pt_labels T) (_poly T) (_simplices T) (_pts T) (_ambient_dim T) (_dim T) (_is_fulldim T) (_pts_optimal T) (_origin_index T) (_pts_dict T) (_pts_triang_to_poly T) (_heights T) (_automorphism_orbit T) (_gkz_phi T) (_hash T) (_is_fine T) (_is_regular T) v (_is_valid T) (_secondary_cone T) (_sr_ideal T) (_toricvariety T) (_restricted_simplices T).
Definition set_is_valid (v : option bool) (T : Triangulation) : Triangulation :=
  mkTriangulation (_backend T) (_pt_labels T) (_poly T) (_simplices T) (_pts T) (_ambient_dim T) (_dim T) (_is_fulldim T) (_pts_optimal T) (_origin_index T) (_pts_dict T) (_pts_triang_to_poly T) (_heights T) (_automorphism_orbit T) (_gkz_phi T) (_hash T) (_is_fine T) (_is_regular T) (_is_star T) v (_secondary_cone T) (_sr_ideal T) (_toricvariety T) (_restricted_simplices T).
Definition set_secondary_cone (v : option Cone * option Cone) (T : Triangulation) : Triangulation :=
  mkTriangulation (_backend T) (_pt_labels T) (_poly T) (_simplices T) (_pts T) (_ambient_dim T) (_dim T) (_is_fulldim T) (_pts_optimal T) (_origin_index T) (_pts_dict T) (_pts_triang_to_poly T) (_heights T) (_automorphism_orbit T) (_gkz_phi T) (_hash T) (_is_fine T) (_is_regular T) (_is_star T) (_is_valid T) v (_sr_ideal T) (_toricvariety T) (_restricted_simplices T).
Definition set_sr_ideal (v : option (list (list Z))) (T : Triangulation) : Triangulation :=
  mkTriangulation (_backend T) (_pt_labels T) (_poly T) (_simplices T) (_pts T) (_ambient_dim T) (_dim T) (_is_fulldim T) (_pts_optimal T) (_origin_index T) (_pts_dict T) (_pts_triang_to_poly T) (_heights T) (_automorphism_orbit T) (_gkz_phi T) (_hash T) (_is_fine T) (_is_regular T) (_is_star T) (_is_valid T) (_secondary_cone T) v (_toricvariety T) (_restricted_simplices T).
Definition set_toricvariety (v : option ToricVariety) (T : Triangulation) : Triangulation :=
  mkTriangulation (_backend T) (_pt_labels T) (_poly T) (_simplices T) (_pts T) (_ambient_dim T) (_dim T) (_is_fulldim T) (_pts_optimal T) (_origin_index T) (_pts_dict T) (_pts_triang_to_poly T) (_heights T) (_automorphism_orbit T) (_gkz_phi T) (_hash T) (_is_fine T) (_is_regular T) (_is_star T) (_is_valid T) (_secondary_cone T) (_sr_ideal T) v (_restricted_simplices T).
Definition set_restricted_simplices (v : gmap Z (list (gset (gset Z)))) (T : Triangulation) : Triangulation :=
  mkTriangulation (_backend T) (_pt_labels T) (_poly T) (_simplices T) (_pts T) (_ambient_dim T) (_dim T) (_is_fulldim T) (_pts_optimal T) (_origin_index T) (_pts_dict T) (_pts_triang_to_poly T) (_heights T) (_automorphism_orbit T) (_gkz_phi T) (_hash T) (_is_fine T) (_is_regular T) (_is_star T) (_is_valid T) (_secondary_cone T) (_sr_ideal T) (_toricvariety T) v.

(** [clear_cache()] (without [recursive]): every cached answer is
    forgotten. *)
Definition clear_cache (T : Triangulation) : Triangulation :=
  set_automorphism_orbit ∅ (set_gkz_phi None (set_hash None (set_is_fine None
    (set_is_regular None (set_is_star None (set_is_valid None
       (set_secondary_cone (None, None) (set_sr_ideal None
          (set_toricvariety None (set_restricted_simplices ∅ T)))))))))).

(** ** Getters *)

Definition polytope (T : Triangulation) : Polytope := _poly T.
Definition points (T : Triangulation) : list (list Z) := _pts T.
Definition dim (T : Triangulation) : Z := _dim T.
Definition ambient_dim (T : Triangulation) : Z := poly_dim_ambient (_poly T).
(** [simplices()] with its default arguments: a copy of the array. *)
Definition simplices (T : Triangulation) : list (list Z) := _simplices T.

(** [[list(pt)+[1,] for pt in self._pts_optimal]] *)
Definition pts_ext (T : Triangulation) : list (list Z) :=
  map (λ pt, pt ++ [1]) (_pts_optimal T).

(** What [points_to_indices] returns for a one-dimensional argument: the
    index of the point, or the empty array [np.zeros(0)] when the argument
    has no coordinate at all. *)
Inductive index_or_empty : Type :=
  | Index (i : Z)
  | EmptyArray.

Definition points_to_indices (T : Triangulation) (point : list Z)
  : result index_or_empty :=
  if bool_decide (length point = 0%nat) then Ok EmptyArray
  else match _pts_dict T !! point with
       | Some i => Ok (Index i)
       | None => Raise KeyError
       end.

(** [x in s] for a row [s] of the simplex array.  Against the empty array
    the comparison has no entry (or fails to broadcast), so no row
    contains it. *)
Definition np_contains (s : list Z) (x : index_or_empty) : bool :=
  match x with
  | Index i => bool_decide (i ∈ s)
  | EmptyArray => false
  end.

(** ** [is_fine] *)

Definition is_fine : M Triangulation bool := λ T,
  match _is_fine T with
  | Some b => (Ok b, T)
  | None =>
      match _simplices T with
      | [] => (Raise TypeError, T)        (* [set.union()] without argument *)
      | _ =>
          let N_used_pts := size (⋃ (list_to_set <$> _simplices T) : gset Z) in
          let b := bool_decide (N_used_pts = length (_pts T)) in
          (Ok b, set_is_fine (Some b) T)
      end
  end.

(** ** [is_star] *)

Definition is_star (star_origin : option Z) : M Triangulation bool := λ T,
  match star_origin with
  | Some o => (Ok (forallb (λ s, bool_decide (o ∈ s)) (_simplices T)), T)
  | None =>
      match _is_star T with
      | Some b => (Ok b, T)
      | None =>
          let b :=
            match points_to_indices T (replicate (Z.to_nat (dim T)) 0) with
            | Ok star_origin => forallb (λ s, np_contains s star_origin) (_simplices T)
            | _ => false                (* the bare [except:] *)
            end in
          (Ok b, set_is_star (Some b) T)
      end
  end.

(** ** [get_toric_variety] *)

Definition msg_tv_fulldim : string :=
  "Toric varieties can only be constructed from full-dimensional triangulations.".
Definition msg_tv_star : string :=
  "Toric varieties can only be constructed from star triangulations.".

Definition get_toric_variety : M Triangulation ToricVariety := λ T,
  match _toricvariety T with
  | Some tv => (Ok tv, T)
  | None =>
      if negb (_is_fulldim T) then (Raise (NotImplementedError msg_tv_fulldim), T)
      else
        (star ← is_star None;
         if negb star then raise (NotImplementedError msg_tv_star)
         else
           T' ← get;
           let tv := ToricVariety_of (_poly T') (_pts T') (_simplices T') in
           modify (set_toricvariety (Some tv));;
           mret tv) T
  end.

(** ** [gkz_phi] *)

(** The volume [int(round(abs(np.linalg.det([pts_ext[i] for i in s]))))]
    of the simplex [s]. *)
Definition simp_vol (pts_ext : list (list Z)) (s : list Z) : result Z :=
  result_bind (result_mapM (py_getitem pts_ext) s)
    (λ rows, Ok (py_round (f_abs (np_linalg_det rows)))).

(** [for i in s: phi[i] += simp_vol] *)
Fixpoint gkz_add (phi : list Z) (s : list Z) (v : Z) : result (list Z) :=
  match s with
  | [] => Ok phi
  | i :: s' => result_bind (np_iadd phi i v) (λ phi', gkz_add phi' s' v)
  end.

(** The loop over the simplices. *)
Fixpoint gkz_loop (pts_ext : list (list Z)) (simps : list (list Z))
    (phi : list Z) : result (list Z) :=
  match simps with
  | [] => Ok phi
  | s :: simps' =>
      result_bind (simp_vol pts_ext s) (λ v,
      result_bind (gkz_add phi s v) (λ phi',
      gkz_loop pts_ext simps' phi'))
  end.

Definition gkz_phi : M Triangulation (list Z) := λ T,
  match _gkz_phi T with
  | Some phi => (Ok phi, T)
  | None =>
      let pe := pts_ext T in
      match gkz_loop pe (_simplices T) (replicate (length pe) 0) with
      | Ok phi => (Ok phi, set_gkz_phi (Some phi) T)
      | r => (r, T)
      end
  end.

(** ** [sr_ideal] *)

Definition msg_sr : string :=
  "SR ideals can only be computed for full-dimensional star triangulations.".

(** [simplex_tuples]: entry [dd - 1] is the set of the [dd]-subsets of the
    simplices (origin removed), for [dd] in [range(1, dim + 1)]. *)
Definition tuples_of_size (simps : list (list Z)) (dd : nat) : gset (gset Z) :=
  ⋃ ((λ s, list_to_set (list_to_set <$> combinations s dd)) <$> simps).
Definition simplex_tuples (simps : list (list Z)) (d : Z)
  : list (gset (gset Z)) :=
  tuples_of_size simps <$> seq 1 (Z.to_nat d).

(** The search, through the orders [range(1, i + 1)], for a generator
    [frozenset(t + (j,))] with [t] drawn from [tup]. *)
Definition in_SR (SR_ideal : gset (gset Z)) (tup : gset Z) (j : Z) (i : nat)
  : bool :=
  existsb (λ order,
    existsb (λ t, bool_decide (list_to_set (t ++ [j]) ∈ SR_ideal))
      (combinations (elements tup) order))
    (seq 1 i).

(** The body of [for j in points], on the pair [(SR_ideal, checked)]. *)
Definition sr_visit (next_tuples : gset (gset Z)) (i : nat) (tup : gset Z)
    (st : gset (gset Z) * gset (gset Z)) (j : Z)
  : gset (gset Z) * gset (gset Z) :=
  let '(SR_ideal, checked) := st in
  let k := tup ∪ {[j]} in
  if bool_decide (k ∈ checked) || negb (bool_decide (size k = S (size tup)))
  then st
  else
    let checked := {[k]} ∪ checked in
    if bool_decide (k ∈ next_tuples) then (SR_ideal, checked)
    else if in_SR SR_ideal tup j i then (SR_ideal, checked)
    else ({[k]} ∪ SR_ideal, checked).

(** [for tup in simplex_tuples[i]: for j in points: ...] *)
Definition sr_level (points : gset Z) (tuples next_tuples : gset (gset Z))
    (i : nat) (st : gset (gset Z) * gset (gset Z))
  : gset (gset Z) * gset (gset Z) :=
  foldl (λ st tup, foldl (sr_visit next_tuples i tup) st (elements points))
    st (elements tuples).

(** [for i in range(len(simplex_tuples) - 1): ...] *)
Definition sr_levels (points : gset Z) (st_tuples : list (gset (gset Z)))
  : gset (gset Z) * gset (gset Z) :=
  foldl (λ st i,
           match st_tuples !! i, st_tuples !! S i with
           | Some tuples, Some next_tuples =>
               sr_level points tuples next_tuples i st
           | _, _ => st
           end)
    (∅, ∅) (seq 0 (length st_tuples - 1)).

(** The generators in their returned form: each one a sorted tuple, the
    whole ordered by length and then lexicographically. *)
Definition sr_output (SR_ideal : gset (gset Z)) : list (list Z) :=
  merge_sort len_then_tuple_le ((λ s, sorted_ints (elements s)) <$> elements SR_ideal).

Definition sr_compute (T : Triangulation) : list (list Z) :=
  let points : gset Z :=
    list_to_set (Z.of_nat <$> seq 0 (length (_pts T))) ∖ {[_origin_index T]} in
  let simps :=
    (λ s, filter (λ i, i ≠ _origin_index T) s) <$> simplices T in
  sr_output (sr_levels points (simplex_tuples simps (dim T))).1.

Definition sr_ideal : M Triangulation (list (list Z)) := λ T,
  match _sr_ideal T with
  | Some sr => (Ok sr, T)
  | None =>
      (star ← is_star None;
       T' ← get;
       if negb star || negb (_is_fulldim T') then raise (NotImplementedError msg_sr)
       else
         let sr := sr_compute T' in
         modify (set_sr_ideal (Some sr));;
         mret sr) T
  end.

(** ** [__eq__], [__ne__], [__hash__] *)

Definition __eq__ (self other : Triangulation) : bool :=
  let our_simps := sorted_tuples (simplices self) in
  let other_simps := sorted_tuples (simplices other) in
  poly_eq (polytope self) (polytope other)
  && bool_decide (our_simps = other_simps).

Definition __ne__ (self other : Triangulation) : bool :=
  negb (__eq__ self other).

Definition py_tuple (v : list Z) : pyobj := PyTuple (PyInt <$> v).

Definition hash_value (T : Triangulation) : Z :=
  let pt_hash := py_hash (PyTuple (py_tuple <$> sorted_tuples (points T))) in
  let simps := py_tuple <$> sorted_tuples (sorted_ints <$> simplices T) in
  py_hash (PyTuple (PyInt pt_hash :: simps)).

Definition __hash__ : M Triangulation Z := λ T,
  match _hash T with
  | Some h => (Ok h, T)
  | None => let h := hash_value T in (Ok h, set_hash (Some h) T)
  end.

(** ** [_to_star] *)

Definition _to_star : M Triangulation unit := λ triang,
  if negb (poly_is_reflexive (_poly triang)) then (Raise AssertionError, triang)
  else
    (facets ← lift (result_mapM (result_mapM (dict_getitem (_pts_dict triang)))
                      (poly_facets_boundary_points (_poly triang)));
     s0 ← lift (py_getitem (_simplices triang) 0);
     let d := Z.of_nat (length s0) - 1 in
     let star_triang :=
       facet ← facets;
       simp ← _simplices triang;
       let overlap := filter (λ x, x ∈ facet) simp in
       if bool_decide (Z.of_nat (length overlap) = d)
       then [_origin_index triang :: overlap] else [] in
     modify (set_simplices (canonical_simplices star_triang))) triang.

(** ** The three triangulation back-ends *)

Definition _qhull_triangulate (points : list (list Z)) (heights : list F)
  : result (list (list Z)) :=
  if bool_decide (length heights < length points)%nat then Raise IndexError
  else
    hull ← qhull_lower_facets points heights;
    let lifted_points := (λ pt, pt ++ [1]) <$> points in
    simp ← result_filterM
              (λ s, rows ← result_mapM (py_getitem lifted_points) s;
                    Ok (negb (py_round (np_linalg_det rows) =? 0)))
              hull;
    Ok (canonical_simplices simp).

Definition _cgal_triangulate (points : list (list Z)) (heights : list F)
  : result (list (list Z)) :=
  simp ← cgal_triangulate_program points heights;
  Ok (canonical_simplices simp).

Definition _topcom_triangulate (points : list (list Z))
  : result (list (list Z)) :=
  simp ← topcom_points2finetriang points;
  Ok (canonical_simplices simp).

(** ** [secondary_cone], [is_regular], [heights], [check_heights]

    [secondary_cone] reaches [neighbor_triangulations] on its TOPCOM path,
    which builds new objects and asks them whether they are regular.  The
    bodies below take what they call on other objects as a parameter; the
    methods themselves are obtained further down by closing the loop. *)

(** The matrix [m], kept as the list of its columns. *)
Definition np_set_col (m : list (list Z)) (nrows : nat) (j : Z) (col : list Z)
  : result (list (list Z)) :=
  n ← norm_index (length m) j;
  if bool_decide (length col = nrows) then Ok (<[n := col]> m)
  else if bool_decide (length col = 1%nat)
       then Ok (<[n := replicate nrows (default 0 (head col))]> m)
       else Raise (ValueError "could not broadcast input array").

Definition cols_to_rows (nrows : nat) (m : list (list Z)) : list (list Z) :=
  (λ i, (λ col, default 0 (col !! i)) <$> m) <$> seq 0 nrows.

(** [for j,pt in enumerate(pts): m[:,j+off] = pts_ext[pt]] *)
Fixpoint fill_cols (pe : list (list Z)) (nrows : nat) (m : list (list Z))
    (j : Z) (pts : list Z) : result (list (list Z)) :=
  match pts with
  | [] => Ok m
  | pt :: pts' =>
      col ← py_getitem pe pt;
      m' ← np_set_col m nrows j col;
      fill_cols pe nrows m' (j + 1) pts'
  end.

(** [for i,pt in enumerate(pts): full_v[pt] = v[i+off]] *)
Fixpoint scatter (v : list Z) (full_v : list Z) (i : Z) (pts : list Z)
  : result (list Z) :=
  match pts with
  | [] => Ok full_v
  | pt :: pts' =>
      x ← py_getitem v i;
      full_v' ← np_setitem full_v pt x;
      scatter v full_v' (i + 1) pts'
  end.

(** [for i,pt in enumerate(pts): full_v[pt] = 0] *)
Fixpoint unscatter (full_v : list Z) (pts : list Z) : result (list Z) :=
  match pts with
  | [] => Ok full_v
  | pt :: pts' => full_v' ← np_setitem full_v pt 0; unscatter full_v' pts'
  end.

(** [if self.is_star(): full_v[star_origin] = v[-1]] *)
Definition set_star_entry (star_origin : option Z) (v full_v : list Z)
  : result (list Z) :=
  match star_origin with
  | Some o => x ← py_getitem v (-1); np_setitem full_v o x
  | None => Ok full_v
  end.

(** The loop state: the matrix, the scratch vector and the normals found. *)
Definition wall_state : Type := list (list Z) * list Z * gset (list Z).

(** The body of the double loop over [s1], [s2]. *)
Definition wall (pe : list (list Z)) (nrows : nat) (d : Z)
    (star_origin : option Z) (st : wall_state) (s1 s2 : gset Z)
  : result wall_state :=
  let '(m, full_v, null_vecs) := st in
  let comm_pts := s1 ∩ s2 in
  if negb (bool_decide (Z.of_nat (size comm_pts) = d)) then Ok st
  else
    let diff_pts := elements ((s1 ∖ s2) ∪ (s2 ∖ s1)) in
    let comm_pts := elements comm_pts in
    m ← fill_cols pe nrows m 0 diff_pts;
    m ← fill_cols pe nrows m 2 comm_pts;
    let v := flint_nullspace (cols_to_rows nrows m) in
    v0 ← py_getitem v 0;
    let v := if bool_decide (v0 < 0) then Z.opp <$> v else v in
    let g := gcd_list v in
    let v := if negb (bool_decide (g = 1)) then (λ x, x `div` g) <$> v else v in
    full_v ← scatter v full_v 0 diff_pts;
    full_v ← scatter v full_v 2 comm_pts;
    full_v ← set_star_entry star_origin v full_v;
    let null_vecs := {[full_v]} ∪ null_vecs in
    full_v ← unscatter full_v diff_pts;
    full_v ← unscatter full_v comm_pts;
    full_v ← set_star_entry star_origin v full_v;
    Ok (m, full_v, null_vecs).

(** [for s2 in simps[i+1:]] *)
Fixpoint walls_with (pe : list (list Z)) (nrows : nat) (d : Z)
    (star_origin : option Z) (st : wall_state) (s1 : gset Z)
    (rest : list (gset Z)) : result wall_state :=
  match rest with
  | [] => Ok st
  | s2 :: rest' =>
      st' ← wall pe nrows d star_origin st s1 s2;
      walls_with pe nrows d star_origin st' s1 rest'
  end.

(** [for i,s1 in enumerate(simps)] *)
Fixpoint walls (pe : list (list Z)) (nrows : nat) (d : Z)
    (star_origin : option Z) (st : wall_state) (simps : list (gset Z))
  : result wall_state :=
  match simps with
  | [] => Ok st
  | s1 :: rest =>
      st' ← walls_with pe nrows d star_origin st s1 rest;
      walls pe nrows d star_origin st' rest
  end.

(** The native computation of the hyperplanes. *)
Definition native_hyperplanes : M Triangulation (list (list Z)) :=
  T ← get;
  let pe := pts_ext T in
  if bool_decide (dim T + 1 < 0) then raise (ValueError "negative dimensions are not allowed")
  else
    let nrows := Z.to_nat (dim T + 1) in
    let m := replicate (Z.to_nat (dim T + 2)) (replicate nrows 0) in
    let full_v := replicate (length pe) 0 in
    star ← is_star None;
    '(simps, d, star_origin, m) ←
      (if star : bool then
         o ← lift (points_to_indices T (replicate (Z.to_nat (dim T)) 0));
         match o with
         | EmptyArray => raise TypeError          (* an array in a set *)
         | Index star_origin =>
             col ← lift (py_getitem pe star_origin);
             m ← lift (np_set_col m nrows (-1) col);
             mret ((λ s, list_to_set s ∖ {[star_origin]}) <$> _simplices T,
                   dim T - 1, Some star_origin, m)
         end
       else
         mret (list_to_set <$> _simplices T, dim T, None, m));
    st ← lift (walls pe nrows d star_origin (m, full_v, ∅) simps);
    mret (elements st.2).

Definition get_cone_slot (include : bool) (T : Triangulation) : option Cone :=
  if include then (_secondary_cone T).2 else (_secondary_cone T).1.
Definition set_cone_slot (include : bool) (c : Cone) (T : Triangulation)
  : Triangulation :=
  if include then set_secondary_cone ((_secondary_cone T).1, Some c) T
  else set_secondary_cone (Some c, (_secondary_cone T).2) T.

(** [a - b] on arrays of one length. *)
Definition np_sub (a b : list Z) : result (list Z) :=
  if bool_decide (length a = length b) then Ok (zip_with Z.sub a b)
  else Raise (ValueError "operands could not be broadcast together").

Section Bodies.

(** [t.neighbor_triangulations(only_fine, only_regular, only_star, backend,
    verbose)] and the constructor, as called on and for other objects. *)
Variable neighbor_triangulations_rec :
  bool → bool → bool → option string → bool → M Triangulation (list Triangulation).

(** [for t in neighbors: diffs.append(t.gkz_phi() - gkz_phi)] *)
Fixpoint gkz_diffs (phi : list Z) (ts : list Triangulation)
  : result (list (list Z)) :=
  match ts with
  | [] => Ok []
  | t :: ts' =>
      phi_t ← (gkz_phi t).1;
      d ← np_sub phi_t phi;
      ds ← gkz_diffs phi ts';
      Ok (d :: ds)
  end.

Definition secondary_cone_body (backend : option string)
    (include_points_not_in_triangulation : bool) : M Triangulation Cone :=
  if negb (bool_decide (backend ∈ [None; Some "native"; Some "topcom"]))
  then raise (ValueError "Options for backend are: (None, 'native', 'topcom')")
  else
    backend ←
      (match backend with
       | None =>
           fine ← is_fine;
           mret (if fine || negb include_points_not_in_triangulation
                 then "native" else "topcom")
       | Some b => mret b
       end);
    backend ←
      (if String.eqb backend "native" then
         fine ← is_fine;
         mret (if negb fine && include_points_not_in_triangulation
               then "topcom" else backend)
       else mret backend);
    T ← get;
    match get_cone_slot include_points_not_in_triangulation T with
    | Some c => mret c
    | None =>
        if String.eqb backend "native" then
          null_vecs ← native_hyperplanes;
          c ← lift (Cone_of_hyperplanes null_vecs false);
          modify (set_cone_slot include_points_not_in_triangulation c);;
          mret c
        else
          phi ← gkz_phi;
          ts ← neighbor_triangulations_rec false false false None false;
          diffs ← lift (gkz_diffs phi ts);
          c ← lift (Cone_of_hyperplanes diffs true);
          modify (set_cone_slot include_points_not_in_triangulation c);;
          mret c
    end.

Definition is_regular_body (backend : option string) : M Triangulation bool :=
  T ← get;
  match _is_regular T with
  | Some b => mret b
  | None =>
      if bool_decide (length (simplices T) = 1%nat) then
        modify (set_is_regular (Some true));; mret true
      else
        C ← secondary_cone_body None false;
        let b := cone_is_solid C backend in
        modify (set_is_regular (Some b));; mret b
  end.

Definition heights_body (integral : bool) (backend : option string)
  : M Triangulation (list F) :=
  T ← get;
  match _heights T with
  | Some h => mret (heights_cast integral h)
  | None =>
      let Npts := length (_pts T) in
      trivial ←
        (if bool_decide (length (_simplices T) = 1%nat) then
           k ← lift (shape1 (_simplices T));
           mret (bool_decide (k = Z.of_nat Npts))
         else mret false);
      if trivial : bool then
        let h := heights_zeros Npts integral in
        modify (set_heights (Some h));; mret h
      else
        C ← secondary_cone_body None true;
        h ← lift (cone_find_interior_point C integral backend);
        modify (set_heights (Some h));; mret h
  end.

Definition check_heights_body (verbosity : Z) : M Triangulation unit :=
  C ← secondary_cone_body None true;
  T ← get;
  match _heights T with
  | None => raise TypeError
  | Some h =>
      if cone_near_wall C h then modify (set_heights None) else mret tt
  end.

End Bodies.

(** ** The constructor's arguments *)

Record init_args : Type := mk_init_args {
  arg_poly : Polytope;
  arg_pts : list Z;
  arg_heights : option (list F);
  arg_make_star : bool;
  arg_simplices : option (list (list Z));
  arg_check_input_simplices : bool;
  arg_check_heights : bool;
  arg_backend : option string;
  arg_verbosity : Z
}.

(** [Triangulation(poly, pts)] with every keyword at its default. *)
Definition default_args (poly : Polytope) (pts : list Z) : init_args :=
  {| arg_poly := poly; arg_pts := pts; arg_heights := None;
     arg_make_star := false; arg_simplices := None;
     arg_check_input_simplices := true; arg_check_heights := true;
     arg_backend := Some "cgal"; arg_verbosity := 1 |}.

(** [Triangulation(poly, pts, simplices=t, check_input_simplices=False)] *)
Definition args_from_simplices (poly : Polytope) (pts : list Z)
    (t : list (list Z)) : init_args :=
  {| arg_poly := poly; arg_pts := pts; arg_heights := None;
     arg_make_star := false; arg_simplices := Some t;
     arg_check_input_simplices := false; arg_check_heights := true;
     arg_backend := Some "cgal"; arg_verbosity := 1 |}.

(** [Triangulation(poly, pts, heights=h, make_star=False)] *)
Definition args_from_heights (poly : Polytope) (pts : list Z) (h : list F)
  : init_args :=
  {| arg_poly := poly; arg_pts := pts; arg_heights := Some h;
     arg_make_star := false; arg_simplices := None;
     arg_check_input_simplices := true; arg_check_heights := true;
     arg_backend := Some "cgal"; arg_verbosity := 1 |}.

(** ** The filters of the flip routines

    [if only_fine and (not t.is_fine()): continue], then the same for
    star and regular, in this order; [True] when [t] is kept. *)
Definition passes_filters (is_regular_of : option string → M Triangulation bool)
    (only_fine only_star only_regular : bool) (backend : option string)
  : M Triangulation bool :=
  fine_ok ← (if only_fine then is_fine else mret true);
  if negb fine_ok then mret false
  else
    star_ok ← (if only_star then is_star None else mret true);
    if negb star_ok then mret false
    else if only_regular then is_regular_of backend else mret true.

Section FlipBodies.

Variable Triangulation_rec : init_args → result Triangulation.
Variable is_regular_rec : option string → M Triangulation bool.

(** Build the candidate, filter it, keep it with what the filters cached. *)
Definition candidate (poly : Polytope) (pt_labels : list Z)
    (only_fine only_star only_regular : bool) (backend : option string)
    (t : list (list Z)) : result (option Triangulation) :=
  tri ← Triangulation_rec (args_from_simplices poly pt_labels t);
  match passes_filters is_regular_rec only_fine only_star only_regular backend tri with
  | (Ok true, tri') => Ok (Some tri')
  | (Ok false, _) => Ok None
  | (Raise e, _) => Raise e
  | (OutOfFuel, _) => OutOfFuel
  end.

(** [for t in triangs_list: ...] of [neighbor_triangulations] *)
Fixpoint parse_neighbors (poly : Polytope) (pt_labels : list Z) (d : Z)
    (only_fine only_star only_regular : bool) (backend : option string)
    (triangs_list : list (list (list Z))) : result (list Triangulation) :=
  match triangs_list with
  | [] => Ok []
  | t :: rest =>
      if negb (forallb (λ s, bool_decide (Z.of_nat (length s) = d + 1)) t)
      then parse_neighbors poly pt_labels d only_fine only_star only_regular backend rest
      else
        tri ← candidate poly pt_labels only_fine only_star only_regular backend t;
        triangs ← parse_neighbors poly pt_labels d only_fine only_star only_regular backend rest;
        Ok (match tri with Some tri => tri :: triangs | None => triangs end)
  end.

(** [sum(map(lambda ind: self._pts[ind], inds))]; the empty sum is the
    integer [0], kept as the empty vector. *)
Definition vec_sum (rows : list (list Z)) : list Z :=
  match rows with
  | [] => []
  | r :: rows' => foldl (zip_with Z.add) r rows'
  end.

(** [(a != b).any()] *)
Definition np_ne_any (a b : list Z) : bool :=
  match a, b with
  | [], _ => existsb (λ x, negb (x =? 0)) b
  | _, [] => existsb (λ x, negb (x =? 0)) a
  | _, _ => existsb (λ xy, negb (xy.1 =? xy.2)) (zip a b)
  end.

(** [a[i] = row] on a two-dimensional array. *)
Definition np_set_row (a : list (list Z)) (i : nat) (row : list Z)
  : result (list (list Z)) :=
  match a !! i with
  | None => Raise IndexError
  | Some old =>
      if bool_decide (length row = length old) then Ok (<[i := row]> a)
      else if bool_decide (length row = 1%nat)
           then Ok (<[i := replicate (length old) (default 0 (head row))]> a)
           else Raise (ValueError "could not broadcast input array")
  end.

(** The body of the double loop of [_fine_neighbors_2d] at the pair
    [(i, s1)], [(j, s2)]. *)
Definition flip_pair (T : Triangulation) (only_regular only_star : bool)
    (backend : option string) (i j : nat) (s1 s2 : gset Z)
  : result (option Triangulation) :=
  let inter := s1 ∩ s2 in
  if negb (bool_decide (size inter = 2%nat)) then Ok None
  else
    let other := (s1 ∪ s2) ∖ inter in
    rows_inter ← result_mapM (py_getitem (_pts T)) (elements inter);
    rows_other ← result_mapM (py_getitem (_pts T)) (elements other);
    if np_ne_any (vec_sum rows_inter) (vec_sum rows_other) then Ok None
    else
      let flipped := (λ p, sorted_ints (elements (other ∪ {[p]}))) <$> elements inter in
      f0 ← py_getitem flipped 0;
      new_simps ← np_set_row (_simplices T) i f0;
      f1 ← py_getitem flipped 1;
      new_simps ← np_set_row new_simps j f1;
      candidate (_poly T) (_pt_labels T) false only_star only_regular backend new_simps.

(** [for _j,s2 in enumerate(simps_set[i+1:])] *)
Fixpoint flips_with (T : Triangulation) (only_regular only_star : bool)
    (backend : option string) (i j : nat) (s1 : gset Z) (rest : list (gset Z))
  : result (list Triangulation) :=
  match rest with
  | [] => Ok []
  | s2 :: rest' =>
      tri ← flip_pair T only_regular only_star backend i j s1 s2;
      triangs ← flips_with T only_regular only_star backend i (S j) s1 rest';
      Ok (match tri with Some tri => tri :: triangs | None => triangs end)
  end.

(** [for i,s1 in enumerate(simps_set)] *)
Fixpoint flips_from (T : Triangulation) (only_regular only_star : bool)
    (backend : option string) (i : nat) (simps_set : list (gset Z))
  : result (list Triangulation) :=
  match simps_set with
  | [] => Ok []
  | s1 :: rest =>
      here ← flips_with T only_regular only_star backend i (S i) s1 rest;
      later ← flips_from T only_regular only_star backend (S i) rest;
      Ok (here ++ later)
  end.

Definition _fine_neighbors_2d_body (only_regular only_star : bool)
    (backend : option string) : M Triangulation (list Triangulation) :=
  T ← get;
  lift (flips_from T only_regular only_star backend 0
          (list_to_set <$> _simplices T)).

Definition neighbor_triangulations_body
    (only_fine only_regular only_star : bool) (backend : option string)
    (verbose : bool) : M Triangulation (list Triangulation) :=
  T ← get;
  if bool_decide (length (simplices T) = 1%nat) then mret []   (* with a warning *)
  else
    fine ← is_fine;
    if fine && bool_decide (dim T = 2) && only_fine
    then _fine_neighbors_2d_body false false None
    else
      T ← get;
      let '(returncode, topcom_res) :=
        topcom_points2flips (pts_ext T) (_simplices T) verbose in
      if negb (bool_decide (returncode = 0)) then mret []
      else
        triangs_list ← lift topcom_res;
        lift (parse_neighbors (_poly T) (_pt_labels T) (dim T)
                only_fine only_star only_regular backend triangs_list).

End FlipBodies.

(** ** [is_valid] *)

(** [pts_ext[s]] with [pts_ext] a Python list and [s] a row of the simplex
    array: a list takes an integer or a slice, and numpy only turns arrays
    without dimension into an integer. *)
Definition list_getitem_ndarray {A} (l : list A) (s : list Z) : result (list A) :=
  Raise TypeError.

(** The first loop: [None] as soon as a simplex has no volume, the sum of
    the volumes otherwise. *)
Fixpoint volume_sum (pe : list (list Z)) (simps : list (list Z)) (v : Z)
  : result (option Z) :=
  match simps with
  | [] => Ok (Some v)
  | s :: simps' =>
      rows ← result_mapM (py_getitem pe) s;
      let tmp_v := Z.abs (py_round (np_linalg_det rows)) in
      if bool_decide (tmp_v = 0) then Ok None
      else volume_sum pe simps' (v + tmp_v)
  end.

(** [for s2 in simps[i+1:]]: [true] when a solid intersection is found. *)
Fixpoint solid_with (pe : list (list Z)) (s1 : list Z) (rest : list (list Z))
  : result bool :=
  match rest with
  | [] => Ok false
  | s2 :: rest' =>
      rays1 ← list_getitem_ndarray pe s1;
      rays2 ← list_getitem_ndarray pe s2;
      let inters := cone_intersection (Cone_of_rays rays1) (Cone_of_rays rays2) in
      if cone_is_solid inters None then Ok true
      else solid_with pe s1 rest'
  end.

(** [for i,s1 in enumerate(simps)] *)
Fixpoint solid_intersection (pe : list (list Z)) (simps : list (list Z))
  : result bool :=
  match simps with
  | [] => Ok false
  | s1 :: rest =>
      found ← solid_with pe s1 rest;
      if found : bool then Ok true else solid_intersection pe rest
  end.

Section ValidBody.

Variable Triangulation_rec : init_args → result Triangulation.
Variable neighbor_triangulations_rec :
  bool → bool → bool → option string → bool → M Triangulation (list Triangulation).

Definition set_and_return_valid (b : bool) : M Triangulation bool :=
  modify (set_is_valid (Some b));; mret b.

Definition is_valid_body (backend : option string) : M Triangulation bool :=
  T ← get;
  match _is_valid T with
  | Some b => mret b
  | None =>
      let simps := simplices T in
      if bool_decide (length simps = 1%nat) then set_and_return_valid true
      else
        regular ← is_regular_body neighbor_triangulations_rec backend;
        if regular : bool then
          h ← heights_body neighbor_triangulations_rec false None;
          T ← get;
          tmp_triang ← lift (Triangulation_rec
                               (args_from_heights (polytope T) (_pt_labels T) h));
          let simps1 := canonical_simplices (simplices T) in
          let simps2 := canonical_simplices (simplices tmp_triang) in
          set_and_return_valid (bool_decide (simps1 = simps2))
        else
          T ← get;
          let pts := _pts_optimal T in
          let pe := pts_ext T in
          v ← lift (volume_sum pe simps 0);
          match v with
          | None => set_and_return_valid false
          | Some v =>
              let poly_vol := convex_hull_volume_scaled pts (_dim T) in
              if negb (bool_decide (v = poly_vol)) then set_and_return_valid false
              else
                solid ← lift (solid_intersection pe simps);
                if solid : bool then set_and_return_valid false
                else set_and_return_valid true
          end
  end.

End ValidBody.

(** ** [__init__] *)

Definition msg_backend : string :=
  "Invalid backend. Options: ['qhull', 'cgal', 'topcom', None].".
Definition msg_points : string := "Need at least 1 point.".
Definition msg_dim : string :=
  "Dimension of simplices doesn't match polytope dimension (+1)...".
Definition msg_index : string := "A simplex had index out of range".
Definition msg_invalid : string := "Simplices don't form valid triangulation.".
Definition msg_heights : string := "Need same number of heights as points.".

(** The object as it stands after [clear_cache()] and the assignments of
    the attributes that do not depend on how the simplices are obtained. *)
Definition new_object (backend : string) (pt_labels : list Z) (poly : Polytope)
    (simplices pts : list (list Z)) (ambient_dim d : Z) (is_fulldim : bool)
    (pts_optimal : list (list Z)) (origin_index : Z)
    (pts_dict : gmap (list Z) Z) (pts_triang_to_poly : gmap Z Z)
    (heights : option (list F)) : Triangulation :=
  mkTriangulation backend pt_labels poly simplices pts ambient_dim d is_fulldim
    pts_optimal origin_index pts_dict pts_triang_to_poly heights
    ∅ None None None None None None (None, None) None None ∅.

(** [enumerate(l)] *)
Definition enumerate {A} (l : list A) : list (Z * A) :=
  zip (Z.of_nat <$> seq 0 (length l)) l.

(** [{pt:i for i, pt in enumerate(pts_tup)}] *)
Definition pts_dict_of (pts_tup : list (list Z)) : gmap (list Z) Z :=
  foldl (λ d ip, <[ip.2 := ip.1]> d) ∅ (enumerate pts_tup).

(** [{i:poly.points_to_indices(pt) for i, pt in enumerate(pts)}] *)
Definition pts_triang_to_poly_of (poly : Polytope) (pts : list (list Z))
  : gmap Z Z :=
  foldl (λ d ip, <[ip.1 := poly_points_to_indices poly ip.2]> d) ∅ (enumerate pts).

(** [min(l)] and [max(l)] *)
Definition list_min (l : list Z) : result Z :=
  match l with
  | [] => Raise (ValueError "min() arg is an empty sequence")
  | x :: l' => Ok (foldl Z.min x l')
  end.
Definition list_max (l : list Z) : result Z :=
  match l with
  | [] => Raise (ValueError "max() arg is an empty sequence")
  | x :: l' => Ok (foldl Z.max x l')
  end.
Definition f_list_min (l : list F) : result F :=
  match l with
  | [] => Raise (ValueError "min() arg is an empty sequence")
  | x :: l' => Ok (foldl f_min x l')
  end.
Definition f_list_max (l : list F) : result F :=
  match l with
  | [] => Raise (ValueError "max() arg is an empty sequence")
  | x :: l' => Ok (foldl f_max x l')
  end.

(** The basic checks on user-supplied simplices. *)
Definition check_indices (simps : list (list Z)) (npts : nat) : result unit :=
  let simp_inds := elements (list_to_set (concat simps) : gset Z) in
  lo ← list_min simp_inds;
  if bool_decide (lo < 0) then Raise (ValueError msg_index)
  else
    hi ← list_max simp_inds;
    if bool_decide (Z.of_nat npts ≤ hi) then Raise (ValueError msg_index)
    else Ok tt.

(** [a[:,0]] of the simplex array *)
Definition column0 (a : list (list Z)) : result (list Z) :=
  match a with
  | [] => Raise IndexError
  | _ => result_mapM (λ r, match r with [] => Raise IndexError | x :: _ => Ok x end) a
  end.

(** [while self._simplices[:,0].any(): ...], followed for at most [fuel]
    rounds. *)
Fixpoint cgal_star_loop (fuel : nat) (pts_optimal : list (list Z))
    (origin_step : F) (heights : list F) (simps : list (list Z))
  : result (list F * list (list Z)) :=
  col ← column0 simps;
  if negb (existsb (λ x, negb (x =? 0)) col) then Ok (heights, simps)
  else
    match fuel with
    | O => OutOfFuel
    | S fuel' =>
        h0 ← py_getitem heights 0;
        let heights := <[0%nat := f_sub h0 origin_step]> heights in
        simps ← _cgal_triangulate pts_optimal heights;
        cgal_star_loop fuel' pts_optimal origin_step heights simps
    end.

(** Run a sequence of method calls on the object under construction. *)
Definition run_init {A} (m : M Triangulation A) (T : Triangulation)
  : result Triangulation :=
  match m T with
  | (Ok _, T') => Ok T'
  | (Raise e, _) => Raise e
  | (OutOfFuel, _) => OutOfFuel
  end.

Section InitBody.

(** [self.check_heights(verbosity)] and [self.is_valid()], which in turn
    construct objects. *)
Variable check_heights_rec : Z → M Triangulation unit.
Variable is_valid_rec : option string → M Triangulation bool.

(** The branch [if self._simplices is not None]: the dimension check, the
    basic checks on the indices, star-ification and the validity check. *)
Definition init_from_simplices (check_input_simplices make_star : bool)
    (npts : nat) (d : Z)
    (object : list (list Z) → option (list F) → Triangulation)
    (simps : list (list Z)) : result Triangulation :=
  k ← shape1 simps;
  if negb (bool_decide (k = d + 1)) then Raise (ValueError msg_dim)
  else
    (if check_input_simplices then check_indices simps npts else Ok tt);;
    run_init
      ((if make_star then _to_star else mret tt);;
       (if check_input_simplices then
          valid ← is_valid_rec None;
          if negb valid then raise (ValueError msg_invalid) else mret tt
        else mret tt))
      (object simps None).

(** The [else] branch: heights, the back-end, star-ification and the check
    of the heights. *)
Definition init_from_heights (fuel : nat) (backend : string)
    (heights : option (list F)) (nlabels : nat) (make_star check_heights : bool)
    (verbosity : Z) (origin_index : Z) (pts pts_optimal : list (list Z))
    (object : list (list Z) → option (list F) → Triangulation)
  : result Triangulation :=
  let qhull := String.eqb backend "qhull" in
  let cgal := String.eqb backend "cgal" in
  let preset := λ T,
    set_is_valid (Some true)
      (set_is_regular (if qhull then None else Some true) T) in
  let default_triang :=
    match heights with None => true | Some _ => false end in
  heights ← (match heights with
             | None =>
                 Ok (if qhull then
                       Some (imap (λ i p, f_add (f_of_Z (dot p p))
                                            (np_random_normal i)) pts)
                     else if cgal then
                       Some ((λ p, f_of_Z (dot p p)) <$> pts)
                     else None)
             | Some h =>
                 if negb (bool_decide (length h = nlabels))
                 then Raise (ValueError msg_heights)
                 else Ok (Some h)
             end);
  T ← (if qhull then
         h ← (match heights with Some h => Ok h | None => Raise TypeError end);
         simps ← _qhull_triangulate pts_optimal h;
         run_init (if make_star then _to_star else mret tt)
           (preset (object simps heights))
       else if cgal then
         h ← (match heights with Some h => Ok h | None => Raise TypeError end);
         simps ← _cgal_triangulate pts_optimal h;
         if make_star then
           if negb (bool_decide (origin_index = 0)) then Raise AssertionError
           else
             hi ← f_list_max (drop 1 h);
             lo ← f_list_min (drop 1 h);
             let origin_step := f_max (f_of_Z 100) (f_sub hi lo) in
             '(h, simps) ← cgal_star_loop fuel pts_optimal origin_step h simps;
             Ok (preset (object simps (Some h)))
         else Ok (preset (object simps heights))
       else
         simps ← _topcom_triangulate pts_optimal;
         run_init (if make_star then _to_star else mret tt)
           (preset (object simps heights)));
  if check_heights && bool_decide (is_Some (_heights T))
  then run_init
         (check_heights_rec (verbosity - (if default_triang then 1 else 0))) T
  else Ok T.

Definition init_body (fuel : nat) (a : init_args) : result Triangulation :=
  (* backend *)
  backend ← (match arg_backend a with
             | None => Raise AttributeError        (* [None.lower()] *)
             | Some b => Ok (lower b)
             end);
  if negb (bool_decide (backend ∈ ["qhull"; "cgal"; "topcom"]))
  then Raise (ValueError msg_backend)
  else
  (* points *)
  let poly := arg_poly a in
  let tmp_pts : gset (list Z) := list_to_set (poly_points_which poly (arg_pts a)) in
  if bool_decide (size tmp_pts = 0%nat) then Raise (ValueError msg_points)
  else
  (* simplices *)
  simplices ← (match arg_simplices a with
               | Some s => simps ← np_asarray (canonical_simplices s); Ok (Some simps)
               | None => Ok None
               end);
  (* parse points *)
  let pts := filter (λ pt, pt ∈ tmp_pts) (poly_points poly) in
  let ambient_dim := Z.of_nat (length (default [] (head (elements tmp_pts)))) in
  let d := np_linalg_matrix_rank ((λ pt, pt ++ [1]) <$> elements tmp_pts) - 1 in
  let is_fulldim := bool_decide (d = ambient_dim) in
  pts_optimal ← (if is_fulldim then Ok pts
                 else
                   p0 ← py_getitem pts 0;
                   Ok (slice_from (- d) <$>
                         lll_reduce ((λ pt, zip_with Z.sub pt p0) <$> pts)));
  (* index of the origin *)
  let '(origin_index, make_star) :=
    match list_index pts (replicate (Z.to_nat (poly_dim poly)) 0) with
    | Ok i => (i, arg_make_star a)
    | _ => (-1, false)
    end in
  let object := λ simps heights,
    new_object backend (arg_pts a) poly simps pts ambient_dim d is_fulldim
      pts_optimal origin_index (pts_dict_of pts)
      (pts_triang_to_poly_of poly pts) heights in
  (* save the input triangulation, or construct it *)
  T ← (match simplices with
       | Some simps =>
           init_from_simplices (arg_check_input_simplices a) make_star
             (length pts) d object simps
       | None =>
           init_from_heights fuel backend (arg_heights a) (length (arg_pts a))
             make_star (arg_check_heights a) (arg_verbosity a) origin_index
             pts pts_optimal object
       end);
  (* make sure that the simplices are sorted *)
  Ok (set_simplices (canonical_simplices (_simplices T)) T).

End InitBody.

(** ** Closing the loop

    A neighbour is built from simplices without the input check and asked
    for its regularity on the native path; neither reaches back.  The
    placeholder below stands at the calls that these uses never make. *)
Definition not_reached {A} : M Triangulation A := raise AssertionError.

Definition Triangulation_from_simplices : init_args → result Triangulation :=
  init_body (λ _, not_reached) (λ _, not_reached) 0.

Definition is_regular_native : option string → M Triangulation bool :=
  is_regular_body (λ _ _ _ _ _, not_reached).

Definition neighbor_triangulations :
  bool → bool → bool → option string → bool → M Triangulation (list Triangulation) :=
  neighbor_triangulations_body Triangulation_from_simplices is_regular_native.

Definition _fine_neighbors_2d :
  bool → bool → option string → M Triangulation (list Triangulation) :=
  _fine_neighbors_2d_body Triangulation_from_simplices is_regular_native.

Definition secondary_cone : option string → bool → M Triangulation Cone :=
  secondary_cone_body neighbor_triangulations.

Definition is_regular : option string → M Triangulation bool :=
  is_regular_body neighbor_triangulations.

Definition heights : bool → option string → M Triangulation (list F) :=
  heights_body neighbor_triangulations.

Definition check_heights : Z → M Triangulation unit :=
  check_heights_body neighbor_triangulations.

Definition Triangulation_from_heights : init_args → result Triangulation :=
  init_body check_heights (λ _, not_reached) 0.

Definition is_valid : option string → M Triangulation bool :=
  is_valid_body Triangulation_from_heights neighbor_triangulations.

Definition __init__ : nat → init_args → result Triangulation :=
  init_body check_heights is_valid.

(** ** [random_flips] *)

Definition msg_walk : string := "There was an error in the random walk.".

(** [only_fine], [only_regular], [only_star] default to [None], which the
    tests [if only_fine and ...] read as false. *)
Definition truthy (b : option bool) : bool := default false b.

(** [for t in neighbors: ... else: raise RuntimeError] *)
Fixpoint first_accepted (only_fine only_star only_regular : bool)
    (backend : option string) (neighbors : list Triangulation)
  : result Triangulation :=
  match neighbors with
  | [] => Raise (RuntimeError msg_walk)
  | t :: rest =>
      match passes_filters is_regular only_fine only_star only_regular backend t with
      | (Ok true, t') => Ok t'
      | (Ok false, _) => first_accepted only_fine only_star only_regular backend rest
      | (Raise e, _) => Raise e
      | (OutOfFuel, _) => OutOfFuel
      end
  end.

(** One round of the loop, with [curr_triang] as the object. *)
Definition flip_step (only_fine only_regular only_star : option bool)
    (backend : option string) (seed : option Z) (n : nat)
  : M Triangulation Triangulation :=
  neighbors ← neighbor_triangulations false false false None false;
  let neighbors := np_random_shuffle seed n Triangulation neighbors in
  lift (first_accepted (truthy only_fine) (truthy only_star)
          (truthy only_regular) backend neighbors).

(** Rounds [n], [n+1], ... on the triangulations the walk moves to. *)
Fixpoint flip_steps (only_fine only_regular only_star : option bool)
    (backend : option string) (seed : option Z) (rounds n : nat)
    (curr_triang : Triangulation) : result Triangulation :=
  match rounds with
  | O => Ok curr_triang
  | S rounds' =>
      t ← (flip_step only_fine only_regular only_star backend seed n curr_triang).1;
      flip_steps only_fine only_regular only_star backend seed rounds' (S n) t
  end.

Definition random_flips (N : Z) (only_fine only_regular only_star : option bool)
    (backend : option string) (seed : option Z)
  : M Triangulation Triangulation := λ self,
  match Z.to_nat N with
  | O => (Ok self, self)
  | S rounds =>
      match flip_step only_fine only_regular only_star backend seed 0 self with
      | (Ok t, self') =>
          (flip_steps only_fine only_regular only_star backend seed rounds 1 t, self')
      | (r, self') => (r, self')
      end
  end.

(** *** The walk in the words of its description

    Modelled from the spec: at each step the full list of neighbours is
    shuffled and the first shuffled neighbour that satisfies all of the
    active filters is accepted; when no neighbour satisfies them the walk
    is stuck.  The filters are the answers of [is_fine()], [is_star()] and
    [is_regular(backend)] on the neighbour. *)
Section FlipSpec.

Variables (only_fine only_star only_regular : bool).
Variables (backend : option string) (seed : option Z).






End FlipSpec.


(** ** [simplices(on_faces_dim=d)] and [automorphism_orbit] *)

Definition msg_face_dim : string := "Invalid face dimension.".
Definition msg_auto : string :=
  "Automorphisms can only be computed for full-dimensional point configurations.".

(** [frozenset(self.points_to_indices(pts))] for a list of points: the
    empty list is one-dimensional and gives the empty array. *)
Definition face_indices (T : Triangulation) (pts : list (list Z))
  : result (gset Z) :=
  inds ← result_mapM (dict_getitem (_pts_dict T)) pts;
  Ok (list_to_set inds).

(** [for s in full_simp: inters = f & s; if len(inters) == faces_dim+1:
    restricted[-1].add(inters)] *)
Definition restrict_to_face (faces_dim : Z) (full_simp : list (gset Z))
    (f : gset Z) : gset (gset Z) :=
  list_to_set
    (filter (λ inters : gset Z, Z.of_nat (size inters) = faces_dim + 1)
       ((λ s : gset Z, f ∩ s) <$> full_simp)).

(** The computation behind [self._restricted_simplices[faces_dim]]. *)
Definition restricted_simplices (T : Triangulation) (faces_dim : Z)
  : result (list (gset (gset Z))) :=
  let full_simp := (λ s : list Z, (list_to_set s : gset Z)) <$> _simplices T in
  let faces_pts :=
    (λ face : list (list Z), filter (λ pt, is_Some (_pts_dict T !! pt)) face) <$>
      poly_faces_points (polytope T) faces_dim in
  result_bind (result_mapM (face_indices T) faces_pts)
    (λ faces_inds, Ok (restrict_to_face faces_dim full_simp <$> faces_inds)).

(** [np.array(sorted(sorted(s) for s in out))], with [out] the union of
    the sets in [restricted] *)
Definition restricted_output (restricted : list (gset (gset Z)))
  : list (list Z) :=
  let out : gset (gset Z) := ⋃ restricted in
  sorted_tuples ((λ s : gset Z, sorted_ints (elements s)) <$> elements out).

(** Simplices restricted to the faces of dimension [faces_dim], as the
    sorted array [simplices(on_faces_dim=faces_dim)] returns. *)
Definition simplices_on_faces (faces_dim : Z) : M Triangulation (list (list Z)) :=
  λ T,
  if bool_decide (faces_dim < 0) || bool_decide (dim T < faces_dim)
  then (Raise (ValueError msg_face_dim), T)
  else
    match _restricted_simplices T !! faces_dim with
    | Some restricted => (Ok (restricted_output restricted), T)
    | None =>
        match restricted_simplices T faces_dim with
        | Ok restricted =>
            (Ok (restricted_output restricted),
             set_restricted_simplices
               (<[faces_dim := restricted]> (_restricted_simplices T)) T)
        | Raise e => (Raise e, T)
        | OutOfFuel => (OutOfFuel, T)
        end
    end.

(** Lexicographic order on tuples of tuples, for [sorted(orbit)]. *)
Fixpoint triang_leb (a b : list (list Z)) : bool :=
  match a, b with
  | [], _ => true
  | _ :: _, [] => false
  | x :: a', y :: b' =>
      if bool_decide (x = y) then triang_leb a' b' else tuple_leb x y
  end.
Definition triang_le (a b : list (list Z)) : Prop := triang_leb a b = true.
#[global] Instance triang_le_dec : RelDecision triang_le.
Proof. intros a b. unfold triang_le. apply _. Defined.

(** An automorphism after re-indexing: a dictionary, or [None] when it
    was discarded. *)
Definition auto_getitem (auto : option (gmap Z Z)) (i : Z) : result Z :=
  match auto with
  | Some d => dict_getitem d i
  | None => Raise TypeError
  end.

(** [apply_auto(auto)] on the simplices [simps] *)
Definition apply_auto (simps : list (list Z)) (auto : option (gmap Z Z))
  : result (list (list Z)) :=
  rows ← result_mapM (λ s, img ← result_mapM (auto_getitem auto) s;
                           Ok (sorted_ints img)) simps;
  Ok (sorted_tuples rows).

(** The [for j,k in autos[i].items(): ... else: good_autos.append(i)] test
    for the automorphism at position [i]. *)
Fixpoint auto_is_good (T : Triangulation) (pts : list (list Z))
    (allowed : option (list Z)) (i : Z) (items : list (Z * Z)) : result bool :=
  match items with
  | [] => Ok true
  | (j, k) :: items' =>
      if match allowed with
         | Some l => bool_decide (0 < i) && negb (bool_decide (i ∈ l))
         | None => false
         end
      then Ok false
      else
        pj ← py_getitem pts j;
        pk ← py_getitem pts k;
        if negb (Bool.eqb (bool_decide (is_Some (_pts_dict T !! pj)))
                          (bool_decide (is_Some (_pts_dict T !! pk))))
        then Ok false
        else auto_is_good T pts allowed i items'
  end.

(** The re-indexed dictionary [temp] of a good automorphism. *)
Fixpoint reindex_auto (T : Triangulation) (pts : list (list Z))
    (items : list (Z * Z)) (temp : gmap Z Z) : result (gmap Z Z) :=
  match items with
  | [] => Ok temp
  | (j, jj) :: items' =>
      pj ← py_getitem pts j;
      match _pts_dict T !! pj with
      | None => reindex_auto T pts items' temp
      | Some a =>
          pjj ← py_getitem pts jj;
          match _pts_dict T !! pjj with
          | None => reindex_auto T pts items' temp
          | Some b => reindex_auto T pts items' (<[a := b]> temp)
          end
      end
  end.

(** Both passes over [range(len(autos))]. *)
Definition good_autos (T : Triangulation) (pts : list (list Z))
    (allowed : option (list Z)) (autos : list (list (Z * Z)))
  : result (list (option (gmap Z Z))) :=
  flags ← result_mapM (λ ia, auto_is_good T pts allowed ia.1 ia.2) (enumerate autos);
  result_mapM (λ fa, if fa.1 : bool
                     then d ← reindex_auto T pts fa.2 ∅; Ok (Some d)
                     else Ok None)
    (zip flags autos).

(** [for simps in orbit: for i in orbit_id[0]: ...], the new
    triangulations of one round. *)
Definition orbit_round (autos : list (option (gmap Z Z))) (gens : list Z)
    (orbit : gset (list (list Z))) : result (list (list (list Z))) :=
  per_simps ← result_mapM
    (λ simps,
       result_mapM (λ i, a ← py_getitem autos i; apply_auto simps a) gens)
    (elements orbit);
  Ok (filter (λ t, t ∉ orbit) (concat per_simps)).

(** [while True: ...], followed for at most [fuel] rounds. *)
Fixpoint orbit_closure (fuel : nat) (autos : list (option (gmap Z Z)))
    (gens : list Z) (orbit : gset (list (list Z)))
  : result (gset (list (list Z))) :=
  new_triangs ← orbit_round autos gens orbit;
  match new_triangs with
  | [] => Ok orbit
  | _ =>
      match fuel with
      | O => OutOfFuel
      | S fuel' => orbit_closure fuel' autos gens (list_to_set new_triangs ∪ orbit)
      end
  end.

Definition automorphism_orbit (fuel : nat) (automorphism : option (list Z))
    (on_faces_dim on_faces_codim : option Z)
  : M Triangulation (list (list (list Z))) :=
  T ← get;
  if negb (_is_fulldim T) then raise (NotImplementedError msg_auto)
  else
    let faces_dim :=
      match on_faces_dim, on_faces_codim with
      | None, None => dim T
      | Some d, _ => d
      | None, Some c => dim T - c
      end in
    let orbit_id := (automorphism, faces_dim) in
    match _automorphism_orbit T !! orbit_id with
    | Some orbit => mret orbit
    | None =>
        simps ← simplices_on_faces faces_dim;
        T ← get;
        let autos := poly_automorphisms (polytope T) in
        let pts := poly_points (polytope T) in
        autos ← lift (good_autos T pts automorphism autos);
        images ← lift (result_mapM (apply_auto simps)
                         (filter (λ a, is_Some a) autos));
        let orbit : gset (list (list Z)) := list_to_set images in
        orbit ← (match automorphism with
                 | Some gens => lift (orbit_closure fuel autos gens orbit)
                 | None => mret orbit
                 end);
        let sorted_orbit := merge_sort triang_le (elements orbit) in
        modify (λ T, set_automorphism_orbit
                       (<[orbit_id := sorted_orbit]> (_automorphism_orbit T)) T);;
        mret sorted_orbit
    end.

(** ** Notions used to state the properties *)

(** Every simplex lists [dim + 1] distinct indices of points of the
    configuration. *)
Definition simplices_well_formed (T : Triangulation) : Prop :=
  ∀ s, s ∈ _simplices T →
    NoDup s ∧ Z.of_nat (length s) = dim T + 1 ∧
    ∀ i, i ∈ s → 0 ≤ i < Z.of_nat (length (_pts T)).


Definition sr_cache_ok (T : Triangulation) : Prop :=
  ∀ sr, _sr_ideal T = Some sr → sr = sr_compute T.

(** A cached star flag is one that [is_star()] computed on this object. *)
Definition star_origin_lookup (T : Triangulation) : result index_or_empty :=
  points_to_indices T (replicate (Z.to_nat (dim T)) 0).
Definition is_star_compute (T : Triangulation) : bool :=
  match star_origin_lookup T with
  | Ok star_origin => forallb (λ s, np_contains s star_origin) (_simplices T)
  | _ => false
  end.
Definition star_cache_ok (T : Triangulation) : Prop :=
  ∀ b, _is_star T = Some b → b = is_star_compute T.

(** A cached toric variety was built after both guards had passed. *)
Definition toricvariety_cache_ok (T : Triangulation) : Prop :=
  is_Some (_toricvariety T) → _is_fulldim T = true ∧ is_star_compute T = true.
Definition sr_guard_cache_ok (T : Triangulation) : Prop :=
  is_Some (_sr_ideal T) → _is_fulldim T = true ∧ is_star_compute T = true.
Definition orbit_cache_ok (T : Triangulation) : Prop :=
  _automorphism_orbit T ≠ ∅ → _is_fulldim T = true.

(** The zero vector of the lattice the points live in. *)
Definition is_zero_vector (pt : list Z) : Prop := Forall (λ x, x = 0) pt.

(** The constructor's argument with [make_star] replaced. *)
Definition with_make_star (b : bool) (a : init_args) : init_args :=
  {| arg_poly := arg_poly a; arg_pts := arg_pts a; arg_heights := arg_heights a;
     arg_make_star := b; arg_simplices := arg_simplices a;
     arg_check_input_simplices := arg_check_input_simplices a;
     arg_check_heights := arg_check_heights a;
     arg_backend := arg_backend a; arg_verbosity := arg_verbosity a |}.


(** The selected points, the points kept in the polytope's order, and the
    dimension, as [__init__] computes them. *)
Definition config_points (a : init_args) : gset (list Z) :=
  list_to_set (poly_points_which (arg_poly a) (arg_pts a)).
Definition listed_points (a : init_args) : list (list Z) :=
  filter (λ pt, pt ∈ config_points a) (poly_points (arg_poly a)).
Definition config_dim (a : init_args) : Z :=
  np_linalg_matrix_rank ((λ pt, pt ++ [1]) <$> elements (config_points a)) - 1.

(** Methods that leave [_origin_index] alone. *)
Definition keeps_origin {A} (m : M Triangulation A) : Prop :=
  ∀ T, _origin_index (m T).2 = _origin_index T.

(** Results other than a raised [NotImplementedError]. *)
Definition no_nie {A} (r : result A) : Prop :=
  ∀ msg, r ≠ Raise (NotImplementedError msg).

(** Methods that only write cached answers: the object that [clear_cache]
    leaves is the same before and after the call. *)
Definition cache_only {A} (m : M Triangulation A) : Prop :=
  ∀ T, clear_cache (m T).2 = clear_cache T.

(** The volume of a simplex as [is_valid] computes it ([0] when an index
    does not name a point). *)
Definition valid_vol (pe : list (list Z)) (s : list Z) : Z :=
  match result_mapM (py_getitem pe) s with
  | Ok rows => Z.abs (py_round (np_linalg_det rows))
  | _ => 0
  end.

(** The cone of the native back-end of [secondary_cone], computed once
    the cache has no answer. *)
Definition native_cone (include : bool) : M Triangulation Cone :=
  null_vecs ← native_hyperplanes;
  c ← lift (Cone_of_hyperplanes null_vecs false);
  modify (set_cone_slot include c);;
  mret c.

(** A stored hash is the one that [__hash__] would compute. *)
Definition hash_cache_ok (T : Triangulation) : Prop :=
  ∀ h, _hash T = Some h → h = hash_value T.

(** ** [points_to_poly_indices]

    For one index (an argument without dimension) and for a list of
    indices.  The dictionary is keyed by the positions [0 .. npts - 1]:
    unlike a list it takes no negative index. *)
Definition points_to_poly_index (T : Triangulation) (point : Z) : result Z :=
  dict_getitem (_pts_triang_to_poly T) point.
Definition points_to_poly_indices (T : Triangulation) (points : list Z)
  : result (list Z) :=
  result_mapM (dict_getitem (_pts_triang_to_poly T)) points.

(** ** [simplices] with its face arguments

    [simplices(on_faces_dim, on_faces_codim)] with [split_by_face=False]
    and [as_np_array=True]: the stored array without face argument, the
    restriction to the faces otherwise, [on_faces_dim] taking precedence. *)
Definition simplices_method (on_faces_dim on_faces_codim : option Z)
  : M Triangulation (list (list Z)) := λ T,
  match on_faces_dim, on_faces_codim with
  | None, None => (Ok (_simplices T), T)
  | Some d, _ => simplices_on_faces d T
  | None, Some c => simplices_on_faces (dim T - c) T
  end.

(** ** [is_equivalent]

    [self.is_equivalent(other, ...)] for two distinct objects, both of
    which the call may write caches to.  Two arrays have the same shape
    and the same entries exactly when the nested lists are equal.
    [automorphism_orbit] is called without [automorphism], so that its
    [while] loop is not entered and it needs no fuel. *)
Definition is_equivalent (use_automorphisms : bool)
    (on_faces_dim on_faces_codim : option Z) (self other : Triangulation)
  : result bool * (Triangulation * Triangulation) :=
  if negb (poly_eq (polytope self) (polytope other))
  then (Ok false, (self, other))
  else if _is_fulldim self && use_automorphisms then
    match automorphism_orbit 0 None on_faces_dim on_faces_codim self with
    | (Ok orbit1, self') =>
        match automorphism_orbit 0 None on_faces_dim on_faces_codim other with
        | (Ok orbit2, other') =>
            (Ok (bool_decide (orbit1 = orbit2)), (self', other'))
        | (Raise e, other') => (Raise e, (self', other'))
        | (OutOfFuel, other') => (OutOfFuel, (self', other'))
        end
    | (Raise e, self') => (Raise e, (self', other))
    | (OutOfFuel, self') => (OutOfFuel, (self', other))
    end
  else
    match simplices_method on_faces_dim on_faces_codim self with
    | (Ok simp1, self') =>
        match simplices_method on_faces_dim on_faces_codim other with
        | (Ok simp2, other') =>
            (Ok (bool_decide (simp1 = simp2)), (self', other'))
        | (Raise e, other') => (Raise e, (self', other'))
        | (OutOfFuel, other') => (OutOfFuel, (self', other'))
        end
    | (Raise e, self') => (Raise e, (self', other))
    | (OutOfFuel, self') => (OutOfFuel, (self', other))
    end.

(** ** The generators

    A generator is followed until it returns, raises, or has gone through
    as many rounds of its loop as the caller allows; what it yielded on the
    way is kept in order. *)
Inductive gen_end : Type :=
  | GenReturn
  | GenRaise (e : exn)
  | GenOutOfFuel.

Definition msg_all_points : string := "List of points cannot be empty.".
Definition msg_star_origin : string :=
  "The star_origin parameter must be specified when restricting to star triangulations.".

(** [all_triangulations]: after the two checks of the input and the rank
    of the points, the body reads [points.shape[1]]; neither the function
    nor the module binds a name [points], so that the first [next()] ends
    there and the rest of the body is never run. *)
Definition all_triangulations (poly : Polytope) (pts : list Z)
    (only_fine only_regular only_star : bool) (star_origin : option Z)
    (backend : option string) (raw_output : bool)
  : list (list (list Z) + Triangulation) * gen_end :=
  if bool_decide (length pts = 0%nat)
  then ([], GenRaise (ValueError msg_all_points))
  else if only_star && bool_decide (star_origin = None)
  then ([], GenRaise (ValueError msg_star_origin))
  else
    let triang_pts := poly_points_which poly pts in
    let backend := if raw_output then Some "topcom" else backend in
    let d := np_linalg_matrix_rank ((λ pt, pt ++ [1]) <$> triang_pts) - 1 in
    ([], GenRaise (NameError "points")).

Section FastGenerator.

(** [random_triangulations_fast_generator(poly, pts, N, c, max_retries,
    make_star, only_fine, backend, seed, verbosity)].  [normal k i] is the
    draw of [np.random.normal(0, c)] for the point at position [i] in round
    [k] of the loop; [init_fuel] bounds the star loop of the constructor. *)
Variable normal : nat → nat → F.
Variable init_fuel : nat.
Variable poly : Polytope.
Variable pts : list Z.
Variable N : option Z.
Variable max_retries : Z.
Variable make_star only_fine : bool.
Variable backend : option string.
Variable verbosity : Z.

Definition fast_heights (k : nat) : list F :=
  imap (λ i pt, f_add (f_of_Z (dot pt pt)) (normal k i))
    (poly_points_which poly pts).

Definition fast_args (k : nat) : init_args :=
  {| arg_poly := poly; arg_pts := pts; arg_heights := Some (fast_heights k);
     arg_make_star := make_star; arg_simplices := None;
     arg_check_input_simplices := true; arg_check_heights := false;
     arg_backend := backend; arg_verbosity := 1 |}.

(** One round after the two exit tests: the object to yield with its
    hash, [None] for a retry. *)
Definition fast_round (k : nat) (triang_hashes : gset Z)
  : result (option (Z * Triangulation)) :=
  t ← __init__ init_fuel (fast_args k);
  match (if only_fine then is_fine else mret true) t with
  | (Ok fine, t) =>
      if negb fine then Ok None
      else
        match check_heights (verbosity - 1) t with
        | (Ok _, t) =>
            match __hash__ t with
            | (Ok h, t) =>
                if bool_decide (h ∈ triang_hashes) then Ok None
                else Ok (Some (h, t))
            | (Raise e, _) => Raise e
            | (OutOfFuel, _) => OutOfFuel
            end
        | (Raise e, _) => Raise e
        | (OutOfFuel, _) => OutOfFuel
        end
  | (Raise e, _) => Raise e
  | (OutOfFuel, _) => OutOfFuel
  end.

(** [while True: ...], from round [k] on. *)
Fixpoint fast_loop (fuel : nat) (k : nat) (triang_hashes : gset Z)
    (n_retries : Z) : list Triangulation * gen_end :=
  match fuel with
  | O => ([], GenOutOfFuel)
  | S fuel' =>
      if bool_decide (max_retries ≤ n_retries) then ([], GenReturn)
      else if match N with
              | Some n => bool_decide (n ≤ Z.of_nat (size triang_hashes))
              | None => false
              end
      then ([], GenReturn)
      else
        match fast_round k triang_hashes with
        | Ok None => fast_loop fuel' (S k) triang_hashes (n_retries + 1)
        | Ok (Some (h, t)) =>
            let '(rest, e) :=
              fast_loop fuel' (S k) ({[h]} ∪ triang_hashes) 0 in
            (t :: rest, e)
        | Raise e => ([], GenRaise e)
        | OutOfFuel => ([], GenOutOfFuel)
        end
  end.

Definition random_triangulations_fast_generator (fuel : nat)
  : list Triangulation * gen_end :=
  fast_loop fuel 0 ∅ 0.

End FastGenerator.

(** ** Views of the object that methods leave alone *)

Definition keeps {A V} (v : Triangulation → V) (m : M Triangulation A) : Prop :=
  ∀ T, v (m T).2 = v T.

(** A view that no cached answer enters, that the heights do not enter,
    that the simplices do not enter. *)
Class CacheView {V} (v : Triangulation → V) : Prop := {
  view_automorphism_orbit x T : v (set_automorphism_orbit x T) = v T;
  view_gkz_phi x T : v (set_gkz_phi x T) = v T;
  view_hash x T : v (set_hash x T) = v T;
  view_is_fine x T : v (set_is_fine x T) = v T;
  view_is_regular x T : v (set_is_regular x T) = v T;
  view_is_star x T : v (set_is_star x T) = v T;
  view_is_valid x T : v (set_is_valid x T) = v T;
  view_secondary_cone x T : v (set_secondary_cone x T) = v T;
  view_sr_ideal x T : v (set_sr_ideal x T) = v T;
  view_toricvariety x T : v (set_toricvariety x T) = v T;
  view_restricted_simplices x T : v (set_restricted_simplices x T) = v T
}.
Class HeightsView {V} (v : Triangulation → V) : Prop :=
  view_heights x T : v (set_heights x T) = v T.
Class SimplicesView {V} (v : Triangulation → V) : Prop :=
  view_simplices x T : v (set_simplices x T) = v T.

(** What the constructor derives from the polytope and the labels. *)
Definition geometry (T : Triangulation) :=
  (_backend T, _pt_labels T, _poly T, _pts T, _ambient_dim T, _dim T,
   _is_fulldim T, _pts_optimal T, _origin_index T, _pts_dict T,
   _pts_triang_to_poly T).

End Model.

(** ** The invariant of the Stanley-Reisner search

    [simps] are the simplices with the origin removed and [points] the
    indices of the other points.  A face is a subset of a simplex. *)
Definition is_face (simps : list (list Z)) (g : gset Z) : Prop :=
  ∃ s, s ∈ simps ∧ g ⊆ list_to_set s.

(** What holds of [SR_ideal] while subsets of size [i + 2] are examined. *)
Record sr_inv (simps : list (list Z)) (points : gset Z) (i : nat)
    (SR : gset (gset Z)) : Prop := {
  inv_points : ∀ g, g ∈ SR → g ⊆ points;
  inv_nonface : ∀ g, g ∈ SR → ¬ is_face simps g;
  inv_size : ∀ g, g ∈ SR → (2 ≤ size g ≤ i + 2)%nat;
  inv_antichain : ∀ g g', g ∈ SR → g' ∈ SR → g ⊆ g' → g = g'
}.

(** ** A concrete environment

    The statements below hold for every [Externals].  To see that their
    hypotheses can be met, and to run the model on explicit inputs, here is
    one environment with exact integer arithmetic in place of floating
    point. *)

(** CPython's hash of integers and tuples (64-bit build, 3.8 and later):
    an integer is reduced modulo [2^61 - 1] with its sign kept, [-1] is
    replaced by [-2]; a tuple is mixed lane by lane as in [tuplehash]. *)
Definition PyHASH_MODULUS : Z := 2 ^ 61 - 1.
Definition XXPRIME_1 : Z := 11400714785074694791.
Definition XXPRIME_2 : Z := 14029467366897019727.
Definition XXPRIME_5 : Z := 2870177450012600261.
Definition wrap64 (x : Z) : Z := x `mod` 2 ^ 64.
Definition to_signed64 (x : Z) : Z :=
  if bool_decide (x < 2 ^ 63) then x else x - 2 ^ 64.
Definition XXROTATE (x : Z) : Z :=
  wrap64 (Z.lor (Z.shiftl x 31) (Z.shiftr x 33)).

Definition cpython_hash_int (z : Z) : Z :=
  let h := Z.sgn z * (Z.abs z `mod` PyHASH_MODULUS) in
  if bool_decide (h = -1) then -2 else h.

Definition cpython_tuplehash (lanes : list Z) : Z :=
  let acc :=
    foldl (λ acc lane,
             let acc := wrap64 (acc + wrap64 lane * XXPRIME_2) in
             let acc := XXROTATE acc in
             wrap64 (acc * XXPRIME_1))
      XXPRIME_5 lanes in
  let acc := wrap64 (acc + Z.lxor (Z.of_nat (length lanes))
                                  (Z.lxor XXPRIME_5 3527539)) in
  if bool_decide (acc = 2 ^ 64 - 1) then 1546275796 else to_signed64 acc.

Fixpoint cpython_hash (o : pyobj) : Z :=
  match o with
  | PyInt z => cpython_hash_int z
  | PyTuple l => cpython_tuplehash (map cpython_hash l)
  end.

(** Exact determinant, by expansion along the first row. *)
Fixpoint remove_nth {A} (n : nat) (l : list A) : list A :=
  match n, l with
  | _, [] => []
  | O, _ :: l' => l'
  | S n', x :: l' => x :: remove_nth n' l'
  end.
Fixpoint laplace (fuel : nat) (m : list (list Z)) : Z :=
  match fuel with
  | O => 1
  | S fuel' =>
      match m with
      | [] => 1
      | row :: rest =>
          zsum (imap (λ j a, (if Nat.even j then a else - a)
                             * laplace fuel' (remove_nth j <$> rest)) row)
      end
  end.
Definition exact_det (m : list (list Z)) : Z := laplace (length m) m.




(** Exact rank, by fraction-free elimination: pick a row with a non-zero
    first entry, clear that column in the other rows, drop the column. *)
Fixpoint exact_rank_cols (ncols : nat) (m : list (list Z)) : Z :=
  match ncols with
  | O => 0
  | S ncols' =>
      let first := λ r : list Z, default 0 (head r) in
      match filter (λ r, first r ≠ 0) m with
      | [] => exact_rank_cols ncols' (tail <$> m)
      | p :: _ =>
          let others := filter (λ r, r ≠ p) m in
          1 + exact_rank_cols ncols'
                ((λ r, zip_with (λ x y, first p * x - first r * y)
                         (tail r) (tail p)) <$> others)
      end
  end.
Definition exact_rank (m : list (list Z)) : Z :=
  exact_rank_cols (length (default [] (head m))) m.

(** A vector of the kernel of an [n] by [n+1] matrix: signed maximal
    minors. *)
Definition minors_kernel (m : list (list Z)) : list Z :=
  let ncols := length (default [] (head m)) in
  (λ j, (if Nat.even j then 1 else -1) * exact_det (remove_nth j <$> m))
    <$> seq 0 ncols.

(** A polytope given by the answers it hands out; labels are positions in
    its list of points. *)
Record demo_polytope : Type := {
  dp_points : list (list Z);
  dp_dim : Z;
  dp_is_reflexive : bool;
  dp_facets_boundary_points : list (list (list Z));
  dp_automorphisms : list (list (Z * Z))
}.

(** Cones, kept as the data they were built from. *)
Inductive demo_cone : Type :=
  | DemoRays (rays : list (list Z))
  | DemoHyperplanes (hyperplanes : list (list Z))
  | DemoIntersection (c d : demo_cone).

(** All the ways of keeping some entries of a list, in order. *)
Fixpoint sublists {A} (l : list A) : list (list A) :=
  match l with
  | [] => [[]]
  | x :: l' => ((x ::.) <$> sublists l') ++ sublists l'
  end.

(** Some walls, none of them zero, add up to zero: every point of the
    cone then lies on each of these walls. *)
Definition walls_cancel (h : list (list Z)) : bool :=
  existsb (λ sub,
             match sub with
             | [] => false
             | v :: vs => forallb (Z.eqb 0) (foldl (zip_with Z.add) v vs)
             end)
    (sublists (filter (λ v, ¬ Forall (λ x, x = 0) v) h)).

(** A cone cut out by walls is not solid when some of them cancel; a cone
    with at most one wall is solid.  Other cones are not decided here and
    reported solid. *)
Definition demo_is_solid (c : demo_cone) : bool :=
  match c with
  | DemoHyperplanes h => negb (walls_cancel h)
  | _ => true
  end.

(** Twice the area of the convex hull of points of the plane: the hull by
    Andrew's monotone chain, the area by the shoelace formula. *)
Definition cross2 (o a b : list Z) : Z :=
  match o, a, b with
  | [ox; oy], [ax; ay], [bx; by_] =>
      (ax - ox) * (by_ - oy) - (ay - oy) * (bx - ox)
  | _, _, _ => 0
  end.
Fixpoint pop_right_turns (stack : list (list Z)) (p : list Z)
  : list (list Z) :=
  match stack with
  | a :: rest =>
      match rest with
      | b :: _ =>
          if bool_decide (cross2 b a p ≤ 0) then pop_right_turns rest p
          else stack
      | [] => stack
      end
  | [] => stack
  end.
Definition half_hull (pts : list (list Z)) : list (list Z) :=
  foldl (λ stack p, p :: pop_right_turns stack p) [] pts.
Definition convex_hull_2d (pts : list (list Z)) : list (list Z) :=
  let sorted := sorted_tuples pts in
  reverse (tail (half_hull sorted)) ++ reverse (tail (half_hull (reverse sorted))).
Definition shoelace (polygon : list (list Z)) : Z :=
  zsum (zip_with (cross2 [0; 0]) polygon (rotate 1 polygon)).
Definition hull_volume_scaled (pts : list (list Z)) (d : Z) : Z :=
  if bool_decide (d = 2) then Z.abs (shoelace (convex_hull_2d pts)) else 0.

(** The answers of [topcom-points2flips] for the origin and the four
    vertices of the square [[-1,1]^2] (points [0] to [4] in this order).
    These five points have three triangulations: the four triangles around
    the origin, and the two triangles on either side of a diagonal.  Taking
    the origin off a diagonal, or putting it on, is a flip, and so is the
    exchange of the diagonals.  For any other input the program is taken
    to fail with return code [1]. *)
Definition square5_ext : list (list Z) :=
  [[0;0;1]; [-1;-1;1]; [-1;1;1]; [1;-1;1]; [1;1;1]].
Definition square5_star : list (list Z) :=
  [[0; 1; 2]; [0; 1; 3]; [0; 2; 4]; [0; 3; 4]].
Definition square5_diagonal_23 : list (list Z) := [[1; 2; 3]; [2; 3; 4]].
Definition square5_diagonal_14 : list (list Z) := [[1; 2; 4]; [1; 3; 4]].
Definition demo_points2flips (pts_ext simps : list (list Z)) (verbose : bool)
  : Z * result (list (list (list Z))) :=
  if negb (bool_decide (pts_ext = square5_ext)) then (1, Ok [])
  else if bool_decide (simps = square5_star)
       then (0, Ok [square5_diagonal_23; square5_diagonal_14])
  else if bool_decide (simps = square5_diagonal_23)
       then (0, Ok [square5_star; square5_diagonal_14])
  else if bool_decide (simps = square5_diagonal_14)
       then (0, Ok [square5_star; square5_diagonal_23])
  else (1, Ok []).

#[global] Instance demo : Externals := {|
  F := Z;
  f_abs := Z.abs;
  py_round := id;
  f_of_Z := id;
  f_add := Z.add;
  f_sub := Z.sub;
  f_max := Z.max;
  f_min := Z.min;
  np_linalg_det := exact_det;
  np_linalg_matrix_rank := exact_rank;
  np_random_normal := λ _, 0;
  np_random_shuffle := λ _ _ _ l, reverse l;
  convex_hull_volume_scaled := hull_volume_scaled;
  qhull_lower_facets := λ _ _, Raise (RuntimeError "qhull is not available");
  cgal_triangulate_program := λ _ _, Raise (RuntimeError "CGAL error");
  topcom_points2finetriang := λ _, Raise (RuntimeError "Error: Failed to parse TOPCOM output.");
  topcom_points2flips := demo_points2flips;
  lll_reduce := id;
  gcd_list := foldr Z.gcd 0;
  flint_nullspace := minors_kernel;
  Polytope := demo_polytope;
  poly_eq := λ p q, bool_decide (dp_points p = dp_points q);
  poly_points := dp_points;
  poly_points_which := λ p labels, omap (λ l, dp_points p !! Z.to_nat l) labels;
  poly_dim := dp_dim;
  poly_dim_ambient := λ p, Z.of_nat (length (default [] (head (dp_points p))));
  poly_is_reflexive := dp_is_reflexive;
  poly_points_to_indices := λ p pt, default (-1) (fst <$> head (filter (λ ip, ip.2 = pt) (zip (Z.of_nat <$> seq 0 (length (dp_points p))) (dp_points p))));
  poly_facets_boundary_points := dp_facets_boundary_points;
  poly_faces_points := λ p _, [dp_points p];
  poly_automorphisms := dp_automorphisms;
  Cone := demo_cone;
  Cone_of_rays := DemoRays;
  Cone_of_hyperplanes := λ h _, Ok (DemoHyperplanes h);
  cone_intersection := DemoIntersection;
  cone_is_solid := λ c _, demo_is_solid c;
  heights_cast := λ _ h, h;
  heights_zeros := λ n _, replicate n 0;
  cone_find_interior_point := λ _ _ _, Raise (RuntimeError "no interior point");
  cone_near_wall := λ _ _, false;
  ToricVariety := unit;
  ToricVariety_of := λ _ _ _, tt;
  py_hash := cpython_hash
|}.

(** ** Example inputs *)

(** The square [[-1,1]^2] with its nine lattice points: the origin, the
    four vertices, the four midpoints of the edges. *)
Definition square : demo_polytope := {|
  dp_points := [[0;0]; [-1;-1]; [-1;1]; [1;-1]; [1;1];
                [-1;0]; [0;-1]; [0;1]; [1;0]];
  dp_dim := 2;
  dp_is_reflexive := true;
  dp_facets_boundary_points :=
    [[[-1;-1]; [-1;1]]; [[-1;-1]; [1;-1]]; [[-1;1]; [1;1]]; [[1;-1]; [1;1]]];
  dp_automorphisms := []
|}.

(** The three collinear points [(0,0)], [(-1,0)], [(1,0)] of the square,
    triangulated by the two segments through the origin: the object that
    [Triangulation(p, pts, simplices=[[0,1],[0,2]],
    check_input_simplices=False)] builds for that selection of points. *)
Definition collinear_star : Triangulation :=
  new_object "cgal" [0; 5; 8] square [[0; 1]; [0; 2]]
    [[0;0]; [-1;0]; [1;0]] 2 1 false [[0]; [-1]; [1]] 0
    (pts_dict_of [[0;0]; [-1;0]; [1;0]])
    (pts_triang_to_poly_of square [[0;0]; [-1;0]; [1;0]]) None.

(** The segment [[-2,2]] with its five lattice points. *)
Definition segment : demo_polytope := {|
  dp_points := [[0]; [-2]; [2]; [-1]; [1]];
  dp_dim := 1;
  dp_is_reflexive := false;
  dp_facets_boundary_points := [[[-2]]; [[2]]];
  dp_automorphisms := []
|}.

(** The triangle with the vertices [(0,0)], [(4,0)], [(0,4)] and its
    fifteen lattice points; the first six are the vertices and the
    vertices [(1,1)], [(2,1)], [(1,2)] of a smaller copy of it. *)
Definition triangle4 : demo_polytope := {|
  dp_points := [[0;0]; [4;0]; [0;4]; [1;1]; [2;1]; [1;2];
                [1;0]; [2;0]; [3;0]; [0;1]; [3;1]; [0;2]; [2;2];
                [0;3]; [1;3]];
  dp_dim := 2;
  dp_is_reflexive := false;
  dp_facets_boundary_points :=
    [[[0;0]; [1;0]; [2;0]; [3;0]; [4;0]];
     [[0;0]; [0;1]; [0;2]; [0;3]; [0;4]];
     [[4;0]; [3;1]; [2;2]; [1;3]; [0;4]]];
  dp_automorphisms := []
|}.

(** The twisted triangulation of the six points: the inner triangle, and
    each of the three trapezia around it cut by the diagonal that leaves
    its outer vertex in the same sense.  No height function induces it. *)
Definition twisted_simplices : list (list Z) :=
  [[3; 4; 5];
   [1; 2; 5]; [1; 4; 5];
   [0; 2; 3]; [2; 3; 5];
   [0; 1; 4]; [0; 3; 4]].

(** The object that [Triangulation(p, pts, simplices=twisted,
    check_input_simplices=False)] builds for the first six points of the
    triangle. *)
Definition twisted : Triangulation :=
  let pts := [[0;0]; [4;0]; [0;4]; [1;1]; [2;1]; [1;2]] in
  new_object "cgal" [0; 1; 2; 3; 4; 5] triangle4
    (canonical_simplices twisted_simplices) pts 2 2 true pts 0
    (pts_dict_of pts) (pts_triang_to_poly_of triangle4 pts) None.

(** The same simplices with a seventh point, [(1,0)], in the
    configuration: a triangulation that is not fine. *)
Definition twisted_with_spare_point : Triangulation :=
  let pts := [[0;0]; [4;0]; [0;4]; [1;1]; [2;1]; [1;2]; [1;0]] in
  new_object "cgal" [0; 1; 2; 3; 4; 5; 6] triangle4
    (canonical_simplices twisted_simplices) pts 2 2 true pts 0
    (pts_dict_of pts) (pts_triang_to_poly_of triangle4 pts) None.

(** The origin and the four vertices of the square, triangulated by the
    four triangles around the origin: the object that
    [Triangulation(p, pts, simplices=..., check_input_simplices=False)]
    builds for these five points. *)
Definition square_star : Triangulation :=
  let pts := [[0;0]; [-1;-1]; [-1;1]; [1;-1]; [1;1]] in
  new_object "cgal" [0; 1; 2; 3; 4] square
    [[0; 1; 2]; [0; 1; 3]; [0; 2; 4]; [0; 3; 4]] pts 2 2 true pts 0
    (pts_dict_of pts) (pts_triang_to_poly_of square pts) None.


(** Two triangulations of the segment by the same two simplices, the
    second with a further point in its configuration:
    [Triangulation(p, pts, simplices=[[0,1],[0,2]],
    check_input_simplices=False)] for two choices of [pts]. *)
Definition segment_coarse : result (@Triangulation demo) :=
  __init__ 0 (args_from_simplices segment [0; 1; 2] [[0; 1]; [0; 2]]).
Definition segment_coarse_with_spare_point : result (@Triangulation demo) :=
  __init__ 0 (args_from_simplices segment [0; 1; 2; 3] [[0; 1]; [0; 2]]).

(** * Properties *)

#[local] Set Warnings "-clear-no-such-hyp".

(** ** Python's order on tuples of integers *)

Lemma tuple_le_cons (x y : Z) (a b : list Z) :
  tuple_le (x :: a) (y :: b) ↔ x < y ∨ (x = y ∧ tuple_le a b).
Proof.
  unfold tuple_le. cbn [tuple_leb].
  rewrite orb_true_iff, andb_true_iff, Z.ltb_lt, Z.eqb_eq. done.
Qed.

#[export] Instance tuple_le_total : Total tuple_le.
Proof.
  intros a. induction a as [|x a IH]; intros b; [by left|].
  destruct b as [|y b]; [by right|].
  rewrite !tuple_le_cons.
  destruct (Z.lt_total x y) as [?|[->|?]]; [tauto| |tauto].
  destruct (IH b); tauto.
Qed.

#[export] Instance tuple_le_trans : Transitive tuple_le.
Proof.
  intros a. induction a as [|x a IH]; intros b c Hab Hbc; [done|].
  destruct b as [|y b]; [done|]. destruct c as [|z c]; [done|].
  rewrite tuple_le_cons in *.
  destruct Hab as [?|[-> Hab]], Hbc as [?|[-> Hbc]]; try (left; lia).
  right. split; [done|]. by apply (IH b).
Qed.

#[export] Instance tuple_le_antisymm : AntiSymm (=) tuple_le.
Proof.
  intros a. induction a as [|x a IH]; intros b Hab Hba.
  - by destruct b.
  - destruct b as [|y b]; [done|].
    rewrite tuple_le_cons in *.
    destruct Hab as [?|[-> Hab]], Hba as [?|[? Hba]]; try lia.
    f_equal. by apply IH.
Qed.

#[export] Instance Z_le_antisymm : AntiSymm (=) Z.le.
Proof. intros x y ??. lia. Qed.
#[export] Instance Z_le_total : Total Z.le.
Proof. intros x y. lia. Qed.

Section Sorting.
Context {A} (R : relation A) `{!RelDecision R, !Transitive R, !Total R,
                               !AntiSymm (=) R}.

(** [sorted] only depends on the entries, not on their order. *)
Lemma merge_sort_perm (l1 l2 : list A) :
  l1 ≡ₚ l2 → merge_sort R l1 = merge_sort R l2.
Proof.
  intros Hp. apply (Sorted_unique R); [apply Sorted_merge_sort; done..|].
  by rewrite !merge_sort_Permutation.
Qed.


Lemma merge_sort_sorted (l : list A) : Sorted R l → merge_sort R l = l.
Proof.
  intros Hs. apply (Sorted_unique R); [by apply Sorted_merge_sort|done|].
  apply merge_sort_Permutation.
Qed.

End Sorting.


Lemma sorted_ints_perm (s1 s2 : list Z) : s1 ≡ₚ s2 → sorted_ints s1 = sorted_ints s2.
Proof. apply (merge_sort_perm Z.le). Qed.

Lemma sorted_tuples_perm (l1 l2 : list (list Z)) :
  l1 ≡ₚ l2 → sorted_tuples l1 = sorted_tuples l2.
Proof. apply (merge_sort_perm tuple_le). Qed.

Lemma sorted_tuples_eq_perm (l1 l2 : list (list Z)) :
  sorted_tuples l1 = sorted_tuples l2 → l1 ≡ₚ l2.
Proof.
  intros H. unfold sorted_tuples in H.
  rewrite <- (merge_sort_Permutation tuple_le l1), H.
  apply merge_sort_Permutation.
Qed.

(** The canonical form is a normal form: it does not depend on the order
    of the simplices nor on the order of the vertices of a simplex, and
    taking it twice changes nothing. *)
Theorem canonical_simplices_normal_form (simps simps' : list (list Z)) :
  (∃ mid, simps ≡ₚ mid ∧ Forall2 Permutation mid simps') →
  canonical_simplices simps = canonical_simplices simps' ∧
  canonical_simplices (canonical_simplices simps) = canonical_simplices simps ∧
  StronglySorted tuple_le (canonical_simplices simps) ∧
  Forall (StronglySorted Z.le) (canonical_simplices simps).
Proof.
  intros H.
  assert (Hrows : Forall (StronglySorted Z.le) (canonical_simplices simps)).
  { apply Forall_forall. intros r Hr. unfold canonical_simplices, sorted_tuples in Hr.
    rewrite merge_sort_Permutation in Hr.
    apply list_elem_of_fmap in Hr as (s & -> & _).
    apply (StronglySorted_merge_sort Z.le). }
  split_and!; [| |apply (StronglySorted_merge_sort tuple_le)|done].
  - unfold canonical_simplices. destruct H as (mid & Hp & H).
    trans (sorted_tuples (map sorted_ints mid)).
    + apply sorted_tuples_perm. by apply fmap_Permutation.
    + f_equal. clear Hrows Hp. induction H as [|s s' l l' Hs _ IH]; [done|].
      cbn [map]. f_equal; [by apply sorted_ints_perm|done].
  - unfold canonical_simplices at 1.
    replace (map sorted_ints (canonical_simplices simps))
      with (canonical_simplices simps).
    + apply (merge_sort_sorted tuple_le), Sorted_merge_sort. apply _.
    + induction Hrows as [|r l Hr _ IH]; [done|]. cbn [map]. f_equal; [|done].
      symmetry. apply (merge_sort_sorted Z.le).
      by apply StronglySorted_Sorted.
Qed.

Lemma canonical_simplices_normal_form_witness :
  canonical_simplices [[2; 0; 1]; [0; 3; 1]] = canonical_simplices [[0; 1; 3]; [1; 2; 0]].
Proof.
  apply (canonical_simplices_normal_form [[2; 0; 1]; [0; 3; 1]]
           [[0; 1; 3]; [1; 2; 0]]).
  exists [[0; 3; 1]; [2; 0; 1]]. split.
  - compute_done.
  - apply Forall2_cons_2; [compute_done|].
    apply Forall2_cons_2; [compute_done|]. apply Forall2_nil_2.
Defined.

Section GkzProofs.
Context `{E : Externals}.

Lemma norm_index_in_range (n : nat) (i : Z) :
  0 ≤ i < Z.of_nat n → norm_index n i = Ok (Z.to_nat i).
Proof. intros H. unfold norm_index. rewrite bool_decide_eq_true_2; done. Qed.

Lemma py_getitem_in_range {A} (l : list A) (i : Z) :
  0 ≤ i < Z.of_nat (length l) → ∃ x, l !! Z.to_nat i = Some x ∧ py_getitem l i = Ok x.
Proof.
  intros H. unfold py_getitem. rewrite norm_index_in_range by done. simpl.
  destruct (lookup_lt_is_Some_2 l (Z.to_nat i)) as [x Hx]; [lia|].
  exists x. by rewrite Hx.
Qed.

Lemma zsum_app (a b : list Z) : zsum (a ++ b) = zsum a + zsum b.
Proof. induction a as [|x a IH]; simpl; [done|]. rewrite IH. lia. Qed.




(** At the border of [int64]: the sum wraps around, and a Python integer
    that is no [int64] is refused. *)
Lemma np_iadd_at_the_border :
  np_iadd [2 ^ 63 - 1] 0 1 = Ok [- 2 ^ 63] ∧
  np_iadd [0] 0 (2 ^ 63) = Raise OverflowError.
Proof. split; reflexivity. Qed.


Lemma result_mapM_getitem_ok {A} (l : list A) (s : list Z) :
  (∀ i, i ∈ s → 0 ≤ i < Z.of_nat (length l)) →
  ∃ rows, result_mapM (py_getitem l) s = Ok rows.
Proof.
  induction s as [|i s IH]; intros Hr; cbn [result_mapM]; [by eexists|].
  destruct (py_getitem_in_range l i) as (x & _ & ->); [apply Hr; set_solver|].
  destruct IH as [rows ->]; [intros j Hj; apply Hr; set_solver|].
  by eexists.
Qed.







End GkzProofs.

Section Combinatorics.

Lemma elem_of_combinations {A} (l : list A) : ∀ (r : nat) (c : list A),
  c ∈ combinations l r ↔ c `sublist_of` l ∧ length c = r.
Proof.
  induction l as [|x l IH]; intros r c.
  - destruct r; simpl.
    + rewrite list_elem_of_singleton. split.
      * intros ->. split; [constructor|done].
      * intros [_ H]. by apply nil_length_inv.
    + split; [by intros ?%elem_of_nil|].
      intros [H%sublist_nil_r Hl]. subst. done.
  - destruct r as [|r]; cbn [combinations].
    + rewrite list_elem_of_singleton. split.
      * intros ->. split; [apply sublist_nil_l|done].
      * intros [_ H]. by apply nil_length_inv.
    + rewrite elem_of_app, list_elem_of_fmap. setoid_rewrite IH. split.
      * intros [(c' & -> & Hs & Hl)|[Hs Hl]].
        -- split; [by apply sublist_skip|simpl; lia].
        -- split; [by apply sublist_cons|done].
      * intros [Hs Hl]. apply sublist_cons_r in Hs as [Hs|(c' & -> & Hs)].
        -- by right.
        -- left. exists c'. simpl in Hl. split_and!; [done|done|lia].
Qed.

Lemma sublist_subseteq_set (c l : list Z) :
  c `sublist_of` l → (list_to_set c : gset Z) ⊆ list_to_set l.
Proof.
  intros Hs x. rewrite !elem_of_list_to_set. by apply sublist_subseteq.
Qed.

(** Every [r]-subset of the entries of a duplicate-free list is one of its
    combinations. *)
Lemma subset_is_combination (l : list Z) (g : gset Z) :
  NoDup l → g ⊆ list_to_set l →
  ∃ c, c ∈ combinations l (size g) ∧ list_to_set c = g.
Proof.
  intros Hnd Hsub.
  set (c := filter (λ x, x ∈ g) l).
  assert (Hset : (list_to_set c : gset Z) = g).
  { apply set_eq. intros x. unfold c.
    rewrite elem_of_list_to_set, list_elem_of_filter.
    split; [by intros [? _]|]. intros Hx. split; [done|].
    apply Hsub in Hx. by apply elem_of_list_to_set in Hx. }
  exists c. split; [|done].
  apply elem_of_combinations. split; [apply sublist_filter|].
  rewrite <- Hset. symmetry. apply size_list_to_set.
  by apply NoDup_filter.
Qed.

Lemma combination_NoDup {A} (l c : list A) (r : nat) :
  NoDup l → c ∈ combinations l r → NoDup c.
Proof.
  intros Hnd [Hs _]%elem_of_combinations. by eapply sublist_NoDup.
Qed.

Lemma foldl_invariant {A B} (P : A → Prop) (f : A → B → A) (l : list B) :
  ∀ a, P a → (∀ a x, x ∈ l → P a → P (f a x)) → P (foldl f a l).
Proof.
  induction l as [|x l IH]; intros a Ha Hstep; simpl; [done|].
  apply IH.
  - apply Hstep; [set_solver|done].
  - intros a' y Hy. apply Hstep. set_solver.
Qed.

End Combinatorics.

Section SRInvariant.
Variable simps : list (list Z).
Variable points : gset Z.
Hypothesis simps_NoDup : ∀ s, s ∈ simps → NoDup s.
Hypothesis simps_points : ∀ s x, s ∈ simps → x ∈ s → x ∈ points.

Local Abbreviation is_face := (is_face simps).
Local Abbreviation sr_inv := (sr_inv simps points).

Lemma elem_of_tuples_of_size (dd : nat) (g : gset Z) :
  g ∈ tuples_of_size simps dd ↔
  ∃ s c, s ∈ simps ∧ c ∈ combinations s dd ∧ g = list_to_set c.
Proof.
  unfold tuples_of_size. rewrite elem_of_union_list. split.
  - intros (X & HX & Hg). apply list_elem_of_fmap in HX as (s & -> & Hs).
    apply elem_of_list_to_set, list_elem_of_fmap in Hg as (c & -> & Hc).
    by exists s, c.
  - intros (s & c & Hs & Hc & ->).
    exists (list_to_set (list_to_set <$> combinations s dd)). split.
    + apply list_elem_of_fmap. by exists s.
    + apply elem_of_list_to_set, list_elem_of_fmap. by exists c.
Qed.

Lemma tuple_is_face (dd : nat) (g : gset Z) :
  g ∈ tuples_of_size simps dd → is_face g ∧ size g = dd.
Proof.
  intros (s & c & Hs & Hc & ->)%elem_of_tuples_of_size.
  pose proof (combination_NoDup s c dd (simps_NoDup s Hs) Hc) as Hnd.
  apply elem_of_combinations in Hc as [Hsub Hlen]. split.
  - exists s. split; [done|]. by apply sublist_subseteq_set.
  - by rewrite size_list_to_set.
Qed.

Lemma face_is_tuple (g : gset Z) :
  is_face g → g ∈ tuples_of_size simps (size g).
Proof.
  intros (s & Hs & Hsub).
  destruct (subset_is_combination s g (simps_NoDup s Hs) Hsub) as (c & Hc & <-).
  apply elem_of_tuples_of_size. exists s, c. split_and!; try done.
Qed.

Lemma face_subset (g h : gset Z) : is_face h → g ⊆ h → is_face g.
Proof. intros (s & Hs & Hh) Hg. exists s. split; [done|set_solver]. Qed.

Lemma face_points (g : gset Z) : is_face g → g ⊆ points.
Proof.
  intros (s & Hs & Hg) x Hx. apply Hg, elem_of_list_to_set in Hx.
  by eapply simps_points.
Qed.

Lemma sr_inv_empty (i : nat) : sr_inv i ∅.
Proof. clear simps_NoDup simps_points. split; set_solver. Qed.

Lemma sr_inv_mono (i i' : nat) (SR : gset (gset Z)) :
  (i ≤ i')%nat → sr_inv i SR → sr_inv i' SR.
Proof.
  intros Hle [H1 H2 H3 H4]. split; try done.
  intros g Hg. specialize (H3 g Hg). lia.
Qed.

(** The search finds every generator that is [j] together with a
    non-empty part of [tup] of size at most [i]. *)
Lemma in_SR_complete (SR : gset (gset Z)) (tup : gset Z) (j : Z) (i : nat)
    (g : gset Z) :
  g ∈ SR → j ∈ g → g ∖ {[j]} ⊆ tup → (1 ≤ size (g ∖ {[j]}) ≤ i)%nat →
  in_SR SR tup j i = true.
Proof.
  intros Hg Hj Hsub Hsize. unfold in_SR.
  apply existsb_exists. exists (size (g ∖ {[j]})). split.
  { apply list_elem_of_In, elem_of_seq. lia. }
  apply existsb_exists.
  destruct (subset_is_combination (elements tup) (g ∖ {[j]})) as (c & Hc & Hset).
  { apply NoDup_elements. }
  { intros x Hx. apply elem_of_list_to_set, elem_of_elements. by apply Hsub. }
  exists c. split; [by apply list_elem_of_In|].
  apply bool_decide_eq_true.
  replace (list_to_set (c ++ [j]) : gset Z) with g; [done|].
  rewrite list_to_set_app_L, Hset. simpl.
  apply set_eq. intros x. destruct (decide (x = j)); set_solver.
Qed.

Lemma sr_visit_inv (next_tuples : gset (gset Z)) (i : nat) (tup : gset Z)
    (st : gset (gset Z) * gset (gset Z)) (j : Z) :
  next_tuples = tuples_of_size simps (S (S i)) →
  tup ∈ tuples_of_size simps (S i) →
  j ∈ points →
  sr_inv i st.1 → sr_inv i (sr_visit next_tuples i tup st j).1.
Proof.
  intros -> Htup Hj Hinv. destruct st as [SR checked]. unfold sr_visit.
  destruct (tuple_is_face _ _ Htup) as [Hface Hsz].
  destruct (bool_decide (tup ∪ {[j]} ∈ checked) ||
            negb (bool_decide (size (tup ∪ {[j]}) = S (size tup)))) eqn:Hskip;
    [done|].
  apply orb_false_iff in Hskip as [_ Hk].
  apply negb_false_iff, bool_decide_eq_true in Hk.
  case_bool_decide as Hnext; [done|].
  destruct (in_SR SR tup j i) eqn:Hin; [done|]. simpl in *.
  set (k := tup ∪ {[j]}) in *.
  assert (Hknf : ¬ is_face k).
  { intros Hf. apply Hnext. apply face_is_tuple in Hf. by rewrite Hk, Hsz in Hf. }
  assert (Hnosub : ∀ g, g ∈ SR → g ⊆ k → g = k).
  { intros g Hg Hgk. destruct (decide (g = k)) as [|Hne]; [done|exfalso].
    assert (Hjg : j ∈ g).
    { destruct (decide (j ∈ g)) as [|Hnj]; [done|exfalso].
      apply (inv_nonface _ _ _ _ Hinv g Hg). apply (face_subset g tup Hface).
      unfold k in Hgk. set_solver. }
    assert (Hlt : (size g < size k)%nat).
    { apply subset_size. split; [done|]. intros Hkg. apply Hne.
      apply set_eq. set_solver. }
    assert (Hsg : size g = S (size (g ∖ {[j]}))).
    { assert (Hdec : g = {[j]} ∪ g ∖ {[j]}).
      { apply set_eq. intros x. destruct (decide (x = j)); set_solver. }
      rewrite Hdec at 1. rewrite size_union by set_solver.
      by rewrite size_singleton. }
    pose proof (inv_size _ _ _ _ Hinv g Hg) as Hs2.
    rewrite (in_SR_complete SR tup j i g) in Hin; [done|done|done| |lia].
    unfold k in Hgk. set_solver. }
  destruct Hinv as [H1 H2 H3 H4]. split.
  - intros g [->%elem_of_singleton|Hg]%elem_of_union; [|by apply H1].
    apply face_points in Hface. unfold k. set_solver.
  - intros g [->%elem_of_singleton|Hg]%elem_of_union; [done|by apply H2].
  - intros g [->%elem_of_singleton|Hg]%elem_of_union; [lia|by apply H3].
  - intros g g' [->%elem_of_singleton|Hg]%elem_of_union
      [->%elem_of_singleton|Hg']%elem_of_union Hsub; try done.
    + pose proof (H3 g' Hg') as Hs.
      apply set_subseteq_size_eq; [done|lia].
    + by apply Hnosub.
    + by apply H4.
Qed.

End SRInvariant.

Section SRLevels.
Variable simps : list (list Z).
Variable points : gset Z.
Hypothesis simps_NoDup : ∀ s, s ∈ simps → NoDup s.
Hypothesis simps_points : ∀ s x, s ∈ simps → x ∈ s → x ∈ points.

Lemma sr_level_inv (i : nat) (st : gset (gset Z) * gset (gset Z)) :
  sr_inv simps points i st.1 →
  sr_inv simps points i
    (sr_level points (tuples_of_size simps (S i))
       (tuples_of_size simps (S (S i))) i st).1.
Proof.
  intros Hinv. unfold sr_level.
  apply (foldl_invariant (λ st, sr_inv simps points i st.1)); [done|].
  intros st1 tup Htup%elem_of_elements Hst1.
  apply (foldl_invariant (λ st, sr_inv simps points i st.1)); [done|].
  intros st2 j Hj%elem_of_elements Hst2.
  by apply sr_visit_inv.
Qed.

Lemma simplex_tuples_lookup (d : Z) (i : nat) :
  (i < Z.to_nat d)%nat →
  simplex_tuples simps d !! i = Some (tuples_of_size simps (S i)).
Proof.
  intros Hi. unfold simplex_tuples.
  rewrite list_lookup_fmap, lookup_seq_lt by done. done.
Qed.

Lemma sr_levels_fold_inv (d : Z) (n : nat) :
  ∀ (a : nat) (st : gset (gset Z) * gset (gset Z)),
  (a + n < Z.to_nat d)%nat ∨ n = 0%nat →
  sr_inv simps points a st.1 →
  sr_inv simps points (a + n)
    (foldl (λ st i,
              match simplex_tuples simps d !! i, simplex_tuples simps d !! S i with
              | Some tuples, Some next_tuples =>
                  sr_level points tuples next_tuples i st
              | _, _ => st
              end) st (seq a n)).1.
Proof.
  induction n as [|n IH]; intros a st Hb Hinv; simpl.
  - by rewrite Nat.add_0_r.
  - destruct Hb as [Hb|]; [|done].
    rewrite !simplex_tuples_lookup by lia.
    replace (a + S n)%nat with (S a + n)%nat by lia.
    apply IH; [left; lia|].
    eapply sr_inv_mono; [|by apply sr_level_inv]. lia.
Qed.

Lemma sr_levels_inv (d : Z) :
  sr_inv simps points (Z.to_nat d)
    (sr_levels points (simplex_tuples simps d)).1.
Proof.
  unfold sr_levels.
  assert (Hlen : length (simplex_tuples simps d) = Z.to_nat d).
  { unfold simplex_tuples. by rewrite length_fmap, length_seq. }
  rewrite Hlen.
  assert (Hb : (0 + (Z.to_nat d - 1) < Z.to_nat d)%nat ∨ (Z.to_nat d - 1 = 0)%nat)
    by lia.
  pose proof (sr_levels_fold_inv d (Z.to_nat d - 1) 0
                ((∅, ∅) : gset (gset Z) * gset (gset Z)) Hb
                (sr_inv_empty simps points 0)) as H.
  eapply sr_inv_mono; [|exact H]. lia.
Qed.

End SRLevels.

Section SROutput.
Context `{E : Externals}.

Lemma elem_of_sorted_ints (s : list Z) (x : Z) : x ∈ sorted_ints s ↔ x ∈ s.
Proof. unfold sorted_ints. by rewrite merge_sort_Permutation. Qed.

Lemma elem_of_sr_output (SR : gset (gset Z)) (g : list Z) :
  g ∈ sr_output SR ↔ ∃ X, X ∈ SR ∧ g = sorted_ints (elements X).
Proof.
  unfold sr_output. rewrite merge_sort_Permutation, list_elem_of_fmap.
  split; intros (X & H1 & H2); exists X.
  - split; [by apply elem_of_elements|done].
  - split; [done|by apply elem_of_elements].
Qed.

Lemma elem_of_sorted_elements (X : gset Z) (x : Z) :
  x ∈ sorted_ints (elements X) ↔ x ∈ X.
Proof. by rewrite elem_of_sorted_ints, elem_of_elements. Qed.

Lemma sr_compute_spec (T : Triangulation) :
  simplices_well_formed T →
  ∀ g, g ∈ sr_compute T →
    (∀ x, x ∈ g → x ≠ _origin_index T ∧ 0 ≤ x < Z.of_nat (length (_pts T))) ∧
    (∀ s, s ∈ simplices T → ¬ g ⊆ s) ∧
    (∀ g', g' ∈ sr_compute T → g ⊆ g' → g' = g).
Proof.
  intros Hwf g Hg. unfold sr_compute in *.
  set (points := (list_to_set (Z.of_nat <$> seq 0 (length (_pts T))) ∖
                    {[_origin_index T]} : gset Z)) in *.
  set (simps := (λ s, filter (λ i, i ≠ _origin_index T) s) <$> simplices T) in *.
  assert (Hpts : ∀ x, x ∈ points ↔
            x ≠ _origin_index T ∧ 0 ≤ x < Z.of_nat (length (_pts T))).
  { intros x. unfold points.
    rewrite elem_of_difference, elem_of_list_to_set, list_elem_of_fmap,
      not_elem_of_singleton.
    setoid_rewrite elem_of_seq. split.
    - intros [(n & -> & Hn) Hne]. split; [done|lia].
    - intros [Hne Hr]. split; [|done]. exists (Z.to_nat x). lia. }
  assert (Hnd : ∀ s, s ∈ simps → NoDup s).
  { intros s (s0 & -> & Hs0)%list_elem_of_fmap. apply NoDup_filter.
    by apply (Hwf s0). }
  assert (Hsp : ∀ s x, s ∈ simps → x ∈ s → x ∈ points).
  { intros s x (s0 & -> & Hs0)%list_elem_of_fmap [Hne Hx]%list_elem_of_filter.
    apply Hpts. split; [done|]. by apply (Hwf s0). }
  pose proof (sr_levels_inv simps points Hnd Hsp (dim T)) as Hinv.
  set (SR := (sr_levels points (simplex_tuples simps (dim T))).1) in *.
  apply elem_of_sr_output in Hg as (X & HX & ->).
  split_and!.
  - intros x Hx%elem_of_sorted_elements. apply Hpts.
    by apply (inv_points _ _ _ _ Hinv X HX).
  - intros s Hs Hsub. apply (inv_nonface _ _ _ _ Hinv X HX).
    exists (filter (λ i, i ≠ _origin_index T) s). split.
    + apply list_elem_of_fmap. by exists s.
    + intros x Hx. apply elem_of_list_to_set, list_elem_of_filter. split.
      * apply (inv_points _ _ _ _ Hinv X HX), Hpts in Hx. by destruct Hx.
      * apply Hsub. by apply elem_of_sorted_elements.
  - intros g' (X' & HX' & ->)%elem_of_sr_output Hsub.
    f_equal. f_equal. symmetry. apply (inv_antichain _ _ _ _ Hinv X X' HX HX').
    intros x Hx. apply elem_of_sorted_elements, Hsub.
    by apply elem_of_sorted_elements.
Qed.

Lemma is_star_state (o : option Z) (T : Triangulation) :
  (is_star o T).2 = T ∨ ∃ b, (is_star o T).2 = set_is_star (Some b) T.
Proof.
  unfold is_star. destruct o; [by left|].
  destruct (_is_star T); [by left|]. right. by eexists.
Qed.

(** C5: for a full-dimensional star triangulation, every generator
    returned by [sr_ideal()] consists of indices of points other than the
    origin, is contained in no simplex, and is contained in no other
    returned generator. *)
Theorem sr_ideal_generators (T : Triangulation) :
  simplices_well_formed T → sr_cache_ok T →
  (is_star None T).1 = Ok true → _is_fulldim T = true →
  ∃ gens, (sr_ideal T).1 = Ok gens ∧
    ∀ g, g ∈ gens →
      (∀ x, x ∈ g → x ≠ _origin_index T ∧ 0 ≤ x < Z.of_nat (length (_pts T))) ∧
      (∀ s, s ∈ simplices T → ¬ g ⊆ s) ∧
      (∀ g', g' ∈ gens → g ⊆ g' → g' = g).
Proof.
  intros Hwf Hcache Hstar Hfull.
  exists (sr_compute T). split; [|by apply sr_compute_spec].
  unfold sr_ideal. destruct (_sr_ideal T) as [sr|] eqn:Hc.
  - simpl. f_equal. by apply Hcache.
  - unfold mbind, M_bind.
    destruct (is_star None T) as [r T1] eqn:Hs. simpl in Hstar. subst r.
    pose proof (is_star_state None T) as HT1. rewrite Hs in HT1. simpl in HT1.
    unfold get, modify, mret, M_ret.
    assert (Hf1 : _is_fulldim T1 = true) by (destruct HT1 as [->|[b ->]]; done).
    rewrite Hf1. simpl.
    destruct HT1 as [->|[b ->]]; done.
Qed.

End SROutput.

Section StarProofs.
Context `{E : Externals}.

Lemma forallb_elem_of {A} (f : A → bool) (l : list A) :
  forallb f l = true ↔ ∀ x, x ∈ l → f x = true.
Proof.
  rewrite forallb_forall. split; intros H x Hx; apply H; by apply list_elem_of_In.
Qed.

(** With an explicit origin the answer is computed afresh: every simplex
    contains that index. *)
Lemma is_star_explicit (o : Z) (T : Triangulation) :
  (is_star (Some o) T).2 = T ∧
  ∃ b, (is_star (Some o) T).1 = Ok b ∧
       (b = true ↔ ∀ s, s ∈ simplices T → o ∈ s).
Proof.
  split; [done|]. eexists. split; [done|].
  rewrite forallb_elem_of. unfold simplices.
  split; intros H s Hs; specialize (H s Hs).
  - by apply bool_decide_eq_true in H.
  - by apply bool_decide_eq_true.
Qed.

(** Without argument the method returns what [is_star_compute] describes,
    on every object whose cache it filled itself. *)
Lemma is_star_default (T : Triangulation) :
  star_cache_ok T → (is_star None T).1 = Ok (is_star_compute T).
Proof.
  intros Hc. unfold is_star. destruct (_is_star T) as [b|] eqn:Hb.
  - simpl. f_equal. by apply Hc.
  - done.
Qed.

Lemma is_star_default_keeps_cache_ok (T : Triangulation) :
  star_cache_ok T → star_cache_ok (is_star None T).2.
Proof.
  intros Hc. unfold is_star. destruct (_is_star T) as [b|] eqn:Hb; [done|].
  intros b. simpl. intros [= <-]. done.
Qed.

(** In a full-dimensional configuration that contains the zero vector,
    at index [o]: star means that every simplex contains [o]. *)
Lemma is_star_compute_origin (T : Triangulation) (o : Z) :
  0 < dim T →
  _pts_dict T !! replicate (Z.to_nat (dim T)) 0 = Some o →
  is_star_compute T = true ↔ ∀ s, s ∈ simplices T → o ∈ s.
Proof.
  intros Hd Ho. unfold is_star_compute, star_origin_lookup, points_to_indices.
  rewrite bool_decide_eq_false_2 by (rewrite length_replicate; lia).
  rewrite Ho. rewrite forallb_elem_of. unfold simplices. simpl.
  split; intros H s Hs; specialize (H s Hs).
  - by apply bool_decide_eq_true in H.
  - by apply bool_decide_eq_true.
Qed.

(** No zero vector among the points, at least one simplex: not star. *)
Lemma is_star_compute_no_origin (T : Triangulation) :
  (∀ pt, is_Some (_pts_dict T !! pt) → ¬ is_zero_vector pt) →
  _simplices T ≠ [] →
  is_star_compute T = false.
Proof.
  intros Hno Hne. unfold is_star_compute, star_origin_lookup, points_to_indices.
  case_bool_decide as Hlen.
  - destruct (_simplices T); [done|]. done.
  - destruct (_pts_dict T !! replicate (Z.to_nat (dim T)) 0) eqn:Hl; [|done].
    exfalso. apply (Hno (replicate (Z.to_nat (dim T)) 0)); [by rewrite Hl|].
    unfold is_zero_vector. apply Forall_replicate. done.
Qed.

End StarProofs.

Lemma collinear_star_built_by_init :
  (λ T, (_pts T, _simplices T, _dim T, _ambient_dim T, _is_fulldim T,
         _origin_index T, _pts_dict T)) <$>
    match __init__ 0 (args_from_simplices square [0; 5; 8] [[0; 1]; [0; 2]]) with
    | Ok T => Some T | _ => None end
  = Some (_pts collinear_star, _simplices collinear_star, _dim collinear_star,
          _ambient_dim collinear_star, _is_fulldim collinear_star,
          _origin_index collinear_star, _pts_dict collinear_star).
Proof. vm_compute. reflexivity. Qed.

(** C6: with the origin given, [is_star] tests that every simplex
    contains it; without argument it looks the origin up as a vector with
    [dim()] coordinates, so that for the three collinear points below,
    where point 0 is the zero vector and both simplices contain it,
    [is_star()] answers [False] while [is_star(star_origin=0)] answers
    [True]. *)
Theorem is_star_misses_origin_of_flat_configuration :
  _pts collinear_star !! 0%nat = Some [0; 0] ∧
  (∀ s, s ∈ simplices collinear_star → 0 ∈ s) ∧
  (is_star None collinear_star).1 = Ok false ∧
  (is_star (Some 0) collinear_star).1 = Ok true.
Proof.
  split_and!; try (vm_compute; reflexivity).
  intros s Hs. unfold simplices, collinear_star in Hs. simpl in Hs.
  set_unfold. destruct Hs as [->|[->|[]]]; set_solver.
Qed.

Section GuardProofs.
Context `{E : Externals}.

(** *** Exceptions other than [NotImplementedError] *)

Lemma no_nie_bind {A B} (r : result A) (k : A → result B) :
  no_nie r → (∀ a, no_nie (k a)) → no_nie (r ≫= k).
Proof.
  intros Hr Hk msg. unfold mbind, result_mbind, result_bind.
  destruct r as [a|e|]; [apply Hk|intros [= ->]; by apply (Hr msg)|done].
Qed.

Lemma no_nie_mapM {A B} (f : A → result B) (l : list A) :
  (∀ x, no_nie (f x)) → no_nie (result_mapM f l).
Proof.
  intros Hf. induction l as [|x l IH]; simpl; [done|].
  apply (no_nie_bind (f x)); [apply Hf|]. intros y.
  apply (no_nie_bind (result_mapM f l)); [apply IH|]. done.
Qed.

Lemma no_nie_norm_index (n : nat) (i : Z) : no_nie (norm_index n i).
Proof. unfold norm_index. repeat case_bool_decide; done. Qed.

Lemma no_nie_py_getitem {A} (l : list A) (i : Z) : no_nie (py_getitem l i).
Proof.
  unfold py_getitem. apply (no_nie_bind (norm_index _ _)); [apply no_nie_norm_index|].
  intros n. by destruct (l !! n).
Qed.

Lemma no_nie_dict_getitem `{Countable K} {V} (d : gmap K V) (k : K) :
  no_nie (dict_getitem d k).
Proof. unfold dict_getitem. by destruct (d !! k). Qed.

Lemma no_nie_auto_getitem (a : option (gmap Z Z)) (i : Z) :
  no_nie (auto_getitem a i).
Proof. destruct a; [apply no_nie_dict_getitem|done]. Qed.

Lemma no_nie_apply_auto (simps : list (list Z)) (a : option (gmap Z Z)) :
  no_nie (apply_auto simps a).
Proof.
  unfold apply_auto. apply no_nie_bind; [|done].
  apply no_nie_mapM. intros s. apply no_nie_bind; [|done].
  apply no_nie_mapM. intros i. apply no_nie_auto_getitem.
Qed.

Lemma no_nie_auto_is_good (T : Triangulation) pts allowed i items :
  no_nie (auto_is_good T pts allowed i items).
Proof.
  induction items as [|[j k] items IH]; simpl; [done|].
  destruct (match allowed with Some l => _ | None => false end); [done|].
  apply no_nie_bind; [apply no_nie_py_getitem|]. intros pj.
  apply no_nie_bind; [apply no_nie_py_getitem|]. intros pk.
  destruct (negb _); [done|apply IH].
Qed.

Lemma no_nie_reindex_auto (T : Triangulation) pts items : ∀ temp,
  no_nie (reindex_auto T pts items temp).
Proof.
  induction items as [|[j jj] items IH]; intros temp; simpl; [done|].
  apply no_nie_bind; [apply no_nie_py_getitem|]. intros pj.
  destruct (_pts_dict T !! pj); [|apply IH].
  apply no_nie_bind; [apply no_nie_py_getitem|]. intros pjj.
  destruct (_pts_dict T !! pjj); apply IH.
Qed.

Lemma no_nie_good_autos (T : Triangulation) pts allowed autos :
  no_nie (good_autos T pts allowed autos).
Proof.
  unfold good_autos. apply no_nie_bind.
  - apply no_nie_mapM. intros [i a]. apply no_nie_auto_is_good.
  - intros flags. apply no_nie_mapM. intros [[] a]; [|done].
    apply no_nie_bind; [apply no_nie_reindex_auto|done].
Qed.

Lemma no_nie_orbit_round autos gens orbit :
  no_nie (orbit_round autos gens orbit).
Proof.
  unfold orbit_round. apply no_nie_bind; [|done].
  apply no_nie_mapM. intros simps. apply no_nie_mapM. intros i.
  apply no_nie_bind; [apply no_nie_py_getitem|]. intros a.
  apply no_nie_apply_auto.
Qed.

Lemma no_nie_orbit_closure (fuel : nat) autos gens : ∀ orbit,
  no_nie (orbit_closure fuel autos gens orbit).
Proof.
  induction fuel as [|fuel IH]; intros orbit; simpl.
  - apply no_nie_bind; [apply no_nie_orbit_round|]. by intros [|? ?].
  - apply no_nie_bind; [apply no_nie_orbit_round|]. intros [|? ?]; [done|apply IH].
Qed.

Lemma no_nie_face_indices (T : Triangulation) pts : no_nie (face_indices T pts).
Proof.
  unfold face_indices. apply no_nie_bind; [|done].
  apply no_nie_mapM. intros pt. apply no_nie_dict_getitem.
Qed.

Lemma no_nie_simplices_on_faces (d : Z) (T : Triangulation) :
  no_nie (simplices_on_faces d T).1.
Proof.
  unfold simplices_on_faces. destruct (_ || _); [done|].
  destruct (_restricted_simplices T !! d); [done|].
  destruct (restricted_simplices T d) as [r|e|] eqn:Hr; simpl; [done| |done].
  intros msg [= ->]. revert Hr. unfold restricted_simplices.
  pose proof (no_nie_mapM (face_indices T)
    ((λ face, filter (λ pt, is_Some (_pts_dict T !! pt)) face) <$>
       poly_faces_points (polytope T) d) (no_nie_face_indices T)) as Hm.
  destruct (result_mapM _ _) as [x|e|]; simpl; [done| |done].
  intros [= ->]. by apply (Hm msg).
Qed.

(** *** [automorphism_orbit] *)

Ltac nie_from H :=
  first [ done | let msg := fresh "msg" in intros msg [= ->]; by apply (H msg) ].

Lemma automorphism_orbit_not_fulldim (T : Triangulation) fuel a d c :
  _is_fulldim T = false →
  (automorphism_orbit fuel a d c T).1 = Raise (NotImplementedError msg_auto).
Proof.
  intros Hf. unfold automorphism_orbit, mbind, M_bind, get. by rewrite Hf.
Qed.

Lemma automorphism_orbit_fulldim (T : Triangulation) fuel a d c :
  _is_fulldim T = true → no_nie (automorphism_orbit fuel a d c T).1.
Proof.
  intros Hf. unfold automorphism_orbit, mbind, M_bind, get, lift, mret, M_ret, modify.
  rewrite Hf. simpl.
  set (faces_dim := match d with Some d0 => d0 | None => _ end).
  destruct (_automorphism_orbit T !! (a, faces_dim)); [done|].
  pose proof (no_nie_simplices_on_faces faces_dim T) as Hs.
  destruct (simplices_on_faces faces_dim T) as [[simps|e|] T1]; simpl in *;
    [|nie_from Hs|done].
  pose proof (no_nie_good_autos T1 (poly_points (polytope T1)) a
                (poly_automorphisms (polytope T1))) as Hg.
  destruct (good_autos _ _ _ _) as [autos|e|]; simpl; [|nie_from Hg|done].
  pose proof (no_nie_mapM (apply_auto simps) (filter (λ a0, is_Some a0) autos)
                (no_nie_apply_auto simps)) as Hi.
  destruct (result_mapM _ _) as [images|e|]; simpl; [|nie_from Hi|done].
  destruct a as [gens|]; [|done].
  pose proof (no_nie_orbit_closure fuel autos gens (list_to_set images)) as Hc.
  destruct (orbit_closure _ _ _ _) as [orbit|e|]; simpl; [done|nie_from Hc|done].
Qed.

(** *** [get_toric_variety] and [sr_ideal] *)

Lemma get_toric_variety_result (T : Triangulation) :
  star_cache_ok T → _toricvariety T = None →
  (get_toric_variety T).1 =
    if negb (_is_fulldim T) then Raise (NotImplementedError msg_tv_fulldim)
    else if negb (is_star_compute T) then Raise (NotImplementedError msg_tv_star)
    else Ok (ToricVariety_of (_poly T) (_pts T) (_simplices T)).
Proof.
  intros Hc Hn. unfold get_toric_variety. rewrite Hn.
  destruct (_is_fulldim T); [|done]. simpl.
  unfold mbind, M_bind.
  pose proof (is_star_default T Hc) as Hs.
  pose proof (is_star_state None T) as HT1.
  destruct (is_star None T) as [r T1]. simpl in *. subst r.
  destruct (is_star_compute T); simpl; [|done].
  unfold get, modify, mret, M_ret.
  destruct HT1 as [->|[b ->]]; done.
Qed.

Lemma sr_ideal_result (T : Triangulation) :
  star_cache_ok T → _sr_ideal T = None →
  (sr_ideal T).1 =
    if negb (is_star_compute T) || negb (_is_fulldim T)
    then Raise (NotImplementedError msg_sr)
    else Ok (sr_compute T).
Proof.
  intros Hc Hn. unfold sr_ideal. rewrite Hn.
  unfold mbind, M_bind.
  pose proof (is_star_default T Hc) as Hs.
  pose proof (is_star_state None T) as HT1.
  destruct (is_star None T) as [r T1]. simpl in *. subst r.
  unfold get, modify, mret, M_ret.
  assert (Hf : _is_fulldim T1 = _is_fulldim T) by (destruct HT1 as [->|[b ->]]; done).
  rewrite Hf.
  destruct (negb (is_star_compute T) || negb (_is_fulldim T)); [done|].
  simpl. destruct HT1 as [->|[b ->]]; done.
Qed.

(** C9: on an object with coherent caches, [get_toric_variety] and
    [sr_ideal] raise [NotImplementedError] when the configuration is not
    full-dimensional or the triangulation is not star, and return a result
    otherwise; [automorphism_orbit] raises [NotImplementedError] when the
    configuration is not full-dimensional and never raises it otherwise. *)
Theorem not_implemented_guards (T : Triangulation) :
  star_cache_ok T → toricvariety_cache_ok T → sr_guard_cache_ok T →
  (_is_fulldim T = false ∨ is_star_compute T = false →
     (∃ msg, (get_toric_variety T).1 = Raise (NotImplementedError msg)) ∧
     (∃ msg, (sr_ideal T).1 = Raise (NotImplementedError msg))) ∧
  (_is_fulldim T = true ∧ is_star_compute T = true →
     (∃ tv, (get_toric_variety T).1 = Ok tv) ∧
     (∃ sr, (sr_ideal T).1 = Ok sr)) ∧
  (_is_fulldim T = false →
     ∀ fuel a d c, ∃ msg,
       (automorphism_orbit fuel a d c T).1 = Raise (NotImplementedError msg)) ∧
  (_is_fulldim T = true →
     ∀ fuel a d c msg,
       (automorphism_orbit fuel a d c T).1 ≠ Raise (NotImplementedError msg)).
Proof.
  intros Hstar Htv Hsr. split_and!.
  - intros Hbad.
    assert (Htn : _toricvariety T = None).
    { destruct (_toricvariety T) eqn:Hq; [|done].
      destruct Htv as [? ?]; [by rewrite Hq|]. destruct Hbad; congruence. }
    assert (Hsn : _sr_ideal T = None).
    { destruct (_sr_ideal T) eqn:Hq; [|done].
      destruct Hsr as [? ?]; [by rewrite Hq|]. destruct Hbad; congruence. }
    rewrite get_toric_variety_result, sr_ideal_result by done.
    destruct Hbad as [-> | ->]; simpl.
    + split; [by eexists|]. rewrite orb_true_r. by eexists.
    + split; [destruct (_is_fulldim T); by eexists|by eexists].
  - intros [Hf Hs]. split.
    + destruct (_toricvariety T) as [tv|] eqn:Hq.
      * exists tv. unfold get_toric_variety. by rewrite Hq.
      * rewrite get_toric_variety_result, Hf, Hs by done. by eexists.
    + destruct (_sr_ideal T) as [sr|] eqn:Hq.
      * exists sr. unfold sr_ideal. by rewrite Hq.
      * rewrite sr_ideal_result, Hf, Hs by done. by eexists.
  - intros Hf fuel a d c. exists msg_auto. by apply automorphism_orbit_not_fulldim.
  - intros Hf fuel a d c msg. by apply automorphism_orbit_fulldim.
Qed.

End GuardProofs.

Section FlipProofs.
Context `{E : Externals}.

(** A neighbour passes when every filter that is switched on answers
    [True]; the filters run in the order fine, star, regular, each on the
    object as the previous one left it, and a filter that is switched off
    is not run. *)
Lemma passes_filters_true (R : option string → M Triangulation bool)
    (only_fine only_star only_regular : bool) (backend : option string)
    (t : Triangulation) :
  (passes_filters R only_fine only_star only_regular backend t).1 = Ok true ↔
  ∃ t1 t2,
    (if only_fine then is_fine t = (Ok true, t1) else t1 = t) ∧
    (if only_star then is_star None t1 = (Ok true, t2) else t2 = t1) ∧
    (if only_regular then (R backend t2).1 = Ok true else True).
Proof.
  unfold passes_filters, mbind, M_bind, mret, M_ret.
  destruct only_fine, only_star, only_regular; cbn [negb fst snd].
  all: repeat
    match goal with
    | |- context [is_fine ?x] =>
        destruct (is_fine x) as [[[]|?|] ?] eqn:?; cbn [negb fst snd]
    | |- context [is_star None ?x] =>
        destruct (is_star None x) as [[[]|?|] ?] eqn:?; cbn [negb fst snd]
    end.
  all: split;
    [ intros H; try discriminate H; do 2 eexists; split_and!; (done || eassumption)
    | intros (? & ? & ? & ? & ?); simplify_eq; first [done | congruence] ].
Qed.




















End FlipProofs.

Section InitProofs.
Context `{E : Externals}.

Lemma keeps_origin_ret {A} (a : A) : keeps_origin (mret a).
Proof. done. Qed.
Lemma keeps_origin_raise {A} (e : exn) : keeps_origin (raise (A:=A) e).
Proof. done. Qed.
Lemma keeps_origin_lift {A} (r : result A) : keeps_origin (lift r).
Proof. done. Qed.
Lemma keeps_origin_get : keeps_origin get.
Proof. done. Qed.
Lemma keeps_origin_modify (f : Triangulation → Triangulation) :
  (∀ T, _origin_index (f T) = _origin_index T) → keeps_origin (modify f).
Proof. intros H T. apply H. Qed.
Lemma keeps_origin_bind {A B} (m : M Triangulation A) (k : A → M Triangulation B) :
  keeps_origin m → (∀ a, keeps_origin (k a)) → keeps_origin (m ≫= k).
Proof.
  intros Hm Hk T. unfold mbind, M_bind. specialize (Hm T).
  destruct (m T) as [[a|e|] T1]; simpl in *; [|done|done].
  by rewrite Hk.
Qed.

Lemma keeps_origin_is_fine : keeps_origin is_fine.
Proof.
  intros T. unfold is_fine. destruct (_is_fine T); [done|].
  by destruct (_simplices T).
Qed.
Lemma keeps_origin_is_star o : keeps_origin (is_star o).
Proof.
  intros T. unfold is_star. destruct o; [done|]. by destruct (_is_star T).
Qed.
Lemma keeps_origin_gkz_phi : keeps_origin gkz_phi.
Proof.
  intros T. unfold gkz_phi. destruct (_gkz_phi T); [done|].
  by destruct (gkz_loop _ _ _).
Qed.

End InitProofs.

Create HintDb keeps_origin.
#[export] Hint Resolve keeps_origin_ret keeps_origin_raise keeps_origin_lift
  keeps_origin_get keeps_origin_is_fine keeps_origin_is_star
  keeps_origin_gkz_phi : keeps_origin.

(** Walk down a method written with binds, conditionals and matches. *)
Ltac keeps_origin_tac :=
  lazymatch goal with
  | |- keeps_origin (mbind _ _) =>
      apply keeps_origin_bind; [keeps_origin_tac | intros ?; keeps_origin_tac]
  | |- keeps_origin (modify _) =>
      apply keeps_origin_modify; intros ?; try done
  | |- keeps_origin (if ?b then _ else _) => destruct b; keeps_origin_tac
  | |- keeps_origin (match ?x with _ => _ end) => destruct x; keeps_origin_tac
  | |- keeps_origin (let '(_, _) := ?x in _) => destruct x; keeps_origin_tac
  | |- _ => auto with keeps_origin
  end.

Section InitProofs2.
Context `{E : Externals}.

Lemma keeps_origin_set_cone_slot include c :
  keeps_origin (modify (set_cone_slot include c)).
Proof. intros T. unfold modify, set_cone_slot. by destruct include. Qed.
#[local] Hint Resolve keeps_origin_set_cone_slot : keeps_origin.

Lemma keeps_origin_native_hyperplanes : keeps_origin native_hyperplanes.
Proof. unfold native_hyperplanes. keeps_origin_tac. Qed.
#[local] Hint Resolve keeps_origin_native_hyperplanes : keeps_origin.

Lemma keeps_origin_secondary_cone_body nbrs backend include :
  (∀ a b c d e, keeps_origin (nbrs a b c d e)) →
  keeps_origin (secondary_cone_body nbrs backend include).
Proof.
  intros Hn. unfold secondary_cone_body. keeps_origin_tac.
  all: apply keeps_origin_set_cone_slot.
Qed.

Lemma keeps_origin_is_regular_body nbrs backend :
  (∀ a b c d e, keeps_origin (nbrs a b c d e)) →
  keeps_origin (is_regular_body nbrs backend).
Proof.
  intros Hn. pose proof (keeps_origin_secondary_cone_body nbrs) as Hc.
  unfold is_regular_body. keeps_origin_tac.
Qed.

Lemma keeps_origin_heights_body nbrs integral backend :
  (∀ a b c d e, keeps_origin (nbrs a b c d e)) →
  keeps_origin (heights_body nbrs integral backend).
Proof.
  intros Hn. pose proof (keeps_origin_secondary_cone_body nbrs) as Hc.
  unfold heights_body. keeps_origin_tac.
Qed.

Lemma keeps_origin_check_heights_body nbrs verbosity :
  (∀ a b c d e, keeps_origin (nbrs a b c d e)) →
  keeps_origin (check_heights_body nbrs verbosity).
Proof.
  intros Hn. pose proof (keeps_origin_secondary_cone_body nbrs) as Hc.
  unfold check_heights_body. keeps_origin_tac.
Qed.

Lemma keeps_origin_neighbor_triangulations f r s backend verbose :
  keeps_origin (neighbor_triangulations f r s backend verbose).
Proof.
  unfold neighbor_triangulations, neighbor_triangulations_body,
    _fine_neighbors_2d_body.
  keeps_origin_tac.
Qed.
#[local] Hint Resolve keeps_origin_neighbor_triangulations : keeps_origin.

Lemma keeps_origin_check_heights v : keeps_origin (check_heights v).
Proof. apply keeps_origin_check_heights_body. auto with keeps_origin. Qed.

Lemma keeps_origin_is_valid backend : keeps_origin (is_valid backend).
Proof.
  pose proof (keeps_origin_is_regular_body neighbor_triangulations) as Hr.
  pose proof (keeps_origin_heights_body neighbor_triangulations) as Hh.
  unfold is_valid, is_valid_body, set_and_return_valid. keeps_origin_tac.
Qed.

Lemma keeps_origin_to_star : keeps_origin _to_star.
Proof.
  intros T. unfold _to_star. destruct (negb _); [done|].
  unfold mbind at 1 2, M_bind, lift, modify.
  destruct (result_mapM _ _); simpl; [|done|done].
  destruct (py_getitem _ _); done.
Qed.

End InitProofs2.

#[export] Hint Resolve keeps_origin_set_cone_slot keeps_origin_native_hyperplanes
  keeps_origin_neighbor_triangulations keeps_origin_check_heights
  keeps_origin_is_valid keeps_origin_to_star : keeps_origin.

Section InitProofs3.
Context `{E : Externals}.

Lemma list_index_from_absent {A} `{EqDecision A} (l : list A) (x : A) : ∀ n,
  x ∉ l → list_index_from x l n = Raise (ValueError "x not in list").
Proof.
  induction l as [|y l IH]; intros n Hx; simpl; [done|].
  destruct (decide (x = y)) as [->|Hne]; [set_solver|].
  apply IH. set_solver.
Qed.

Lemma list_index_absent {A} `{EqDecision A} (l : list A) (x : A) :
  x ∉ l → list_index l x = Raise (ValueError "x not in list").
Proof. apply list_index_from_absent. Qed.

Lemma zero_vector_not_listed (a : init_args) (k : nat) :
  (∀ pt, pt ∈ poly_points_which (arg_poly a) (arg_pts a) → ¬ is_zero_vector pt) →
  replicate k 0 ∉ listed_points a.
Proof.
  intros Hno [Hin _]%list_elem_of_filter.
  apply elem_of_list_to_set in Hin. apply (Hno _ Hin).
  apply Forall_replicate. done.
Qed.

Lemma run_init_origin {A} (m : M Triangulation A) (T0 T : Triangulation) :
  keeps_origin m → run_init m T0 = Ok T → _origin_index T = _origin_index T0.
Proof.
  intros Hm. unfold run_init. specialize (Hm T0).
  destruct (m T0) as [[x|e|] T1]; simpl in *; intros; simplify_eq. done.
Qed.

Lemma keeps_origin_star_or_not (b : bool) :
  keeps_origin (if b then _to_star else mret tt).
Proof. destruct b; auto with keeps_origin. Qed.

Lemma init_from_simplices_origin (valid : option string → M Triangulation bool)
    (chk ms : bool) (n : nat) (d c : Z)
    (object : list (list Z) → option (list F) → Triangulation)
    (simps : list (list Z)) (T : Triangulation) :
  keeps_origin (valid None) →
  (∀ s h, _origin_index (object s h) = c) →
  init_from_simplices valid chk ms n d object simps = Ok T →
  _origin_index T = c.
Proof.
  intros Hv Hobj. unfold init_from_simplices.
  unfold mbind at 1 2, result_mbind, result_bind.
  destruct (shape1 simps); [|done|done].
  destruct (negb _); [done|].
  destruct (if chk then _ else _); [|done|done].
  intros H. apply run_init_origin in H; [by rewrite H|].
  keeps_origin_tac.
Qed.

Lemma preset_origin (b : option bool) (T : Triangulation) :
  _origin_index (set_is_valid (Some true) (set_is_regular b T)) = _origin_index T.
Proof. done. Qed.

Lemma init_from_heights_origin (chr : Z → M Triangulation unit) (fuel : nat)
    (backend : string) (heights : option (list F)) (nlabels : nat)
    (ms chk : bool) (verbosity origin c : Z) (pts pts_optimal : list (list Z))
    (object : list (list Z) → option (list F) → Triangulation)
    (T : Triangulation) :
  (∀ v, keeps_origin (chr v)) →
  (∀ s h, _origin_index (object s h) = c) →
  init_from_heights chr fuel backend heights nlabels ms chk verbosity origin
    pts pts_optimal object = Ok T →
  _origin_index T = c.
Proof.
  intros Hc Hobj. unfold init_from_heights.
  unfold mbind, result_mbind, result_bind, mret, result_ret. cbv zeta.
  destruct (match heights with Some _ => _ | None => _ end) as [h'| |]; [|done|done].
  match goal with
  | |- match ?x with _ => _ end = _ → _ =>
      assert (Hx : ∀ T1, x = Ok T1 → _origin_index T1 = c); [|destruct x as [T1| |]; [|done|done]]
  end.
  - intros T1.
    destruct (String.eqb backend "qhull").
    { destruct h'; [|done]. destruct (_qhull_triangulate _ _); [|done|done].
      intros H. apply run_init_origin in H; [|apply keeps_origin_star_or_not].
      rewrite H. apply Hobj. }
    destruct (String.eqb backend "cgal").
    { destruct h'; [|done]. destruct (_cgal_triangulate _ _); [|done|done].
      destruct ms.
      - destruct (negb _); [done|].
        destruct (f_list_max _); [|done|done].
        destruct (f_list_min _); [|done|done].
        destruct (cgal_star_loop _ _ _ _ _) as [[? ?]| |]; [|done|done].
        intros [= <-]. apply Hobj.
      - intros [= <-]. apply Hobj. }
    destruct (_topcom_triangulate _); [|done|done].
    intros H. apply run_init_origin in H; [|apply keeps_origin_star_or_not].
    rewrite H. apply Hobj.
  - specialize (Hx T1 eq_refl).
    destruct (chk && _).
    + intros H. apply run_init_origin in H; [|apply Hc]. congruence.
    + intros [= <-]. done.
Qed.

(** C10: when no point of the configuration is the zero vector, the
    constructor called with [make_star=True] returns exactly what it
    returns with [make_star=False], error or object, and the object has
    [_origin_index = -1]. *)
Theorem make_star_without_origin_is_ignored (fuel : nat) (a : init_args) :
  (∀ pt, pt ∈ poly_points_which (arg_poly a) (arg_pts a) → ¬ is_zero_vector pt) →
  __init__ fuel (with_make_star true a) = __init__ fuel (with_make_star false a) ∧
  ∀ T, __init__ fuel (with_make_star true a) = Ok T → _origin_index T = -1.
Proof.
  intros Hno.
  pose proof (zero_vector_not_listed a (Z.to_nat (poly_dim (arg_poly a))) Hno) as Hz.
  apply list_index_absent in Hz. unfold listed_points, config_points in Hz.
  split.
  - unfold __init__, init_body. cbn [with_make_star arg_poly arg_pts arg_heights
      arg_make_star arg_simplices arg_check_input_simplices arg_check_heights
      arg_backend arg_verbosity].
    rewrite !Hz. reflexivity.
  - intros T. unfold __init__, init_body. cbn [with_make_star arg_poly arg_pts
      arg_heights arg_make_star arg_simplices arg_check_input_simplices
      arg_check_heights arg_backend arg_verbosity].
    rewrite !Hz. unfold mbind, result_mbind, result_bind, mret, result_ret.
    destruct (match arg_backend a with Some _ => _ | None => _ end); [|done|done].
    destruct (negb _); [done|].
    destruct (bool_decide (size _ = 0%nat)); [done|].
    destruct (match arg_simplices a with Some _ => _ | None => _ end)
      as [simplices| |]; [|done|done].
    destruct (if bool_decide _ then _ else _) as [pts_optimal| |]; [|done|done].
    destruct simplices as [simps|].
    + destruct (init_from_simplices _ _ _ _ _ _ _) as [T1| |] eqn:H1; [|done|done].
      apply init_from_simplices_origin with (c := -1) in H1;
        [|auto with keeps_origin|done].
      intros [= <-]. done.
    + destruct (init_from_heights _ _ _ _ _ _ _ _ _ _ _ _) as [T1| |] eqn:H1;
        [|done|done].
      apply init_from_heights_origin with (c := -1) in H1;
        [|auto with keeps_origin|done].
      intros [= <-]. done.
Qed.

End InitProofs3.

Section ErrorProofs.
Context `{E : Externals}.


Lemma elem_of_canonical_simplices (simps : list (list Z)) (r : list Z) :
  r ∈ canonical_simplices simps ↔ ∃ s, s ∈ simps ∧ r = sorted_ints s.
Proof.
  unfold canonical_simplices, sorted_tuples.
  rewrite merge_sort_Permutation, list_elem_of_fmap. naive_solver.
Qed.


Lemma forallb_elem_of' {A} (f : A → bool) (l : list A) :
  forallb f l = true ↔ ∀ x, x ∈ l → f x = true.
Proof.
  rewrite forallb_forall. split; intros H x Hx; apply H; by apply list_elem_of_In.
Qed.
















End ErrorProofs.


Section EqProofs.
Context `{E : Externals}.

Lemma eq_iff (t1 t2 : Triangulation) :
  __eq__ t1 t2 = true ↔
  poly_eq (polytope t1) (polytope t2) = true ∧
  sorted_tuples (simplices t1) = sorted_tuples (simplices t2).
Proof.
  unfold __eq__. cbv zeta.
  rewrite andb_true_iff, bool_decide_eq_true. done.
Qed.

Lemma ne_is_not_eq (t1 t2 : Triangulation) : __ne__ t1 t2 = negb (__eq__ t1 t2).
Proof. reflexivity. Qed.

(** The hash only depends on the points and the simplices, so that
    triangulations that agree on both have one hash. *)
Lemma hash_value_ext (t1 t2 : Triangulation) :
  points t1 = points t2 → simplices t1 = simplices t2 →
  hash_value t1 = hash_value t2.
Proof. unfold hash_value. by intros -> ->. Qed.

End EqProofs.

(** C3: [t1 == t2] holds iff the polytopes are equal and the sorted
    simplex lists are equal, and [t1 != t2] is its negation; but the hash
    is computed from the points of the configuration and the simplices, so
    that the two triangulations of the segment below, which are equal,
    have different hashes. *)
Theorem equal_triangulations_with_different_hashes :
  (∀ (E : Externals) (t1 t2 : Triangulation),
     (__eq__ t1 t2 = true ↔
      poly_eq (polytope t1) (polytope t2) = true ∧
      sorted_tuples (simplices t1) = sorted_tuples (simplices t2)) ∧
     __ne__ t1 t2 = negb (__eq__ t1 t2)) ∧
  (t1 ← segment_coarse; t2 ← segment_coarse_with_spare_point;
   Ok (points t1, points t2, simplices t1, simplices t2,
       __eq__ t1 t2, __ne__ t1 t2, (__hash__ t1).1, (__hash__ t2).1))
  = Ok ([[0]; [-2]; [2]], [[0]; [-2]; [2]; [-1]],
        [[0; 1]; [0; 2]], [[0; 1]; [0; 2]],
        true, false, Ok 378451212444278792, Ok 6511442766702565041).
Proof.
  split.
  - intros E t1 t2. split; [apply eq_iff|apply ne_is_not_eq].
  - vm_compute. reflexivity.
Qed.

Section FrameProofs.
Context `{E : Externals}.

Lemma cache_only_ret {A} (a : A) : cache_only (mret a).
Proof. done. Qed.
Lemma cache_only_raise {A} (e : exn) : cache_only (raise (A:=A) e).
Proof. done. Qed.
Lemma cache_only_lift {A} (r : result A) : cache_only (lift r).
Proof. done. Qed.
Lemma cache_only_get : cache_only get.
Proof. done. Qed.
Lemma cache_only_modify (f : Triangulation → Triangulation) :
  (∀ T, clear_cache (f T) = clear_cache T) → cache_only (modify f).
Proof. intros H T. apply H. Qed.
Lemma cache_only_bind {A B} (m : M Triangulation A) (k : A → M Triangulation B) :
  cache_only m → (∀ a, cache_only (k a)) → cache_only (m ≫= k).
Proof.
  intros Hm Hk T. unfold mbind, M_bind. specialize (Hm T).
  destruct (m T) as [[a|e|] T1]; simpl in *; [|done|done].
  by rewrite Hk.
Qed.

Lemma cache_only_is_fine : cache_only is_fine.
Proof.
  intros T. unfold is_fine. destruct (_is_fine T); [done|].
  by destruct (_simplices T).
Qed.
Lemma cache_only_is_star o : cache_only (is_star o).
Proof.
  intros T. unfold is_star. destruct o; [done|]. by destruct (_is_star T).
Qed.
Lemma cache_only_gkz_phi : cache_only gkz_phi.
Proof.
  intros T. unfold gkz_phi. destruct (_gkz_phi T); [done|].
  by destruct (gkz_loop _ _ _).
Qed.
Lemma cache_only_hash : cache_only __hash__.
Proof. intros T. unfold __hash__. by destruct (_hash T). Qed.
Lemma cache_only_simplices_on_faces d : cache_only (simplices_on_faces d).
Proof.
  intros T. unfold simplices_on_faces. destruct (_ || _); [done|].
  destruct (_ !! _); [done|]. by destruct (restricted_simplices _ _).
Qed.

End FrameProofs.

Create HintDb cache_only.
#[export] Hint Resolve cache_only_ret cache_only_raise cache_only_lift
  cache_only_get cache_only_is_fine cache_only_is_star cache_only_gkz_phi
  cache_only_hash cache_only_simplices_on_faces : cache_only.

(** Walk down a method written with binds, conditionals and matches. *)
Ltac cache_only_tac :=
  lazymatch goal with
  | |- cache_only (mbind _ _) =>
      apply cache_only_bind; [cache_only_tac | intros ?; cache_only_tac]
  | |- cache_only (modify _) =>
      apply cache_only_modify; intros ?; try done
  | |- cache_only (if ?b then _ else _) => destruct b; cache_only_tac
  | |- cache_only (match ?x with _ => _ end) => destruct x; cache_only_tac
  | |- cache_only (let '(_, _) := ?x in _) => destruct x; cache_only_tac
  | |- cache_only (let _ := _ in _) => cbv zeta; cache_only_tac
  | |- _ => auto with cache_only
  end.

Section FrameProofs2.
Context `{E : Externals}.

Lemma cache_only_set_cone_slot include c :
  cache_only (modify (set_cone_slot include c)).
Proof. intros T. unfold modify, set_cone_slot. by destruct include. Qed.
#[local] Hint Resolve cache_only_set_cone_slot : cache_only.

Lemma cache_only_get_toric_variety : cache_only get_toric_variety.
Proof.
  intros T. unfold get_toric_variety. destruct (_toricvariety T); [done|].
  destruct (negb _); [done|]. revert T.
  change (cache_only
    (star ← is_star None;
     if negb star then raise (NotImplementedError msg_tv_star)
     else T' ← get;
          let tv := ToricVariety_of (_poly T') (_pts T') (_simplices T') in
          modify (set_toricvariety (Some tv));; mret tv)).
  cache_only_tac.
Qed.

Lemma cache_only_sr_ideal : cache_only sr_ideal.
Proof.
  intros T. unfold sr_ideal. destruct (_sr_ideal T); [done|]. revert T.
  change (cache_only
    (star ← is_star None;
     T' ← get;
     if negb star || negb (_is_fulldim T') then raise (NotImplementedError msg_sr)
     else let sr := sr_compute T' in
          modify (set_sr_ideal (Some sr));; mret sr)).
  cache_only_tac.
Qed.

Lemma cache_only_native_hyperplanes : cache_only native_hyperplanes.
Proof. unfold native_hyperplanes. cache_only_tac. Qed.
#[local] Hint Resolve cache_only_native_hyperplanes : cache_only.

Lemma cache_only_secondary_cone_body nbrs backend include :
  (∀ a b c d e, cache_only (nbrs a b c d e)) →
  cache_only (secondary_cone_body nbrs backend include).
Proof.
  intros Hn. unfold secondary_cone_body. cache_only_tac.
  all: apply cache_only_set_cone_slot.
Qed.

Lemma cache_only_is_regular_body nbrs backend :
  (∀ a b c d e, cache_only (nbrs a b c d e)) →
  cache_only (is_regular_body nbrs backend).
Proof.
  intros Hn. pose proof (cache_only_secondary_cone_body nbrs) as Hc.
  unfold is_regular_body. cache_only_tac.
Qed.

Lemma cache_only_neighbor_triangulations f r s backend verbose :
  cache_only (neighbor_triangulations f r s backend verbose).
Proof.
  unfold neighbor_triangulations, neighbor_triangulations_body,
    _fine_neighbors_2d_body.
  cache_only_tac.
Qed.
#[local] Hint Resolve cache_only_neighbor_triangulations : cache_only.

Lemma cache_only_secondary_cone backend include :
  cache_only (secondary_cone backend include).
Proof. apply cache_only_secondary_cone_body. auto with cache_only. Qed.

Lemma cache_only_is_regular backend : cache_only (is_regular backend).
Proof. apply cache_only_is_regular_body. auto with cache_only. Qed.

Lemma cache_only_automorphism_orbit fuel automorphism d c :
  cache_only (automorphism_orbit fuel automorphism d c).
Proof. unfold automorphism_orbit. cache_only_tac. Qed.

Lemma cache_only_random_flips N f r s backend seed :
  cache_only (random_flips N f r s backend seed).
Proof.
  intros T. unfold random_flips. destruct (Z.to_nat N); [done|].
  pose proof (cache_only_bind
    (neighbor_triangulations false false false None false)
    (λ neighbors,
       lift (first_accepted (truthy f) (truthy s) (truthy r) backend
               (np_random_shuffle seed 0 Triangulation neighbors)))
    (cache_only_neighbor_triangulations _ _ _ _ _)
    (λ _, cache_only_lift _) T) as H.
  fold (flip_step f r s backend seed 0) in H.
  by destruct (flip_step f r s backend seed 0 T) as [[t|e|] T1].
Qed.

(** What a method that only writes caches leaves alone. *)
Lemma cache_only_fields {A} (m : M Triangulation A) (T : Triangulation) :
  cache_only m →
  let T' := (m T).2 in
  _simplices T' = _simplices T ∧ _pts T' = _pts T ∧
  _pts_optimal T' = _pts_optimal T ∧ _poly T' = _poly T ∧
  _pt_labels T' = _pt_labels T ∧ _dim T' = _dim T ∧
  _ambient_dim T' = _ambient_dim T ∧ _is_fulldim T' = _is_fulldim T ∧
  _origin_index T' = _origin_index T ∧ _pts_dict T' = _pts_dict T ∧
  _backend T' = _backend T ∧ _heights T' = _heights T ∧
  _pts_triang_to_poly T' = _pts_triang_to_poly T.
Proof.
  intros Hm T'. specialize (Hm T). fold T' in Hm.
  split_and!.
  - exact (f_equal _simplices Hm).
  - exact (f_equal _pts Hm).
  - exact (f_equal _pts_optimal Hm).
  - exact (f_equal _poly Hm).
  - exact (f_equal _pt_labels Hm).
  - exact (f_equal _dim Hm).
  - exact (f_equal _ambient_dim Hm).
  - exact (f_equal _is_fulldim Hm).
  - exact (f_equal _origin_index Hm).
  - exact (f_equal _pts_dict Hm).
  - exact (f_equal _backend Hm).
  - exact (f_equal _heights Hm).
  - exact (f_equal _pts_triang_to_poly Hm).
Qed.

End FrameProofs2.

#[export] Hint Resolve cache_only_set_cone_slot cache_only_native_hyperplanes
  cache_only_neighbor_triangulations cache_only_secondary_cone
  cache_only_is_regular cache_only_get_toric_variety cache_only_sr_ideal
  cache_only_automorphism_orbit : cache_only.

Section ValidProofs.
Context `{E : Externals}.

(** The first loop of the fallback: it stops at the first simplex without
    volume, and adds the volumes up otherwise. *)
Lemma volume_sum_spec (pe : list (list Z)) (simps : list (list Z)) : ∀ v0,
  (∀ s, s ∈ simps → ∀ i, i ∈ s → 0 ≤ i < Z.of_nat (length pe)) →
  volume_sum pe simps v0 =
    if bool_decide (0 ∈ valid_vol pe <$> simps) then Ok None
    else Ok (Some (v0 + zsum (valid_vol pe <$> simps))).
Proof.
  induction simps as [|s simps IH]; intros v0 Hr; cbn [volume_sum].
  - rewrite bool_decide_eq_false_2 by set_solver. simpl. do 2 f_equal. lia.
  - destruct (result_mapM_getitem_ok pe s) as [rows Hrows]; [apply Hr; set_solver|].
    assert (Hv : valid_vol pe s = Z.abs (py_round (np_linalg_det rows))).
    { unfold valid_vol. by rewrite Hrows. }
    rewrite Hrows. unfold mbind, result_mbind, result_bind. rewrite <- Hv.
    rewrite fmap_cons.
    destruct (decide (valid_vol pe s = 0)) as [H0|H0].
    + rewrite bool_decide_eq_true_2 by done.
      rewrite bool_decide_eq_true_2; [done|]. rewrite H0. set_solver.
    + rewrite bool_decide_eq_false_2 by done.
      rewrite IH by (intros; eapply Hr; [right|]; done).
      destruct (decide (0 ∈ valid_vol pe <$> simps)) as [H1|H1].
      * rewrite bool_decide_eq_true_2 by done.
        rewrite bool_decide_eq_true_2; [done|]. set_solver.
      * rewrite bool_decide_eq_false_2 by done.
        rewrite bool_decide_eq_false_2.
        -- cbn [zsum foldr]. unfold zsum. do 2 f_equal. lia.
        -- intros [?|?]%elem_of_cons; [congruence|done].
Qed.

(** The second loop of the fallback stops at its first pair. *)
Lemma solid_intersection_raises (pe : list (list Z)) (simps : list (list Z)) :
  (2 ≤ length simps)%nat → solid_intersection pe simps = Raise TypeError.
Proof. destruct simps as [|s1 [|s2 rest]]; simpl; [lia|lia|done]. Qed.

(** C1: on the definitional fallback of [is_valid] (no cached answer, at
    least two simplices, [is_regular] answers [False]), a simplex without
    volume gives [False] and a sum of volumes other than the scaled volume
    of the convex hull gives [False]; when every simplex has volume and the
    sum matches, the test for solid intersections indexes the Python list
    [pts_ext] with a row of the simplex array and the call ends in
    [TypeError]: the fallback never returns [True]. *)
Theorem is_valid_fallback_never_accepts (backend : option string)
    (T : Triangulation) :
  (2 ≤ length (simplices T))%nat → _is_valid T = None →
  (is_regular backend T).1 = Ok false →
  Forall (Forall (λ i, 0 ≤ i < Z.of_nat (length (_pts_optimal T))))
    (simplices T) →
  let vols := valid_vol (pts_ext T) <$> simplices T in
  let poly_vol := convex_hull_volume_scaled (_pts_optimal T) (_dim T) in
  (0 ∈ vols → (is_valid backend T).1 = Ok false) ∧
  (0 ∉ vols → zsum vols ≠ poly_vol → (is_valid backend T).1 = Ok false) ∧
  (0 ∉ vols → zsum vols = poly_vol → (is_valid backend T).1 = Raise TypeError).
Proof.
  intros Hlen Hcache Hreg Hr vols poly_vol.
  assert (Hstep : (is_valid backend T).1 =
    match volume_sum (pts_ext T) (simplices T) 0 with
    | Ok None => Ok false
    | Ok (Some v) =>
        if negb (bool_decide (v = poly_vol)) then Ok false else Raise TypeError
    | Raise e => Raise e
    | OutOfFuel => OutOfFuel
    end).
  { unfold is_valid, is_valid_body.
    unfold mbind at 1, M_bind at 1, get at 1. rewrite Hcache.
    rewrite bool_decide_eq_false_2 by lia.
    fold (is_regular backend).
    pose proof (cache_only_fields (is_regular backend) T
                  (cache_only_is_regular backend)) as Hf. cbv zeta in Hf.
    destruct Hf as (Hs & _ & Ho & _ & _ & Hd & _).
    unfold mbind at 1, M_bind at 1.
    destruct (is_regular backend T) as [r T1]. simpl in Hreg, Hs, Ho, Hd.
    subst r. cbv iota beta.
    unfold mbind at 1, M_bind at 1, get at 1. cbv iota beta zeta.
    assert (Hpe : pts_ext T1 = pts_ext T) by (unfold pts_ext; by rewrite Ho).
    rewrite Hpe, Ho, Hd. fold poly_vol.
    unfold mbind at 1, M_bind at 1, lift at 1.
    destruct (volume_sum _ _ _) as [[v|]| |]; [|done..].
    destruct (negb _); [done|].
    unfold mbind at 1, M_bind at 1, lift at 1.
    by rewrite solid_intersection_raises. }
  rewrite Hstep, volume_sum_spec.
  2:{ intros s Hs i Hi. unfold pts_ext. rewrite length_map.
      rewrite Forall_forall in Hr. specialize (Hr s Hs).
      rewrite Forall_forall in Hr. by apply Hr. }
  fold vols. rewrite Z.add_0_l.
  split_and!.
  - intros H0. by rewrite bool_decide_eq_true_2.
  - intros H0 Hne. rewrite bool_decide_eq_false_2 by done.
    by rewrite bool_decide_eq_false_2.
  - intros H0 Heq. rewrite bool_decide_eq_false_2 by done.
    by rewrite bool_decide_eq_true_2.
Qed.

End ValidProofs.

Lemma is_valid_fallback_never_accepts_witness :
  (is_valid None twisted).1 = Raise TypeError.
Proof.
  apply (is_valid_fallback_never_accepts None twisted).
  - vm_compute. lia.
  - reflexivity.
  - vm_compute. reflexivity.
  - compute_done.
  - compute_done.
  - vm_compute. reflexivity.
Defined.

(** The constructor builds [twisted] when the input simplices are not
    checked. *)
Lemma twisted_built_by_init :
  (T ← __init__ 0 (args_from_simplices triangle4 [0; 1; 2; 3; 4; 5]
                     twisted_simplices);
   Ok (_simplices T, _pts T, _pts_optimal T, _dim T, _ambient_dim T,
       _is_fulldim T, _origin_index T, _pt_labels T, _pts_dict T,
       _is_regular T, _is_valid T))
  = Ok (_simplices twisted, _pts twisted, _pts_optimal twisted, _dim twisted,
        _ambient_dim twisted, _is_fulldim twisted, _origin_index twisted,
        _pt_labels twisted, _pts_dict twisted, None, None).
Proof. vm_compute. reflexivity. Qed.

(** With the check of the input simplices left on, the constructor ends
    in the same error. *)
Lemma checked_constructor_raises_type_error :
  (__init__ 0 {| arg_poly := triangle4; arg_pts := [0; 1; 2; 3; 4; 5];
                 arg_heights := None; arg_make_star := false;
                 arg_simplices := Some twisted_simplices;
                 arg_check_input_simplices := true;
                 arg_check_heights := true;
                 arg_backend := Some "cgal"; arg_verbosity := 1 |}
   ≫= λ _, Ok tt) = Raise TypeError.
Proof. vm_compute. reflexivity. Qed.

(** What the fallback is computed from at [twisted]. *)
Lemma twisted_enters_fallback :
  (is_regular None twisted).1 = Ok false ∧
  zsum (valid_vol (pts_ext twisted) <$> simplices twisted) = 16 ∧
  convex_hull_volume_scaled (_pts_optimal twisted) (_dim twisted) = 16.
Proof. split_and!; vm_compute; reflexivity. Qed.

Section RegularProofs.
Context `{E : Externals}.

(** Asking twice gives the same answer and leaves the object as the
    first call left it. *)
Lemma is_fine_idem (T T1 : Triangulation) (r : result bool) :
  is_fine T = (r, T1) → is_fine T1 = (r, T1).
Proof.
  unfold is_fine. destruct (_is_fine T) as [b|] eqn:Hc.
  - intros [= <- <-]. by rewrite Hc.
  - destruct (_simplices T) eqn:Hs.
    + intros [= <- <-]. by rewrite Hc, Hs.
    + intros [= <- <-]. done.
Qed.



(** With no back-end named, the native one is used as soon as the
    triangulation is fine or the points outside it are left out. *)
Lemma secondary_cone_native nbrs (include : bool) (T T1 : Triangulation)
    (fine : bool) :
  is_fine T = (Ok fine, T1) → fine || negb include = true →
  secondary_cone_body nbrs None include T =
    match get_cone_slot include T1 with
    | Some c => (Ok c, T1)
    | None => native_cone include T1
    end.
Proof.
  intros Hf Hn. unfold secondary_cone_body.
  rewrite bool_decide_eq_true_2 by set_solver. cbn [negb].
  unfold mbind at 1, M_bind at 1.
  unfold mbind at 1, M_bind at 1. rewrite Hf. cbv beta iota.
  unfold mret at 1, M_ret at 1. rewrite Hn.
  unfold mbind at 1, M_bind at 1.
  replace (String.eqb "native" "native") with true by done. cbv iota.
  unfold mbind at 1, M_bind at 1. rewrite (is_fine_idem _ _ _ Hf).
  cbv beta iota. unfold mret at 1, M_ret at 1.
  assert (negb fine && include = false) as ->.
  { destruct fine, include; done. }
  unfold mbind at 1, M_bind at 1, get at 1. cbv beta iota.
  destruct (get_cone_slot include T1); [done|].
  replace (String.eqb "native" "native") with true by done. done.
Qed.





End RegularProofs.

(** The constructor builds [twisted_with_spare_point] when the input
    simplices are not checked. *)
Lemma twisted_with_spare_point_built_by_init :
  (T ← __init__ 0 (args_from_simplices triangle4 [0; 1; 2; 3; 4; 5; 6]
                     twisted_simplices);
   Ok (_simplices T, _pts T, _pts_optimal T, _dim T, _ambient_dim T,
       _is_fulldim T, _origin_index T, _pt_labels T, _pts_dict T,
       _is_regular T, _secondary_cone T))
  = Ok (_simplices twisted_with_spare_point, _pts twisted_with_spare_point,
        _pts_optimal twisted_with_spare_point, _dim twisted_with_spare_point,
        _ambient_dim twisted_with_spare_point,
        _is_fulldim twisted_with_spare_point,
        _origin_index twisted_with_spare_point,
        _pt_labels twisted_with_spare_point,
        _pts_dict twisted_with_spare_point, None, (None, None)).
Proof. vm_compute. reflexivity. Qed.



Section Reflection.
Context `{E : Externals}.

(** The well-formedness of the simplices as a property that can be
    decided on a given object. *)
Lemma simplices_well_formed_Forall (T : Triangulation) :
  Forall (λ s, NoDup s ∧ Z.of_nat (length s) = dim T + 1 ∧
               Forall (λ i, 0 ≤ i < Z.of_nat (length (_pts T))) s)
    (_simplices T) →
  simplices_well_formed T.
Proof.
  intros H s Hs. rewrite Forall_forall in H.
  destruct (H s Hs) as (Hnd & Hlen & Hr). split_and!; [done|done|].
  intros i Hi. rewrite Forall_forall in Hr. by apply Hr.
Qed.

End Reflection.


Lemma sr_ideal_generators_witness :
  ∃ gens, (sr_ideal square_star).1 = Ok gens ∧
    ∀ g, g ∈ gens →
      (∀ x, x ∈ g → x ≠ _origin_index square_star ∧
                    0 ≤ x < Z.of_nat (length (_pts square_star))) ∧
      (∀ s, s ∈ simplices square_star → ¬ g ⊆ s) ∧
      (∀ g', g' ∈ gens → g ⊆ g' → g' = g).
Proof.
  apply (sr_ideal_generators square_star).
  - apply simplices_well_formed_Forall. compute_done.
  - intros sr H. vm_compute in H. discriminate H.
  - vm_compute. reflexivity.
  - reflexivity.
Defined.

Lemma not_implemented_guards_witness :
  (∃ msg, (get_toric_variety collinear_star).1 = Raise (NotImplementedError msg)) ∧
  (∃ msg, (sr_ideal collinear_star).1 = Raise (NotImplementedError msg)).
Proof.
  apply (not_implemented_guards collinear_star).
  - intros b H. vm_compute in H. discriminate H.
  - intros [tv H]. vm_compute in H. discriminate H.
  - intros [sr H]. vm_compute in H. discriminate H.
  - left. reflexivity.
Defined.

Lemma make_star_without_origin_is_ignored_witness :
  let a := args_from_simplices segment [1; 2] [[0; 1]] in
  __init__ 0 (with_make_star true a) = __init__ 0 (with_make_star false a) ∧
  ∀ T, __init__ 0 (with_make_star true a) = Ok T → _origin_index T = -1.
Proof.
  apply (make_star_without_origin_is_ignored 0
           (args_from_simplices (E:=demo) segment [1; 2] [[0; 1]])).
  intros pt Hpt Hz. vm_compute in Hpt.
  apply elem_of_cons in Hpt as [->|Hpt].
  { apply Forall_cons in Hz as [Hz _]. discriminate Hz. }
  apply elem_of_cons in Hpt as [->|Hpt].
  { apply Forall_cons in Hz as [Hz _]. discriminate Hz. }
  by apply elem_of_nil in Hpt.
Defined.



Section HashProofs.
Context `{E : Externals}.

Lemma hash_result (T : Triangulation) :
  hash_cache_ok T →
  (__hash__ T).1 = Ok (hash_value T) ∧
  _hash (__hash__ T).2 = Some (hash_value T) ∧
  hash_value (__hash__ T).2 = hash_value T.
Proof.
  intros Hc. unfold __hash__. destruct (_hash T) as [h|] eqn:Hh; simpl.
  - rewrite (Hc h Hh). by rewrite Hh, (Hc h Hh).
  - done.
Qed.

(** Equal triangulations over the same points have the same hash, and
    the hash is kept: a second call returns it again. *)
Theorem hash_agrees_on_equal_triangulations_with_equal_points
    (t1 t2 : Triangulation) :
  hash_cache_ok t1 → hash_cache_ok t2 →
  __eq__ t1 t2 = true → points t1 = points t2 →
  (__hash__ t1).1 = (__hash__ t2).1 ∧
  (__hash__ (__hash__ t1).2) = ((__hash__ t1).1, (__hash__ t1).2).
Proof.
  intros H1 H2 Heq Hpts.
  destruct (hash_result t1 H1) as (Hr1 & Hs1 & _).
  destruct (hash_result t2 H2) as (Hr2 & _ & _).
  split.
  - rewrite Hr1, Hr2. f_equal. unfold hash_value. rewrite Hpts.
    unfold __eq__ in Heq. apply andb_true_iff in Heq as [_ Hs].
    apply bool_decide_eq_true in Hs. apply sorted_tuples_eq_perm in Hs.
    do 4 f_equal. apply sorted_tuples_perm. by apply fmap_Permutation.
  - rewrite Hr1. unfold __hash__ at 1. by rewrite Hs1.
Qed.

End HashProofs.

Lemma hash_agrees_on_equal_triangulations_with_equal_points_witness :
  (__hash__ twisted).1 = (__hash__ (set_simplices twisted_simplices twisted)).1.
Proof.
  apply (hash_agrees_on_equal_triangulations_with_equal_points twisted
           (set_simplices twisted_simplices twisted)).
  - intros h H. vm_compute in H. discriminate H.
  - intros h H. vm_compute in H. discriminate H.
  - vm_compute. reflexivity.
  - reflexivity.
Defined.

Section FrameTheorems.
Context `{E : Externals}.

Lemma cache_only_simplices_method d c : cache_only (simplices_method d c).
Proof.
  intros T. unfold simplices_method.
  destruct d as [d|], c as [c|].
  - apply (cache_only_simplices_on_faces d).
  - apply (cache_only_simplices_on_faces d).
  - apply (cache_only_simplices_on_faces (dim T - c)).
  - reflexivity.
Qed.

(** The queries leave everything but the cached answers as it was: after
    any of them [clear_cache] gives the object that it gave before. *)
Theorem queries_only_write_caches :
  cache_only is_fine ∧ (∀ o, cache_only (is_star o)) ∧ cache_only gkz_phi ∧
  cache_only sr_ideal ∧ cache_only get_toric_variety ∧ cache_only __hash__ ∧
  (∀ backend include, cache_only (secondary_cone backend include)) ∧
  (∀ backend, cache_only (is_regular backend)) ∧
  (∀ f r s backend v, cache_only (neighbor_triangulations f r s backend v)) ∧
  (∀ d c, cache_only (simplices_method d c)) ∧
  (∀ fuel a d c, cache_only (automorphism_orbit fuel a d c)) ∧
  (∀ N f r s backend seed, cache_only (random_flips N f r s backend seed)).
Proof.
  split_and!; intros.
  - apply cache_only_is_fine.
  - apply cache_only_is_star.
  - apply cache_only_gkz_phi.
  - apply cache_only_sr_ideal.
  - apply cache_only_get_toric_variety.
  - apply cache_only_hash.
  - apply cache_only_secondary_cone.
  - apply cache_only_is_regular.
  - apply cache_only_neighbor_triangulations.
  - apply cache_only_simplices_method.
  - apply cache_only_automorphism_orbit.
  - apply cache_only_random_flips.
Qed.

(** ** Asking again *)

Lemma is_star_again (T T1 : Triangulation) (b : bool) :
  is_star None T = (Ok b, T1) → is_star None T1 = (Ok b, T1).
Proof.
  unfold is_star. destruct (_is_star T) as [c|] eqn:Hc.
  - intros [= <- <-]. by rewrite Hc.
  - intros [= <- <-]. done.
Qed.

Lemma gkz_phi_again (T T1 : Triangulation) (phi : list Z) :
  gkz_phi T = (Ok phi, T1) → gkz_phi T1 = (Ok phi, T1).
Proof.
  unfold gkz_phi. destruct (_gkz_phi T) as [c|] eqn:Hc.
  - intros [= <- <-]. by rewrite Hc.
  - destruct (gkz_loop _ _ _); intros [= <- <-]. done.
Qed.

Lemma hash_again (T T1 : Triangulation) (h : Z) :
  __hash__ T = (Ok h, T1) → __hash__ T1 = (Ok h, T1).
Proof.
  unfold __hash__. destruct (_hash T) as [c|] eqn:Hc.
  - intros [= <- <-]. by rewrite Hc.
  - intros [= <- <-]. done.
Qed.

Lemma sr_ideal_again (T T1 : Triangulation) (sr : list (list Z)) :
  sr_ideal T = (Ok sr, T1) → sr_ideal T1 = (Ok sr, T1).
Proof.
  unfold sr_ideal. destruct (_sr_ideal T) as [c|] eqn:Hc.
  - intros [= <- <-]. by rewrite Hc.
  - unfold mbind, M_bind, get, modify, raise, mret, M_ret.
    destruct (is_star None T) as [[b| |] T2]; [|done..].
    destruct (negb b || negb (_is_fulldim T2)); [done|].
    intros [= <- <-]. done.
Qed.

Lemma get_toric_variety_again (T T1 : Triangulation) (tv : ToricVariety) :
  get_toric_variety T = (Ok tv, T1) → get_toric_variety T1 = (Ok tv, T1).
Proof.
  unfold get_toric_variety. destruct (_toricvariety T) as [c|] eqn:Hc.
  - intros [= <- <-]. by rewrite Hc.
  - destruct (negb (_is_fulldim T)); [done|].
    unfold mbind, M_bind, get, modify, raise, mret, M_ret.
    destruct (is_star None T) as [[b| |] T2]; [|done..].
    destruct (negb b); [done|].
    intros [= <- <-]. done.
Qed.

Lemma is_regular_again (backend backend' : option string)
    (T T1 : Triangulation) (b : bool) :
  is_regular backend T = (Ok b, T1) → is_regular backend' T1 = (Ok b, T1).
Proof.
  unfold is_regular, is_regular_body.
  unfold mbind at 1, M_bind at 1, get at 1. cbv beta iota.
  destruct (_is_regular T) as [c|] eqn:Hc.
  - intros [= <- <-]. unfold mbind at 1, M_bind at 1, get at 1. by rewrite Hc.
  - destruct (bool_decide _).
    + intros [= <- <-]. done.
    + unfold mbind at 1, M_bind at 1.
      destruct (secondary_cone_body _ _ _ T) as [[C| |] T2]; [|done..].
      intros [= <- <-]. done.
Qed.

(** Once a query has answered, asking again gives the same answer and
    writes nothing; [is_regular] then no longer looks at its back-end. *)
Theorem answers_are_kept (T T1 : Triangulation) :
  (∀ b, is_fine T = (Ok b, T1) → is_fine T1 = (Ok b, T1)) ∧
  (∀ b, is_star None T = (Ok b, T1) → is_star None T1 = (Ok b, T1)) ∧
  (∀ phi, gkz_phi T = (Ok phi, T1) → gkz_phi T1 = (Ok phi, T1)) ∧
  (∀ sr, sr_ideal T = (Ok sr, T1) → sr_ideal T1 = (Ok sr, T1)) ∧
  (∀ tv, get_toric_variety T = (Ok tv, T1) →
         get_toric_variety T1 = (Ok tv, T1)) ∧
  (∀ h, __hash__ T = (Ok h, T1) → __hash__ T1 = (Ok h, T1)) ∧
  (∀ backend backend' b, is_regular backend T = (Ok b, T1) →
                         is_regular backend' T1 = (Ok b, T1)).
Proof.
  split_and!; intros.
  - unfold is_fine in *. destruct (_is_fine T) as [c|] eqn:Hc.
    + simplify_eq. by rewrite Hc.
    + destruct (_simplices T); simplify_eq. done.
  - by apply (is_star_again T).
  - by apply (gkz_phi_again T).
  - by apply (sr_ideal_again T).
  - by apply (get_toric_variety_again T).
  - by apply (hash_again T).
  - by apply (is_regular_again backend backend' T).
Qed.

End FrameTheorems.

Lemma answers_are_kept_witness :
  is_fine (is_fine twisted).2 = (Ok true, (is_fine twisted).2).
Proof.
  assert (H1 : (is_fine twisted).1 = Ok true) by (vm_compute; reflexivity).
  apply (proj1 (answers_are_kept twisted (is_fine twisted).2) true).
  rewrite <- H1. apply surjective_pairing.
Defined.

Section LoopProofs.
Context `{E : Externals}.

Lemma secondary_cone_fine_fails nbrs (include : bool) (T T1 : Triangulation)
    (r : result bool) :
  is_fine T = (r, T1) → (∀ fine, r ≠ Ok fine) →
  secondary_cone_body nbrs None include T =
    (match r with Raise e => Raise e | _ => OutOfFuel end, T1).
Proof.
  intros Hf Hr. unfold secondary_cone_body.
  rewrite bool_decide_eq_true_2 by set_solver. cbn [negb].
  unfold mbind at 1, M_bind at 1.
  unfold mbind at 1, M_bind at 1. rewrite Hf.
  destruct r as [fine|e|]; [exfalso; by apply (Hr fine)|reflexivity..].
Qed.

Lemma secondary_cone_body_without_points nbrs nbrs' (T : Triangulation) :
  secondary_cone_body nbrs None false T = secondary_cone_body nbrs' None false T.
Proof.
  destruct (is_fine T) as [r T1] eqn:Hf.
  assert (Hcase : (∃ fine, r = Ok fine) ∨ ∀ fine, r ≠ Ok fine).
  { destruct r; [left; eauto|right; done..]. }
  destruct Hcase as [[fine ->]|Hr].
  - rewrite (secondary_cone_native nbrs false T T1 fine Hf)
      by (by destruct fine).
    by rewrite (secondary_cone_native nbrs' false T T1 fine Hf)
      by (by destruct fine).
  - rewrite (secondary_cone_fine_fails nbrs false T T1 r Hf Hr).
    by rewrite (secondary_cone_fine_fails nbrs' false T T1 r Hf Hr).
Qed.

(** [is_regular] never asks for the neighbours of the triangulation (no
    run of TOPCOM): whatever [neighbor_triangulations] would do, the
    answer and the object left are the same. *)
Theorem is_regular_never_asks_for_neighbors
    (nbrs : bool → bool → bool → option string → bool →
            M Triangulation (list Triangulation))
    (backend : option string) (T : Triangulation) :
  is_regular_body nbrs backend T = is_regular backend T.
Proof.
  unfold is_regular, is_regular_body, mbind, M_bind, get.
  destruct (_is_regular T); [done|].
  destruct (bool_decide _); [done|].
  by rewrite (secondary_cone_body_without_points nbrs neighbor_triangulations).
Qed.

(** With [check_input_simplices=False] the constructor, given simplices,
    calls neither [is_valid] nor [check_heights] and enters no loop. *)
Lemma init_body_unchecked_simplices chr val chr' val' (fuel fuel' : nat)
    (a : init_args) (s : list (list Z)) :
  arg_simplices a = Some s → arg_check_input_simplices a = false →
  init_body chr val fuel a = init_body chr' val' fuel' a.
Proof.
  intros Hs Hc. unfold init_body. rewrite Hs, Hc.
  destruct (match arg_backend a with Some _ => _ | None => _ end) as [b| |];
    [|done..].
  cbv beta iota delta [mbind result_mbind result_bind].
  destruct (negb _); [done|]. destruct (bool_decide _); [done|].
  destruct (np_asarray _); [|done..].
  destruct (if bool_decide _ then _ else _) as [po| |]; [|done..].
  destruct (list_index _ _); reflexivity.
Qed.

(** Given heights and [make_star=False], it does not call [is_valid] and
    enters no loop. *)
Lemma init_body_heights_no_star chr val val' (fuel fuel' : nat)
    (a : init_args) :
  arg_simplices a = None → arg_make_star a = false →
  init_body chr val fuel a = init_body chr val' fuel' a.
Proof.
  intros Hs Hm. unfold init_body. rewrite Hs, Hm.
  destruct (match arg_backend a with Some _ => _ | None => _ end) as [b| |];
    [|done..].
  cbv beta iota delta [mbind result_mbind result_bind].
  destruct (negb _); [done|]. destruct (bool_decide _); [done|].
  destruct (if bool_decide _ then _ else _) as [po| |]; [|done..].
  assert (Hstar : ∀ i : Z,
    match list_index (filter (λ pt, pt ∈ (list_to_set
              (poly_points_which (arg_poly a) (arg_pts a)) : gset (list Z)))
            (poly_points (arg_poly a)))
            (replicate (Z.to_nat (poly_dim (arg_poly a))) 0) with
    | Ok i => (i, false)
    | _ => (-1, false)
    end = (match list_index (filter (λ pt, pt ∈ (list_to_set
              (poly_points_which (arg_poly a) (arg_pts a)) : gset (list Z)))
            (poly_points (arg_poly a)))
            (replicate (Z.to_nat (poly_dim (arg_poly a))) 0) with
    | Ok i => i
    | _ => -1
    end, false)).
  { intros _. by destruct (list_index _ _). }
  rewrite (Hstar 0). cbv beta iota.
  unfold init_from_heights.
  cbv beta iota zeta delta [mbind result_mbind result_bind].
  destruct (match arg_heights a with Some _ => _ | None => _ end) as [h| |];
    [|done..].
  destruct (String.eqb b "qhull"); [done|].
  destruct (String.eqb b "cgal"); done.
Qed.

(** The objects that the methods build for themselves are the ones the
    constructor returns: a neighbour is [Triangulation(poly, labels,
    simplices=t, check_input_simplices=False)], and the object that
    [is_valid] compares with is [Triangulation(poly, labels,
    heights=h, make_star=False)]. *)
Theorem inner_objects_are_constructed (fuel : nat) (a : init_args) :
  (∀ s, arg_simplices a = Some s → arg_check_input_simplices a = false →
        Triangulation_from_simplices a = __init__ fuel a) ∧
  (arg_simplices a = None → arg_make_star a = false →
        Triangulation_from_heights a = __init__ fuel a).
Proof.
  split.
  - intros s Hs Hc. by apply (init_body_unchecked_simplices _ _ _ _ _ _ a s).
  - intros Hs Hm. by apply init_body_heights_no_star.
Qed.

End LoopProofs.

Lemma inner_objects_are_constructed_witness :
  Triangulation_from_simplices
    (args_from_simplices (E:=demo) segment [0; 1; 2] [[0; 1]; [0; 2]])
  = __init__ 3 (args_from_simplices segment [0; 1; 2] [[0; 1]; [0; 2]]).
Proof.
  apply (proj1 (inner_objects_are_constructed 3
           (args_from_simplices (E:=demo) segment [0; 1; 2] [[0; 1]; [0; 2]]))
           [[0; 1]; [0; 2]]); reflexivity.
Defined.

Section NeighborProofs.
Context `{E : Externals}.

(** For a fine triangulation of dimension two asked for its fine
    neighbours, [neighbor_triangulations] hands over to
    [_fine_neighbors_2d] without passing its arguments on: the answer is
    the one for [only_regular=False], [only_star=False], whatever was
    asked for. *)
Theorem fine_neighbors_2d_ignores_filters (T : Triangulation)
    (only_regular only_star : bool) (backend : option string) (verbose : bool) :
  (is_fine T).1 = Ok true → dim T = 2 →
  neighbor_triangulations true only_regular only_star backend verbose T
  = neighbor_triangulations true false false None false T.
Proof.
  intros Hf Hd.
  unfold neighbor_triangulations, neighbor_triangulations_body,
    mbind, M_bind, get.
  destruct (bool_decide (length (simplices T) = 1%nat)); [done|].
  destruct (is_fine T) as [r T1]. simpl in Hf. subst r.
  by rewrite (bool_decide_eq_true_2 _ Hd).
Qed.

(** A triangulation with one simplex has no neighbour to offer, and
    neither has one for which TOPCOM ends with a return code other than
    zero: the answer is the empty list, not an error. *)
Theorem neighbor_triangulations_empty_answers (T : Triangulation)
    (only_fine only_regular only_star : bool) (backend : option string)
    (verbose : bool) :
  (length (simplices T) = 1%nat →
     neighbor_triangulations only_fine only_regular only_star backend verbose T
     = (Ok [], T)) ∧
  (length (simplices T) ≠ 1%nat →
   ∀ fine, (is_fine T).1 = Ok fine →
     fine && bool_decide (dim T = 2) && only_fine = false →
     (topcom_points2flips (pts_ext T) (_simplices T) verbose).1 ≠ 0 →
     neighbor_triangulations only_fine only_regular only_star backend verbose T
     = (Ok [], (is_fine T).2)).
Proof.
  split.
  - intros H1. unfold neighbor_triangulations, neighbor_triangulations_body.
    unfold mbind at 1, M_bind at 1, get at 1. cbv beta iota.
    by rewrite bool_decide_eq_true_2.
  - intros H1 fine Hf Hpath Hrc.
    unfold neighbor_triangulations, neighbor_triangulations_body.
    unfold mbind at 1, M_bind at 1, get at 1. cbv beta iota.
    rewrite bool_decide_eq_false_2 by done.
    unfold mbind at 1, M_bind at 1.
    pose proof (cache_only_fields is_fine T cache_only_is_fine) as Hfields.
    cbv zeta in Hfields. destruct Hfields as (Hs & _ & Ho & _).
    destruct (is_fine T) as [r T1]. simpl in *. subst r. cbv beta iota.
    rewrite Hpath.
    unfold mbind at 1, M_bind at 1, get at 1. cbv beta iota.
    assert (Hpe : pts_ext T1 = pts_ext T) by (unfold pts_ext; by rewrite Ho).
    rewrite Hpe, Hs.
    destruct (topcom_points2flips _ _ _) as [returncode res]. simpl in Hrc.
    by rewrite bool_decide_eq_false_2.
Qed.

End NeighborProofs.

Lemma fine_neighbors_2d_ignores_filters_witness :
  neighbor_triangulations true true true None false square_star
  = neighbor_triangulations true false false None false square_star.
Proof.
  apply fine_neighbors_2d_ignores_filters.
  - vm_compute. reflexivity.
  - reflexivity.
Defined.

Lemma neighbor_triangulations_empty_answers_witness :
  neighbor_triangulations false false false None false twisted
  = (Ok [], (is_fine twisted).2).
Proof.
  apply (proj2 (neighbor_triangulations_empty_answers twisted false false
                  false None false)) with (fine := true).
  - vm_compute. lia.
  - vm_compute. reflexivity.
  - reflexivity.
  - vm_compute. discriminate.
Defined.

Section ToStarProofs.
Context `{E : Externals}.

Lemma elem_of_sorted_ints' (x : Z) (s : list Z) : x ∈ sorted_ints s ↔ x ∈ s.
Proof. unfold sorted_ints. by rewrite merge_sort_Permutation. Qed.

Lemma to_star_unfold (T : Triangulation) :
  (_to_star T).1 = Ok tt →
  ∃ star_triang,
    _to_star T = (Ok tt, set_simplices (canonical_simplices star_triang) T) ∧
    ∀ r, r ∈ star_triang →
      ∃ simp facet : list Z, simp ∈ _simplices T ∧
        r = _origin_index T :: filter (λ x, x ∈ facet) simp.
Proof.
  unfold _to_star. destruct (negb _); [done|].
  unfold mbind at 1 2, M_bind, lift, modify.
  destruct (result_mapM _ _) as [facets| |]; [|done..].
  destruct (py_getitem _ _) as [s0| |]; [|done..].
  intros _. eexists. split; [reflexivity|].
  intros r Hr.
  apply list_elem_of_bind in Hr as (facet & Hr & _).
  apply list_elem_of_bind in Hr as (simp & Hr & Hsimp).
  destruct (bool_decide _); [|by apply elem_of_nil in Hr].
  apply list_elem_of_singleton in Hr as ->. by exists simp, facet.
Qed.

(** [_to_star] refuses a polytope that is not reflexive; when it returns,
    every simplex of the object consists of the origin and of vertices of
    one former simplex, the simplices are in canonical form, [is_star]
    with the origin given answers [True], and nothing but the simplices has
    changed. *)
Theorem to_star_result (T : Triangulation) :
  (poly_is_reflexive (_poly T) = false →
     _to_star T = (Raise AssertionError, T)) ∧
  ((_to_star T).1 = Ok tt →
     let T' := (_to_star T).2 in
     (∀ s, s ∈ _simplices T' →
        _origin_index T ∈ s ∧
        ∃ s0, s0 ∈ _simplices T ∧
              ∀ x, x ∈ s → x = _origin_index T ∨ x ∈ s0) ∧
     canonical_simplices (_simplices T') = _simplices T' ∧
     (is_star (Some (_origin_index T)) T').1 = Ok true ∧
     geometry T' = geometry T ∧ _heights T' = _heights T).
Proof.
  split.
  - intros Hr. unfold _to_star. by rewrite Hr.
  - intros Hok. destruct (to_star_unfold T Hok) as (star_triang & -> & Hstar).
    cbv zeta. cbn [fst snd].
    assert (Hrows : ∀ s, s ∈ canonical_simplices star_triang →
              _origin_index T ∈ s ∧
              ∃ s0, s0 ∈ _simplices T ∧
                    ∀ x, x ∈ s → x = _origin_index T ∨ x ∈ s0).
    { intros s (r & Hr & ->)%elem_of_canonical_simplices.
      destruct (Hstar r Hr) as (simp & facet & Hsimp & ->). split.
      - apply elem_of_sorted_ints'. left.
      - exists simp. split; [done|]. intros x Hx.
        rewrite elem_of_sorted_ints' in Hx.
        apply elem_of_cons in Hx as [->|Hx]; [by left|right].
        by apply list_elem_of_filter in Hx as [_ ?]. }
    split_and!; [exact Hrows| |..|done|done].
    + destruct (canonical_simplices_normal_form star_triang star_triang)
        as (_ & Hid & _); [|exact Hid].
      exists star_triang. split; [done|].
      clear. induction star_triang; by constructor.
    + cbn [is_star fst]. f_equal. apply forallb_elem_of'.
      intros s Hs. apply bool_decide_eq_true. by apply Hrows.
Qed.

End ToStarProofs.

Lemma to_star_result_witness :
  let T' := (_to_star square_star).2 in
  (∀ s, s ∈ _simplices T' →
     _origin_index square_star ∈ s ∧
     ∃ s0, s0 ∈ _simplices square_star ∧
           ∀ x, x ∈ s → x = _origin_index square_star ∨ x ∈ s0) ∧
  canonical_simplices (_simplices T') = _simplices T' ∧
  (is_star (Some (_origin_index square_star)) T').1 = Ok true ∧
  geometry T' = geometry square_star ∧ _heights T' = _heights square_star.
Proof.
  apply (proj2 (to_star_result square_star)).
  vm_compute. reflexivity.
Defined.

(** ** Methods and the views they keep *)

Section KeepsBasics.
Context `{E : Externals} {V : Type} (v : Triangulation → V).

Lemma keeps_ret {A} (a : A) : keeps v (mret a).
Proof. done. Qed.
Lemma keeps_raise {A} (e : exn) : keeps v (raise (A:=A) e).
Proof. done. Qed.
Lemma keeps_lift {A} (r : result A) : keeps v (lift r).
Proof. done. Qed.
Lemma keeps_get : keeps v get.
Proof. done. Qed.
Lemma keeps_modify (f : Triangulation → Triangulation) :
  (∀ T, v (f T) = v T) → keeps v (modify f).
Proof. intros H T. apply H. Qed.
Lemma keeps_bind {A B} (m : M Triangulation A) (k : A → M Triangulation B) :
  keeps v m → (∀ a, keeps v (k a)) → keeps v (m ≫= k).
Proof.
  intros Hm Hk T. unfold mbind, M_bind. specialize (Hm T).
  destruct (m T) as [[a|e|] T1]; simpl in *; [|done|done].
  by rewrite Hk.
Qed.

Context `{!CacheView v}.

Lemma keeps_is_fine : keeps v is_fine.
Proof.
  intros T. unfold is_fine. destruct (_is_fine T); [done|].
  destruct (_simplices T); [done|]. apply view_is_fine.
Qed.
Lemma keeps_is_star o : keeps v (is_star o).
Proof.
  intros T. unfold is_star. destruct o; [done|].
  destruct (_is_star T); [done|]. apply view_is_star.
Qed.
Lemma keeps_gkz_phi : keeps v gkz_phi.
Proof.
  intros T. unfold gkz_phi. destruct (_gkz_phi T); [done|].
  destruct (gkz_loop _ _ _); [|done..]. apply view_gkz_phi.
Qed.
Lemma keeps_set_cone_slot include c : keeps v (modify (set_cone_slot include c)).
Proof.
  intros T. unfold modify, set_cone_slot.
  destruct include; apply view_secondary_cone.
Qed.

End KeepsBasics.

Create HintDb keeps.
#[export] Hint Resolve keeps_ret keeps_raise keeps_lift keeps_get keeps_is_fine
  keeps_is_star keeps_gkz_phi keeps_set_cone_slot : keeps.
#[export] Hint Resolve view_automorphism_orbit view_gkz_phi view_hash
  view_is_fine view_is_regular view_is_star view_is_valid view_secondary_cone
  view_sr_ideal view_toricvariety view_restricted_simplices view_heights
  view_simplices : keeps.

(** Walk down a method written with binds, conditionals and matches. *)
Ltac keeps_tac :=
  lazymatch goal with
  | |- keeps _ (mbind _ _) =>
      apply keeps_bind; [keeps_tac | intros ?; keeps_tac]
  | |- keeps _ (modify (set_cone_slot _ _)) => apply keeps_set_cone_slot; apply _
  | |- keeps _ (modify _) =>
      apply keeps_modify; intros ?; auto with keeps
  | |- keeps _ (if ?b then _ else _) => destruct b; keeps_tac
  | |- keeps _ (match ?x with _ => _ end) => destruct x; keeps_tac
  | |- keeps _ (let '(_, _) := ?x in _) => destruct x; keeps_tac
  | |- keeps _ (let _ := _ in _) => cbv zeta; keeps_tac
  | |- _ => auto with keeps
  end.

Section KeepsMethods.
Context `{E : Externals} {V : Type} (v : Triangulation → V) `{!CacheView v}.

Lemma keeps_native_hyperplanes : keeps v native_hyperplanes.
Proof. unfold native_hyperplanes. keeps_tac. Qed.

Lemma keeps_secondary_cone_body nbrs backend include :
  (∀ a b c d e, keeps v (nbrs a b c d e)) →
  keeps v (secondary_cone_body nbrs backend include).
Proof.
  intros Hn. pose proof keeps_native_hyperplanes.
  unfold secondary_cone_body. keeps_tac.
Qed.

Lemma keeps_is_regular_body nbrs backend :
  (∀ a b c d e, keeps v (nbrs a b c d e)) →
  keeps v (is_regular_body nbrs backend).
Proof.
  intros Hn. pose proof (keeps_secondary_cone_body nbrs) as Hc.
  unfold is_regular_body. keeps_tac.
Qed.

Lemma keeps_neighbor_triangulations f r s backend verbose :
  keeps v (neighbor_triangulations f r s backend verbose).
Proof.
  unfold neighbor_triangulations, neighbor_triangulations_body,
    _fine_neighbors_2d_body.
  keeps_tac.
Qed.

Context `{!HeightsView v}.

Lemma keeps_heights_body nbrs integral backend :
  (∀ a b c d e, keeps v (nbrs a b c d e)) →
  keeps v (heights_body nbrs integral backend).
Proof.
  intros Hn. pose proof (keeps_secondary_cone_body nbrs) as Hc.
  unfold heights_body. keeps_tac.
Qed.

Lemma keeps_check_heights verbosity : keeps v (check_heights verbosity).
Proof.
  pose proof (keeps_secondary_cone_body neighbor_triangulations) as Hc.
  pose proof keeps_neighbor_triangulations.
  unfold check_heights, check_heights_body. keeps_tac.
Qed.

Lemma keeps_is_valid backend : keeps v (is_valid backend).
Proof.
  pose proof keeps_neighbor_triangulations.
  pose proof (keeps_is_regular_body neighbor_triangulations) as Hr.
  pose proof (keeps_heights_body neighbor_triangulations) as Hh.
  unfold is_valid, is_valid_body, set_and_return_valid. keeps_tac.
Qed.

Context `{!SimplicesView v}.

Lemma keeps_to_star : keeps v _to_star.
Proof.
  intros T. unfold _to_star. destruct (negb _); [done|].
  unfold mbind at 1 2, M_bind, lift, modify.
  destruct (result_mapM _ _); simpl; [|done|done].
  destruct (py_getitem _ _); [|done..]. apply view_simplices.
Qed.

Lemma run_init_view {A} (m : M Triangulation A) (T0 T : Triangulation) :
  keeps v m → run_init m T0 = Ok T → v T = v T0.
Proof.
  intros Hm. unfold run_init. specialize (Hm T0).
  destruct (m T0) as [[x|e|] T1]; simpl in *; intros; simplify_eq. done.
Qed.

Lemma keeps_star_or_not (b : bool) : keeps v (if b then _to_star else mret tt).
Proof. destruct b; [apply keeps_to_star|done]. Qed.

Lemma init_from_simplices_view (chk ms : bool) (n : nat) (d : Z) (c : V)
    (object : list (list Z) → option (list F) → Triangulation)
    (simps : list (list Z)) (T : Triangulation) :
  (∀ s h, v (object s h) = c) →
  init_from_simplices is_valid chk ms n d object simps = Ok T →
  v T = c.
Proof.
  intros Hobj. unfold init_from_simplices.
  unfold mbind at 1 2, result_mbind, result_bind.
  destruct (shape1 simps); [|done|done].
  destruct (negb _); [done|].
  destruct (if chk then _ else _); [|done|done].
  intros H. apply run_init_view in H; [by rewrite H|].
  pose proof keeps_to_star. pose proof keeps_is_valid.
  keeps_tac.
Qed.

Lemma init_from_heights_view (fuel : nat)
    (backend : string) (heights : option (list F)) (nlabels : nat)
    (ms chk : bool) (verbosity origin : Z) (c : V)
    (pts pts_optimal : list (list Z))
    (object : list (list Z) → option (list F) → Triangulation)
    (T : Triangulation) :
  (∀ s h, v (object s h) = c) →
  init_from_heights check_heights fuel backend heights nlabels ms chk
    verbosity origin pts pts_optimal object = Ok T →
  v T = c.
Proof.
  intros Hobj. unfold init_from_heights.
  unfold mbind, result_mbind, result_bind, mret, result_ret. cbv zeta.
  destruct (match heights with Some _ => _ | None => _ end) as [h'| |]; [|done|done].
  assert (Hpre : ∀ b s h,
    v (set_is_valid (Some true) (set_is_regular b (object s h))) = c).
  { intros. by rewrite view_is_valid, view_is_regular. }
  match goal with
  | |- match ?x with _ => _ end = _ → _ =>
      assert (Hx : ∀ T1, x = Ok T1 → v T1 = c);
        [|destruct x as [T1| |]; [|done|done]]
  end.
  - intros T1.
    destruct (String.eqb backend "qhull").
    { destruct h'; [|done]. destruct (_qhull_triangulate _ _); [|done|done].
      intros H. apply run_init_view in H; [|apply keeps_star_or_not].
      rewrite H. apply Hpre. }
    destruct (String.eqb backend "cgal").
    { destruct h'; [|done]. destruct (_cgal_triangulate _ _); [|done|done].
      destruct ms.
      - destruct (negb _); [done|].
        destruct (f_list_max _); [|done|done].
        destruct (f_list_min _); [|done|done].
        destruct (cgal_star_loop _ _ _ _ _) as [[? ?]| |]; [|done|done].
        intros [= <-]. apply Hpre.
      - intros [= <-]. apply Hpre. }
    destruct (_topcom_triangulate _); [|done|done].
    intros H. apply run_init_view in H; [|apply keeps_star_or_not].
    rewrite H. apply Hpre.
  - specialize (Hx T1 eq_refl).
    destruct (chk && _).
    + intros H. apply run_init_view in H; [|apply keeps_check_heights]. congruence.
    + intros [= <-]. done.
Qed.

End KeepsMethods.

Section Views.
Context `{E : Externals}.

#[export] Instance geometry_cache_view : CacheView geometry.
Proof. split; reflexivity. Qed.
#[export] Instance geometry_heights_view : HeightsView geometry.
Proof. intros x T. reflexivity. Qed.
#[export] Instance geometry_simplices_view : SimplicesView geometry.
Proof. intros x T. reflexivity. Qed.

#[export] Instance simplices_cache_view : CacheView _simplices.
Proof. split; reflexivity. Qed.
#[export] Instance simplices_heights_view : HeightsView _simplices.
Proof. intros x T. reflexivity. Qed.

End Views.

Section Dictionaries.
Context `{E : Externals}.

(** The dictionary from points to positions, read back. *)
Lemma pts_dict_fold (l : list (list Z)) : ∀ (d : gmap (list Z) Z) (n : nat),
  NoDup l →
  let r := foldl (λ d ip, <[ip.2 := ip.1]> d) d
             (zip (Z.of_nat <$> seq n (length l)) l) in
  ∀ p, (∀ i, l !! i = Some p → r !! p = Some (Z.of_nat (n + i))) ∧
       (p ∉ l → r !! p = d !! p).
Proof.
  induction l as [|x l IH]; intros d n Hnd r p; [split; [done|done]|].
  apply NoDup_cons in Hnd as [Hx Hnd].
  specialize (IH (<[x := Z.of_nat n]> d) (S n) Hnd). cbv zeta in IH.
  subst r. cbn [length seq fmap list_fmap zip zip_with foldl fst snd].
  destruct (IH p) as [IH1 IH2]. split.
  - intros [|i] Hi.
    + injection Hi as ->. rewrite IH2 by done.
      rewrite lookup_insert_eq. do 2 f_equal. lia.
    + rewrite (IH1 i Hi). do 2 f_equal. lia.
  - intros Hp. rewrite IH2 by set_solver.
    rewrite lookup_insert_ne; [done|set_solver].
Qed.

Lemma pts_dict_of_lookup (pts : list (list Z)) (p : list Z) :
  NoDup pts →
  (∀ i, pts !! i = Some p → pts_dict_of pts !! p = Some (Z.of_nat i)) ∧
  (p ∉ pts → pts_dict_of pts !! p = None).
Proof.
  intros Hnd. destruct (pts_dict_fold pts ∅ 0 Hnd p) as [H1 H2].
  unfold pts_dict_of, enumerate. split.
  - intros i Hi. apply (H1 i Hi).
  - intros Hp. by rewrite (H2 Hp).
Qed.

(** The dictionary from positions to indices of the polytope. *)
Lemma pts_triang_to_poly_fold (f : list Z → Z) (l : list (list Z)) :
  ∀ (d : gmap Z Z) (n : nat) (k : Z),
  foldl (λ d ip, <[ip.1 := f ip.2]> d) d
    (zip (Z.of_nat <$> seq n (length l)) l) !! k =
  if bool_decide (Z.of_nat n ≤ k < Z.of_nat (n + length l))
  then f <$> l !! (Z.to_nat k - n)%nat
  else d !! k.
Proof.
  induction l as [|x l IH]; intros d n k.
  - cbn [length]. rewrite bool_decide_eq_false_2 by lia. done.
  - cbn [length seq fmap list_fmap zip zip_with foldl fst snd].
    rewrite IH. clear IH.
    destruct (decide (k = Z.of_nat n)) as [->|Hk].
    + rewrite bool_decide_eq_false_2 by lia.
      rewrite bool_decide_eq_true_2 by lia.
      rewrite lookup_insert_eq. by replace (Z.to_nat (Z.of_nat n) - n)%nat with 0%nat by lia.
    + case_bool_decide as H1.
      * rewrite bool_decide_eq_true_2 by lia.
        by replace (Z.to_nat k - n)%nat with (S (Z.to_nat k - S n)) by lia.
      * rewrite bool_decide_eq_false_2 by lia. by rewrite lookup_insert_ne.
Qed.

Lemma pts_triang_to_poly_of_lookup (poly : Polytope) (pts : list (list Z)) (k : Z) :
  pts_triang_to_poly_of poly pts !! k =
  if bool_decide (0 ≤ k < Z.of_nat (length pts))
  then poly_points_to_indices poly <$> pts !! Z.to_nat k
  else None.
Proof.
  unfold pts_triang_to_poly_of, enumerate.
  rewrite (pts_triang_to_poly_fold (poly_points_to_indices poly) pts ∅ 0 k).
  cbn [Nat.add Z.of_nat]. by rewrite Nat.sub_0_r.
Qed.

End Dictionaries.

Section Constructor.
Context `{E : Externals}.

(** What the object that the constructor returns is made of. *)
Lemma init_geometry (fuel : nat) (a : init_args) (T : Triangulation) :
  __init__ fuel a = Ok T →
  ∃ b pts_optimal origin_index,
    arg_backend a = Some b ∧
    (config_dim a = Z.of_nat (length (default [] (head (elements (config_points a)))))
       → pts_optimal = listed_points a) ∧
    geometry T =
      (lower b, arg_pts a, arg_poly a, listed_points a,
       Z.of_nat (length (default [] (head (elements (config_points a))))),
       config_dim a,
       bool_decide (config_dim a =
         Z.of_nat (length (default [] (head (elements (config_points a)))))),
       pts_optimal, origin_index, pts_dict_of (listed_points a),
       pts_triang_to_poly_of (arg_poly a) (listed_points a)) ∧
    canonical_simplices (_simplices T) = _simplices T.
Proof.
  unfold __init__, init_body.
  fold (config_points a). fold (listed_points a). fold (config_dim a).
  unfold mbind, result_mbind, result_bind, mret, result_ret.
  destruct (arg_backend a) as [b|] eqn:Hb; [|done].
  destruct (negb _); [done|].
  destruct (bool_decide (size _ = 0%nat)); [done|].
  destruct (match arg_simplices a with Some _ => _ | None => _ end)
    as [simplices| |]; [|done|done].
  destruct (if bool_decide _ then _ else _) as [pts_optimal| |] eqn:Hopt;
    [|done|done].
  assert (Hfull : config_dim a =
      Z.of_nat (length (default [] (head (elements (config_points a)))))
      → pts_optimal = listed_points a).
  { intros Hd. rewrite bool_decide_eq_true_2 in Hopt by done. congruence. }
  destruct (match list_index _ _ with Ok _ => _ | _ => _ end)
    as [origin_index make_star].
  intros H. exists b, pts_optimal, origin_index.
  split; [done|]. split; [done|].
  assert (∃ T1, T = set_simplices (canonical_simplices (_simplices T1)) T1 ∧
                geometry T1 = (lower b, arg_pts a, arg_poly a, listed_points a,
       Z.of_nat (length (default [] (head (elements (config_points a))))),
       config_dim a,
       bool_decide (config_dim a =
         Z.of_nat (length (default [] (head (elements (config_points a)))))),
       pts_optimal, origin_index, pts_dict_of (listed_points a),
       pts_triang_to_poly_of (arg_poly a) (listed_points a)))
    as (T1 & -> & HT1).
  { destruct simplices as [simps|].
    - destruct (init_from_simplices _ _ _ _ _ _ _) as [T1| |] eqn:H1; [|done|done].
      exists T1. split; [by injection H as <-|].
      by apply (init_from_simplices_view geometry) with (c := (lower b, arg_pts a, arg_poly a, listed_points a,
       Z.of_nat (length (default [] (head (elements (config_points a))))),
       config_dim a,
       bool_decide (config_dim a =
         Z.of_nat (length (default [] (head (elements (config_points a)))))),
       pts_optimal, origin_index, pts_dict_of (listed_points a),
       pts_triang_to_poly_of (arg_poly a) (listed_points a))) in H1.
    - destruct (init_from_heights _ _ _ _ _ _ _ _ _ _ _ _) as [T1| |] eqn:H1;
        [|done|done].
      exists T1. split; [by injection H as <-|].
      by apply (init_from_heights_view geometry) with (c := (lower b, arg_pts a, arg_poly a, listed_points a,
       Z.of_nat (length (default [] (head (elements (config_points a))))),
       config_dim a,
       bool_decide (config_dim a =
         Z.of_nat (length (default [] (head (elements (config_points a)))))),
       pts_optimal, origin_index, pts_dict_of (listed_points a),
       pts_triang_to_poly_of (arg_poly a) (listed_points a))) in H1. }
  split; [exact HT1|].
  cbn [_simplices set_simplices].
  destruct (canonical_simplices_normal_form (_simplices T1) (_simplices T1))
    as (_ & Hid & _); [|exact Hid].
  exists (_simplices T1). split; [done|].
  generalize (_simplices T1). intros l. induction l; by constructor.
Qed.

(** The object that the constructor returns holds the polytope and the
    labels it was given, the points of the polytope that were selected, in
    the order of the polytope, their affine dimension, the two index
    dictionaries of these points, and simplices in canonical form; the
    optimal coordinates are the points themselves when the configuration
    is full-dimensional. *)
Theorem constructor_postconditions (fuel : nat) (a : init_args)
    (T : Triangulation) :
  __init__ fuel a = Ok T →
  _poly T = arg_poly a ∧ _pt_labels T = arg_pts a ∧
  _pts T = listed_points a ∧ _dim T = config_dim a ∧
  _is_fulldim T = bool_decide (_dim T = _ambient_dim T) ∧
  (_is_fulldim T = true → _pts_optimal T = _pts T) ∧
  _pts_dict T = pts_dict_of (_pts T) ∧
  _pts_triang_to_poly T = pts_triang_to_poly_of (_poly T) (_pts T) ∧
  canonical_simplices (_simplices T) = _simplices T ∧
  (∃ b, arg_backend a = Some b ∧ _backend T = lower b ∧
        _backend T ∈ ["qhull"; "cgal"; "topcom"]).
Proof.
  intros H.
  destruct (init_geometry fuel a T H)
    as (b & pts_optimal & origin_index & Hb & Hfull & Hg & Hcanon).
  unfold geometry in Hg. injection Hg as Hbk Hl Hp Hpts Ha Hd Hf Ho _ Hdict Hpoly.
  rewrite Hp, Hl, Hpts, Hd, Ha, Hf, Hdict, Hpoly, Ho, Hbk.
  split_and!; try done.
  - intros Hfd. apply bool_decide_eq_true in Hfd. by apply Hfull.
  - exists b. split_and?.
    + exact Hb.
    + reflexivity.
    + destruct (decide (lower b ∈ ["qhull"; "cgal"; "topcom"])) as [Hin|Hn];
        [exact Hin|exfalso].
      revert H. unfold __init__, init_body. rewrite Hb.
      unfold mbind at 1, result_mbind at 1, result_bind at 1.
      by rewrite (bool_decide_eq_false_2 _ Hn).
Qed.

(** [points_to_indices] inverts [points()], and [points_to_poly_indices]
    translates a position into the index that the polytope gives to the
    point at that position; a point outside the configuration and a
    position outside [0 .. npts - 1] (a negative one too) give
    [KeyError]. *)
Theorem index_round_trips (fuel : nat) (a : init_args) (T : Triangulation) :
  __init__ fuel a = Ok T → NoDup (poly_points (arg_poly a)) →
  (∀ (i : nat) p, points T !! i = Some p → p ≠ [] →
     points_to_indices T p = Ok (Index (Z.of_nat i))) ∧
  (∀ p, p ∉ points T → p ≠ [] → points_to_indices T p = Raise KeyError) ∧
  (∀ (i : nat) p, points T !! i = Some p →
     points_to_poly_index T (Z.of_nat i)
     = Ok (poly_points_to_indices (polytope T) p)) ∧
  (∀ k, ¬ (0 ≤ k < Z.of_nat (length (points T))) →
     points_to_poly_index T k = Raise KeyError).
Proof.
  intros H Hnd.
  destruct (constructor_postconditions fuel a T H)
    as (Hpoly & _ & Hpts & _ & _ & _ & Hdict & Htp & _).
  assert (Hnd' : NoDup (_pts T)).
  { rewrite Hpts. unfold listed_points. by apply NoDup_filter. }
  unfold points, polytope, points_to_indices, points_to_poly_index, dict_getitem.
  split_and!.
  - intros i p Hi Hp.
    rewrite bool_decide_eq_false_2 by (by destruct p).
    rewrite Hdict.
    by rewrite (proj1 (pts_dict_of_lookup (_pts T) p Hnd') i Hi).
  - intros p Hp Hne.
    rewrite bool_decide_eq_false_2 by (by destruct p).
    rewrite Hdict. by rewrite (proj2 (pts_dict_of_lookup (_pts T) p Hnd') Hp).
  - intros i p Hi. rewrite Htp, pts_triang_to_poly_of_lookup.
    rewrite bool_decide_eq_true_2.
    + by rewrite Nat2Z.id, Hi.
    + apply lookup_lt_Some in Hi. lia.
  - intros k Hk. rewrite Htp, pts_triang_to_poly_of_lookup.
    by rewrite bool_decide_eq_false_2.
Qed.

End Constructor.

Lemma constructor_postconditions_witness :
  match segment_coarse with
  | Ok T =>
      _pts T = [[0]; [-2]; [2]] ∧ _dim T = 1 ∧ _is_fulldim T = true ∧
      _pts_optimal T = _pts T ∧
      canonical_simplices (_simplices T) = _simplices T
  | _ => False
  end.
Proof.
  assert (Hok : (segment_coarse ≫= λ _, Ok tt) = Ok tt) by (vm_compute; reflexivity).
  destruct segment_coarse as [T| |] eqn:HT; [|discriminate Hok..].
  destruct (constructor_postconditions 0 (args_from_simplices (E:=demo) segment [0; 1; 2] [[0; 1]; [0; 2]]) T HT)
    as (_ & _ & Hpts & Hdim & Hfd & Hopt & _ & _ & Hcanon & _).
  assert (Hfull : _is_fulldim T = true).
  { assert (Hc : (T ← segment_coarse; Ok (_is_fulldim T)) = Ok true)
      by (vm_compute; reflexivity).
    rewrite HT in Hc. by injection Hc. }
  split_and!.
  - rewrite Hpts. vm_compute. reflexivity.
  - rewrite Hdim. vm_compute. reflexivity.
  - exact Hfull.
  - exact (Hopt Hfull).
  - exact Hcanon.
Defined.

Lemma index_round_trips_witness :
  match segment_coarse with
  | Ok T =>
      points_to_indices T [2] = Ok (Index 2) ∧
      points_to_indices T [1] = Raise KeyError ∧
      points_to_poly_index T 2 = Ok 2 ∧
      points_to_poly_index T (-1) = Raise KeyError
  | _ => False
  end.
Proof.
  assert (Hok : (segment_coarse ≫= λ _, Ok tt) = Ok tt) by (vm_compute; reflexivity).
  assert (Hp : (T ← segment_coarse; Ok (points T, poly_points (polytope T)))
               = Ok ([[0]; [-2]; [2]], [[0]; [-2]; [2]; [-1]; [1]]))
    by (vm_compute; reflexivity).
  destruct segment_coarse as [T| |] eqn:HT; [|discriminate Hok..].
  injection Hp as Hpts Hpoly.
  destruct (index_round_trips 0 (args_from_simplices (E:=demo) segment [0; 1; 2] [[0; 1]; [0; 2]]) T HT) as (H1 & H2 & H3 & H4).
  { compute_done. }
  split_and!.
  - apply (H1 2%nat); [by rewrite Hpts|done].
  - apply H2; [rewrite Hpts; compute_done|done].
  - etrans; [apply (H3 2%nat [2]); by rewrite Hpts|].
    f_equal. change (polytope T) with (_poly T).
    destruct (constructor_postconditions 0 (args_from_simplices (E:=demo) segment [0; 1; 2] [[0; 1]; [0; 2]]) T HT) as (-> & _).
    vm_compute. reflexivity.
  - apply H4. rewrite Hpts. simpl. lia.
Defined.
